(** * Chunked transcription and HTML post-processing

    A shallow embedding of [split_and_transcribe.py] and
    [portfolio_generator.py], with the properties their specification
    states about them.

    Conventions.
    - A Python [str] is the [string] of the bytes of its UTF-8 encoding;
      white space is what [str.isspace] holds for, the ASCII white space and
      the Unicode white space of two and three bytes.  A file holds bytes:
      reading it as text decodes them (and fails on bytes that are not
      UTF-8) and turns CR LF and CR into LF.
    - Python [int] values are [Z]; segment ordinals are [nat].
    - A [pathlib.Path] is a directory together with a final component; the
      file system maps paths to file contents and holds no directories
      ([mkdir(exist_ok=True)] and [unlink(missing_ok=True)] never raise).
    - The audio decoder, the encoder behind [export] and the transcription
      engine are external programs: an [oracle] fixes what each call
      answers, and the theorems quantify over all oracles. *)

From Stdlib Require Import ZArith Lia List Ascii String.
From stdpp Require Import base option list gmap strings pretty.

Open Scope string_scope.

(** ** Python string operations *)

Module PyStr.

(** [str.isspace] on one ASCII character: TAB..CR, FS..US and the blank. *)
Definition isspace (c : ascii) : bool :=
  let n := nat_of_ascii c in
  (((9 <=? n) && (n <=? 13)) || ((28 <=? n) && (n <=? 32)))%nat.

(** A Python [str] is held as the bytes of its UTF-8 encoding.  The other
    characters for which [str.isspace] holds take two or three bytes:
    U+0085 and U+00A0; U+1680, U+2000..U+200A, U+2028, U+2029, U+202F,
    U+205F and U+3000. *)
Definition isspace2 (c1 c2 : ascii) : bool :=
  let n1 := nat_of_ascii c1 in
  let n2 := nat_of_ascii c2 in
  ((n1 =? 194) && ((n2 =? 133) || (n2 =? 160)))%nat.

Definition isspace3 (c1 c2 c3 : ascii) : bool :=
  let n1 := nat_of_ascii c1 in
  let n2 := nat_of_ascii c2 in
  let n3 := nat_of_ascii c3 in
  (((n1 =? 225) && (n2 =? 154) && (n3 =? 128))
   || ((n1 =? 226) && (n2 =? 128)
       && (((128 <=? n3) && (n3 <=? 138)) || (n3 =? 168) || (n3 =? 169) || (n3 =? 175)))
   || ((n1 =? 226) && (n2 =? 129) && (n3 =? 159))
   || ((n1 =? 227) && (n2 =? 128) && (n3 =? 128)))%nat.

(** The string is the encoding of one white-space character. *)
Definition is_space (s : string) : bool :=
  match s with
  | String c1 "" => isspace c1
  | String c1 (String c2 "") => isspace2 c1 c2
  | String c1 (String c2 (String c3 "")) => isspace3 c1 c2 c3
  | _ => false
  end.

(** [s.lstrip()] *)
Fixpoint lstrip (s : string) : string :=
  match s with
  | "" => ""
  | String c1 r1 =>
      if isspace c1 then lstrip r1
      else
        match r1 with
        | "" => s
        | String c2 r2 =>
            if isspace2 c1 c2 then lstrip r2
            else
              match r2 with
              | "" => s
              | String c3 r3 => if isspace3 c1 c2 c3 then lstrip r3 else s
              end
        end
  end.

(** [s.rstrip()]: once the white space that ends the rest is gone, what is
    left ends with a white-space character only if it is one. *)
Fixpoint rstrip (s : string) : string :=
  match s with
  | "" => ""
  | String c r =>
      let r' := rstrip r in
      if is_space (String c r') then "" else String c r'
  end.

(** [s.strip()] *)
Definition strip (s : string) : string := lstrip (rstrip s).

(** [s.rfind(c)] for a one-character [c]; [None] stands for [-1]. *)
Fixpoint rfind (c : ascii) (s : string) : option nat :=
  match s with
  | "" => None
  | String a r =>
      match rfind c r with
      | Some i => Some (S i)
      | None => if Ascii.eqb a c then Some 0 else None
      end
  end.

(** [s[:i]] for [0 <= i] *)
Fixpoint take (i : nat) (s : string) : string :=
  match i, s with
  | S j, String a r => String a (take j r)
  | _, _ => ""
  end.

(** [s[i:]] for [0 <= i] *)
Fixpoint drop (i : nat) (s : string) : string :=
  match i, s with
  | S j, String _ r => drop j r
  | _, _ => s
  end.

(** [s.startswith(p)] *)
Fixpoint startswith (p s : string) : bool :=
  match p, s with
  | "", _ => true
  | String a p', String b s' => Ascii.eqb a b && startswith p' s'
  | String _ _, "" => false
  end.

(** [p in s] *)
Fixpoint contains (p s : string) : bool :=
  startswith p s ||
  match s with
  | "" => false
  | String _ r => contains p r
  end.

(** [s.find(p)]; [None] stands for [-1]. *)
Fixpoint find (p s : string) : option nat :=
  if startswith p s then Some 0
  else match s with
       | "" => None
       | String _ r => option_map S (find p r)
       end.

(** [s.replace(old, new)] for a non-empty [old]: the occurrences are
    found from the left and do not overlap; [skip] counts the characters
    of a found occurrence that are still to be passed over. *)
Fixpoint replace_go (old new : string) (skip : nat) (s : string) : string :=
  match s with
  | "" => ""
  | String c r =>
      match skip with
      | S k => replace_go old new k r
      | O =>
          if startswith old s
          then new ++ replace_go old new (String.length old - 1) r
          else String c (replace_go old new 0 r)
      end
  end.

Definition replace (old new s : string) : string := replace_go old new 0 s.

(** The lead bytes of well-formed UTF-8, with the number of bytes that
    follow and the range of the first of them (the others lie in 80..BF):
    no overlong form, no surrogate, nothing above U+10FFFF, which is what the
    [utf-8] codec accepts. *)
Definition utf8_lead (n : nat) : option (nat * nat * nat) :=
  (if n <=? 127 then Some (0, 128, 191)
   else if (194 <=? n) && (n <=? 223) then Some (1, 128, 191)
   else if n =? 224 then Some (2, 160, 191)
   else if ((225 <=? n) && (n <=? 236)) || (n =? 238) || (n =? 239) then Some (2, 128, 191)
   else if n =? 237 then Some (2, 128, 159)
   else if n =? 240 then Some (3, 144, 191)
   else if (241 <=? n) && (n <=? 243) then Some (3, 128, 191)
   else if n =? 244 then Some (3, 128, 143)
   else None)%nat.

(** [k] more bytes of the current character are due, the next of them
    between [lo] and [hi]. *)
Fixpoint utf8_from (k lo hi : nat) (s : string) : bool :=
  match s with
  | "" => (k =? 0)%nat
  | String c r =>
      let n := nat_of_ascii c in
      match k with
      | O =>
          match utf8_lead n with
          | Some (k', lo', hi') => utf8_from k' lo' hi' r
          | None => false
          end
      | S k' => (lo <=? n)%nat && (n <=? hi)%nat && utf8_from k' 128 191 r
      end
  end.

(** The bytes decode: [bytes.decode("utf-8")] does not raise. *)
Definition utf8_valid (s : string) : bool := utf8_from 0 128 191 s.

(** What reading in text mode makes of line ends: CR LF and a lone CR
    become LF. *)
Fixpoint universal_newlines (s : string) : string :=
  match s with
  | "" => ""
  | String c r =>
      if Ascii.eqb c "013" then
        String "010"
          match r with
          | "" => ""
          | String c2 r2 =>
              if Ascii.eqb c2 "010" then universal_newlines r2 else universal_newlines r
          end
      else String c (universal_newlines r)
  end.

(** [open(p, "r", encoding="utf-8").read()] and [p.read_text("utf-8")] on a
    file that holds [bytes]; [None] stands for [UnicodeDecodeError]. *)
Definition read_text (bytes : string) : option string :=
  if utf8_valid bytes then Some (universal_newlines bytes) else None.

End PyStr.

(** ** Paths *)

Record path := Path { parent : string; name : string }.

Global Instance path_eq_dec : EqDecision path.
Proof. solve_decision. Defined.

Global Instance path_countable : Countable path :=
  inj_countable' (fun p => (parent p, name p)) (fun dn => Path (fst dn) (snd dn))
    (fun p => match p with Path _ _ => eq_refl end).

(** [Path(dir) / name] *)
Definition join (dir : string) (n : string) : path := Path dir n.
Infix "//" := join (at level 40, left associativity).

(** [Path.stem]: the final component without its last suffix. *)
Definition stem (p : path) : string :=
  let n := name p in
  match PyStr.rfind "." n with
  | Some i =>
      if (0 <? i)%nat && (i <? String.length n - 1)%nat then PyStr.take i n else n
  | None => n
  end.

(** ** Python [range] and slices *)

Fixpoint range_from (fuel : nat) (start stop step : Z) : list Z :=
  match fuel with
  | O => []
  | S f =>
      if (start <? stop)%Z
      then start :: range_from f (start + step)%Z stop step
      else []
  end.

(** [range(start, stop, step)] for a positive [step]: at most
    [stop - start] values lie below [stop]. *)
Definition py_range (start stop step : Z) : list Z :=
  range_from (Z.to_nat (stop - start)) start stop step.

(** [enumerate(l, start=n)] *)
Fixpoint enumerate (n : nat) {A : Type} (l : list A) : list (nat * A) :=
  match l with
  | [] => []
  | x :: r => (n, x) :: enumerate (S n) r
  end.

(** An [AudioSegment] is known by its length in milliseconds; a slice
    [audio[lo:hi]] with [0 <= lo] is the interval clamped to the length, as
    pydub's [__getitem__] does. *)
Definition slice (len lo hi : Z) : Z * Z := (Z.min lo len, Z.min hi len).
Definition slice_len (sl : Z * Z) : Z := (snd sl - fst sl)%Z.

(** ** The world around the transcription pipeline *)

(** What the failure signal of an invocation carries. *)
Inductive failure :=
  | IOFailure                      (* OSError: a file that cannot be read or written *)
  | DecodeFailure                  (* UnicodeDecodeError: a file that is not UTF-8 *)
  | EngineFailure (stderr : string).

Inductive result (A : Type) :=
  | Ok (a : A)
  | Raise (e : failure).
Arguments Ok {A} a.
Arguments Raise {A} e.

(** [export] either writes the encoded slice, or raises; when it raises the
    destination may already have been created. *)
Inductive export_outcome :=
  | Exported
  | ExportFailed (created : bool).

(** One run of the transcription engine: its exit status, its error stream,
    and the text it wrote to its output file, if it wrote one. *)
Record engine_outcome := EngineOutcome {
  exit_ok : bool;
  stderr_of : string;
  wrote : option string
}.

Record oracle := Oracle {
  decode : path -> option Z;            (* [AudioSegment.from_file]: length in ms *)
  mp3 : Z * Z -> string;                (* the encoding of a slice *)
  export : path -> export_outcome;      (* [export(str(chunk_path), format="mp3")] *)
  whisper : path -> string -> string -> engine_outcome
}.

(** What an invocation does to the outside, in order. *)
Inductive event :=
  | EvUnlink (p : path)
  | EvDecode (p : path)
  | EvExport (p : path) (sl : Z * Z)
  | EvEngine (chunk : path) (model lang : string)
  | EvAppend (p : path) (text : string).

Record state := State {
  fs : gmap path string;
  log : list event
}.

(** Computations that read and write the state and may raise. *)
Definition M (A : Type) : Type := state -> result A * state.

Definition ret {A} (a : A) : M A := fun s => (Ok a, s).
Definition raise {A} (e : failure) : M A := fun s => (Raise e, s).
Definition bind {A B} (m : M A) (k : A -> M B) : M B :=
  fun s =>
    match m s with
    | (Ok a, s') => k a s'
    | (Raise e, s') => (Raise e, s')
    end.

Notation "x <- m ;; k" := (bind m (fun x => k))
  (at level 100, m at next level, right associativity).
Notation "m ;; k" := (bind m (fun _ => k))
  (at level 100, right associativity).

(** [try: body finally: handler], where the handler sees a value [v] that the
    body may have rebound before it returned or raised; the handler itself
    does not raise. *)
Definition try_finally {V A} (body : state -> result A * V * state)
    (handler : V -> state -> state) : M A :=
  fun s =>
    match body s with
    | (r, v, s') => (r, handler v s')
    end.

Fixpoint for_each {A} (body : A -> M unit) (l : list A) : M unit :=
  match l with
  | [] => ret tt
  | x :: r => body x ;; for_each body r
  end.

Definition emit (e : event) (s : state) : state :=
  State (fs s) (log s ++ [e]).

(** [p.unlink(missing_ok=True)] *)
Definition unlink (p : path) (s : state) : state :=
  emit (EvUnlink p) (State (delete p (fs s)) (log s)).

Definition write_file (p : path) (c : string) (s : state) : state :=
  State (<[p := c]> (fs s)) (log s).

(** ** split_and_transcribe.py *)

Definition CHUNKS_DIR : string := "chunks".
Definition OUTPUT_DIR : string := "output".
Definition SEGMENT_MS : Z := (10 * 60 * 1000)%Z.

(** [AudioSegment.from_file(str(file_path))] *)
Definition from_file (w : oracle) (p : path) : M Z :=
  fun s =>
    match decode w p with
    | Some len => (Ok len, emit (EvDecode p) s)
    | None => (Raise IOFailure, emit (EvDecode p) s)
    end.

(** [audio[lo:hi].export(str(chunk_path), format="mp3")] *)
Definition export_slice (w : oracle) (sl : Z * Z) (chunk_path : path) : M unit :=
  fun s =>
    let s' := emit (EvExport chunk_path sl) s in
    match export w chunk_path with
    | Exported => (Ok tt, write_file chunk_path (mp3 w sl) s')
    | ExportFailed true => (Raise IOFailure, write_file chunk_path "" s')
    | ExportFailed false => (Raise IOFailure, s')
    end.

(** The engine writes [<output_dir>/<stem of the audio file>.txt]. *)
Definition transcribe_chunk (w : oracle) (chunk_path : path) (model lang : string)
  : M path :=
  fun s =>
    let out := CHUNKS_DIR // (stem chunk_path ++ ".txt") in
    let o := whisper w chunk_path model lang in
    let s1 := emit (EvEngine chunk_path model lang) s in
    let s2 := match wrote o with
              | Some t => write_file out t s1
              | None => s1
              end in
    if exit_ok o
    then (Ok (CHUNKS_DIR // (stem chunk_path ++ ".txt")), s2)
    else (Raise (EngineFailure (stderr_of o)), s2).

(** [with full_txt.open("a", encoding="utf-8") as out_f,
         part_txt.open("r", encoding="utf-8") as in_f:
       out_f.write(in_f.read().strip() + "\n")]
    Opening for append creates the aggregate file; opening a missing segment
    transcript raises after that, and so does reading one that is not
    UTF-8.  What is written is the encoding of the text, line ends as they
    are (POSIX). *)
Definition append_part (full_txt part_txt : path) : M unit :=
  fun s =>
    let old := default "" (fs s !! full_txt) in
    let s1 := write_file full_txt old s in
    match fs s1 !! part_txt with
    | Some bytes =>
        match PyStr.read_text bytes with
        | Some text =>
            let line := PyStr.strip text ++ String "010" "" in
            (Ok tt, emit (EvAppend full_txt line) (write_file full_txt (old ++ line) s1))
        | None => (Raise DecodeFailure, s1)
        end
    | None => (Raise IOFailure, s1)
    end.

Definition chunk_name (base : string) (i : nat) : string :=
  base ++ "_part" ++ pretty i ++ ".mp3".
Definition part_name (base : string) (i : nat) : string :=
  base ++ "_part" ++ pretty i ++ ".txt".

(** The body of the [for] loop, for segment [i] starting at [start]. *)
Definition process_segment (w : oracle) (seg_ms : Z) (base : string) (full_txt : path)
    (model language : string) (len : Z) (i_start : nat * Z) : M unit :=
  let i := fst i_start in
  let start := snd i_start in
  let chunk_path := CHUNKS_DIR // chunk_name base i in
  let part_txt := CHUNKS_DIR // part_name base i in
  export_slice w (slice len start (start + seg_ms)) chunk_path ;;
  try_finally
    (fun s =>
       match transcribe_chunk w chunk_path model language s with
       | (Ok part_txt', s1) =>
           match append_part full_txt part_txt' s1 with
           | (r, s2) => (r, part_txt', s2)
           end
       | (Raise e, s1) => (Raise e, part_txt, s1)
       end)
    (fun part_txt s => unlink part_txt (unlink chunk_path s)).

(** [split_and_transcribe], with the window length as a parameter. *)
Definition split_and_transcribe_with (seg_ms : Z) (w : oracle)
    (file_path : path) (model language : string) : M path :=
  let base := stem file_path in
  let full_txt := OUTPUT_DIR // (base ++ "_full.txt") in
  (fun s => (Ok tt, unlink full_txt s)) ;;
  try_finally
    (fun s =>
       match (audio <- from_file w file_path ;;
              for_each (process_segment w seg_ms base full_txt model language audio)
                (enumerate 1 (py_range 0 audio seg_ms))) s with
       | (r, s') => (r, tt, s')
       end)
    (fun _ s => unlink file_path s) ;;
  ret full_txt.

Definition split_and_transcribe : oracle -> path -> string -> string -> M path :=
  split_and_transcribe_with SEGMENT_MS.

(** The segments of a source of length [len]: ordinal, start and length. *)
Definition segments (seg_ms len : Z) : list (nat * (Z * Z)) :=
  map (fun i_start => (fst i_start, slice len (snd i_start) (snd i_start + seg_ms)))
    (enumerate 1 (py_range 0 len seg_ms)).

(** ** The markup parser and serialiser

    [BeautifulSoup(text, "html.parser")] and [str(soup)] are library code.
    The model below keeps what the two functions of [portfolio_generator.py]
    depend on:
    - a start tag is [<], a letter, further name characters, and anything up
      to the next [>], kept verbatim as the attribute text; names are
      lower-cased; an end tag is [</], a name, and anything up to [>];
      a [<] that starts neither is text;
    - [&lt;], [&gt;] and [&amp;] are decoded in text and written back on
      output; text made only of ASCII white space is replaced by one newline
      (if it has one) or one blank, as [BeautifulSoup.endData] does;
    - a text node ends at every tag, also at an end tag that closes nothing;
    - an end tag closes the nearest open element of its name and everything
      opened inside it, and is dropped when no such element is open; the end
      of the input closes what is still open.
    Comments, declarations, void elements, the white space kept inside
    [pre] and [textarea], and other character references are not told apart
    from text and ordinary elements: the model reads as bs4 does the markup
    that [supported] describes below, and the statements about parsing are
    made for that markup. *)

#[local] Unset Elimination Schemes.
Inductive node :=
  | Text (s : string)
  | Elem (tag attrs : string) (children : list node).
#[local] Set Elimination Schemes.

Inductive token :=
  | TText (s : string)
  | TOpen (tag attrs : string)
  | TClose (tag : string).

Module Html.

Definition is_alpha (c : ascii) : bool :=
  let n := nat_of_ascii c in
  (((65 <=? n) && (n <=? 90)) || ((97 <=? n) && (n <=? 122)))%nat.

Definition lower (c : ascii) : ascii :=
  let n := nat_of_ascii c in
  if ((65 <=? n) && (n <=? 90))%nat then ascii_of_nat (n + 32) else c.

(** The characters html.parser lets a tag name continue with: all but
    TAB, LF, FF, CR, the blank, [/], [>] and NUL. *)
Definition is_name_char (c : ascii) : bool :=
  let n := nat_of_ascii c in
  negb ((n =? 9) || (n =? 10) || (n =? 12) || (n =? 13) || (n =? 32)
        || (n =? 47) || (n =? 62) || (n =? 0))%nat.

(** bs4's [ASCII_SPACES] *)
Definition is_ascii_space (c : ascii) : bool :=
  let n := nat_of_ascii c in
  ((n =? 32) || (n =? 10) || (n =? 9) || (n =? 12) || (n =? 13))%nat.

Fixpoint read_name (s : string) : string :=
  match s with
  | "" => ""
  | String c r => if is_name_char c then String (lower c) (read_name r) else ""
  end.

(** The text before the first [>], if there is one. *)
Fixpoint until_gt (s : string) : option string :=
  match s with
  | "" => None
  | String c r =>
      if Ascii.eqb c ">" then Some "" else option_map (String c) (until_gt r)
  end.

(** The tag that starts right after a [<], with the number of characters
    it takes after that [<]. *)
Definition read_tag (r : string) : option (token * nat) :=
  match r with
  | "" => None
  | String c r1 =>
      if Ascii.eqb c "/" then
        match r1 with
        | "" => None
        | String d _ =>
            if is_alpha d then
              let n := read_name r1 in
              match until_gt (PyStr.drop (String.length n) r1) with
              | Some junk =>
                  Some (TClose n, 1 + String.length n + String.length junk + 1)
              | None => None
              end
            else None
        end
      else if is_alpha c then
        let n := read_name r in
        match until_gt (PyStr.drop (String.length n) r) with
        | Some a => Some (TOpen n a, String.length n + String.length a + 1)
        | None => None
        end
      else None
  end.

(** Character references in text; [skip] as in [PyStr.replace_go]. *)
Fixpoint unescape_go (skip : nat) (s : string) : string :=
  match s with
  | "" => ""
  | String c r =>
      match skip with
      | S k => unescape_go k r
      | O =>
          if Ascii.eqb c "&" then
            if PyStr.startswith "lt;" r then String "<" (unescape_go 3 r)
            else if PyStr.startswith "gt;" r then String ">" (unescape_go 3 r)
            else if PyStr.startswith "amp;" r then String "&" (unescape_go 4 r)
            else String c (unescape_go 0 r)
          else String c (unescape_go 0 r)
      end
  end.
Definition unescape : string -> string := unescape_go 0.

Fixpoint escape (s : string) : string :=
  match s with
  | "" => ""
  | String c r =>
      if Ascii.eqb c "&" then "&amp;" ++ escape r
      else if Ascii.eqb c "<" then "&lt;" ++ escape r
      else if Ascii.eqb c ">" then "&gt;" ++ escape r
      else String c (escape r)
  end.

Fixpoint all_chars (p : ascii -> bool) (s : string) : bool :=
  match s with
  | "" => true
  | String c r => p c && all_chars p r
  end.

Definition newline : string := String "010" "".

(** What [endData] makes of the collected text. *)
Definition collapse (s : string) : string :=
  if all_chars is_ascii_space s
  then (if PyStr.contains newline s then newline else " ")
  else s.

(** The text node for the raw text collected so far, if any. *)
Definition flush (raw : string) : list token :=
  match raw with
  | "" => []
  | _ => [TText (collapse (unescape raw))]
  end.

Fixpoint lex (skip : nat) (raw : string) (s : string) : list token :=
  match s with
  | "" => flush raw
  | String c r =>
      match skip with
      | S k => lex k raw r
      | O =>
          if Ascii.eqb c "<" then
            match read_tag r with
            | Some (tok, n) => flush raw ++ tok :: lex n "" r
            | None => lex 0 (raw ++ String c "") r
            end
          else lex 0 (raw ++ String c "") r
      end
  end.

(** An open element: its tag, its attribute text, and the nodes that
    precede it in its parent, last first. *)
Definition frame : Type := string * string * list node.

Definition close_frame (f : frame) (cur : list node) : list node :=
  match f with
  | (tag, attrs, before) => Elem tag attrs (rev cur) :: before
  end.

Fixpoint close_all (stack : list frame) (cur : list node) : list node :=
  match stack with
  | [] => rev cur
  | f :: st => close_all st (close_frame f cur)
  end.

(** [_popToTag]: close frames up to and including the nearest [tag]. *)
Fixpoint pop_to (tag : string) (stack : list frame) (cur : list node)
  : list frame * list node :=
  match stack with
  | [] => ([], cur)
  | f :: st =>
      if String.eqb (fst (fst f)) tag
      then (st, close_frame f cur)
      else pop_to tag st (close_frame f cur)
  end.

Definition is_open (tag : string) (stack : list frame) : bool :=
  existsb (fun f => String.eqb (fst (fst f)) tag) stack.

(** [cur] holds the children of the innermost open element, last first. *)
Fixpoint build (toks : list token) (stack : list frame) (cur : list node)
  : list node :=
  match toks with
  | [] => close_all stack cur
  | TText s :: r => build r stack (Text s :: cur)
  | TOpen tag attrs :: r => build r ((tag, attrs, cur) :: stack) []
  | TClose tag :: r =>
      if is_open tag stack
      then match pop_to tag stack cur with
           | (stack', cur') => build r stack' cur'
           end
      else build r stack cur
  end.

(** [BeautifulSoup(s, "html.parser")]: the children of the soup object. *)
Definition parse (s : string) : list node := build (lex 0 "" s) [] [].

(** [str(soup)] *)
Fixpoint render_node (n : node) : string :=
  match n with
  | Text s => escape s
  | Elem tag attrs cs =>
      "<" ++ tag ++ attrs ++ ">"
      ++ fold_right (fun c acc => render_node c ++ acc) "" cs
      ++ "</" ++ tag ++ ">"
  end.

Definition render (ns : list node) : string :=
  fold_right (fun c acc => render_node c ++ acc) "" ns.

(** [tag.text]: all the text below a node, in document order. *)
Fixpoint get_text (n : node) : string :=
  match n with
  | Text s => s
  | Elem _ _ cs => fold_right (fun c acc => get_text c ++ acc) "" cs
  end.

(** [tag.find(name)]: the first descendant element called [name], in
    document order. *)
Fixpoint find_in (name : string) (n : node) : option node :=
  match n with
  | Text _ => None
  | Elem tag _ cs =>
      if String.eqb tag name then Some n
      else
        (fix go (l : list node) : option node :=
           match l with
           | [] => None
           | c :: r =>
               match find_in name c with
               | Some h => Some h
               | None => go r
               end
           end) cs
  end.

Fixpoint find_tag (name : string) (l : list node) : option node :=
  match l with
  | [] => None
  | c :: r =>
      match find_in name c with
      | Some h => Some h
      | None => find_tag name r
      end
  end.

End Html.

(** ** portfolio_generator.py *)

Definition fence_html : string := "```html".
Definition fence : string := "```".

(** [tag.replace("```html", "").replace("```", "")] *)
Definition strip_fences (t : string) : string :=
  PyStr.replace fence "" (PyStr.replace fence_html "" t).

(** The loop of [sanitize_html]: every text node that contains a fence is
    replaced by its text without the fence markers. *)
Fixpoint sanitize_node (n : node) : node :=
  match n with
  | Text t => if PyStr.contains fence t then Text (strip_fences t) else n
  | Elem tag attrs cs => Elem tag attrs (map sanitize_node cs)
  end.

Definition sanitize_html (raw_html : string) : string :=
  Html.render (map sanitize_node (Html.parse raw_html)).

(** The loop of [deduplicate_sections], as one walk in document order that
    carries [seen].  [soup.find_all("section")] lists the sections of the
    whole tree, outer before inner; the title of a section is read before
    anything inside it is visited, and nothing inside a decomposed section
    is visited: after [decompose] its inner sections have no contents, so
    [find("h2")] finds nothing in them. *)
Fixpoint dedup_node (seen : gset string) (n : node) : option node * gset string :=
  match n with
  | Text _ => (Some n, seen)
  | Elem tag attrs cs =>
      let walk :=
        fix walk (seen : gset string) (l : list node) : list node * gset string :=
          match l with
          | [] => ([], seen)
          | c :: r =>
              match dedup_node seen c with
              | (c', seen1) =>
                  match walk seen1 r with
                  | (r', seen2) =>
                      (match c' with Some c'' => c'' :: r' | None => r' end, seen2)
                  end
              end
          end in
      let keep seen :=
        match walk seen cs with
        | (cs', seen') => (Some (Elem tag attrs cs'), seen')
        end in
      if String.eqb tag "section" then
        match Html.find_tag "h2" cs with
        | Some h2 =>
            let title := PyStr.strip (Html.get_text h2) in
            if decide (title ∈ seen) then (None, seen)
            else keep ({[ title ]} ∪ seen)
        | None => keep seen
        end
      else keep seen
  end.

Fixpoint dedup_nodes (seen : gset string) (l : list node) : list node * gset string :=
  match l with
  | [] => ([], seen)
  | c :: r =>
      match dedup_node seen c with
      | (c', seen1) =>
          match dedup_nodes seen1 r with
          | (r', seen2) =>
              (match c' with Some c'' => c'' :: r' | None => r' end, seen2)
          end
      end
  end.

Definition deduplicate_sections (html : string) : string :=
  Html.render (fst (dedup_nodes ∅ (Html.parse html))).

Definition PROMPT_TEMPLATE : string := "prompt_template.txt".
Definition LAYOUT_TEMPLATE : string := "layout.html".

(** What [generate_portfolio] can raise, by the stage that raises it. *)
Inductive gen_error :=
  | EmptyPresentation            (* ValueError: no presentation text *)
  | TemplateMissing (file : string)  (* IOError from [load_text] *)
  | DownloadFailed               (* [download_model] *)
  | ModelLoadFailed              (* [Llama(...)] *)
  | GenerationFailed             (* [llm(prompt, ...)] *)
  | ClarificationRequested.      (* ValueError: questions instead of markup *)

(** The collaborators of [generate_portfolio]: the files on disk, the model
    hub, the inference engine and the HTML-to-PDF renderer.  [None] and
    [false] stand for a raised exception. *)
Record gen_env := GenEnv {
  files : gmap string string;
  download_model : option string;
  llama_load : string -> bool;
  llm : string -> option string;
  write_pdf : string -> option string
}.

(** [load_text(path, desc)] *)
Definition load_text (env : gen_env) (file : string) : gen_error + string :=
  match files env !! file with
  | Some text => inr text
  | None => inl (TemplateMissing file)
  end.

(** The prompt: the template from the line after the first ["Шаг 2"] on,
    with the presentation in the place of [{self_presentation}]. *)
Definition make_prompt (prompt_tpl presentation : string) : string :=
  let tpl :=
    match PyStr.find "Шаг 2" prompt_tpl with
    | Some step2_idx =>
        let t := PyStr.drop step2_idx prompt_tpl in
        match PyStr.find Html.newline t with
        | Some newline_idx => PyStr.drop (newline_idx + 1) t
        | None => t
        end
    | None => prompt_tpl
    end in
  PyStr.replace "{self_presentation}" presentation tpl.

(** The answer of the model, cut down to its markup. *)
Definition extract_fragment (generated : string) : gen_error + string :=
  if PyStr.startswith "{" (PyStr.lstrip generated) then
    match PyStr.find "<section" generated with
    | None => inl ClarificationRequested
    | Some i => inr (PyStr.drop i generated)
    end
  else inr generated.

Definition generate_portfolio (env : gen_env) (presentation : string)
  : gen_error + string * string :=
  if String.eqb (PyStr.strip presentation) "" then inl EmptyPresentation else
  match load_text env PROMPT_TEMPLATE with
  | inl e => inl e
  | inr prompt_tpl =>
  match load_text env LAYOUT_TEMPLATE with
  | inl e => inl e
  | inr layout_tpl =>
  let prompt := make_prompt prompt_tpl presentation in
  match download_model env with
  | None => inl DownloadFailed
  | Some model_path =>
  if negb (llama_load env model_path) then inl ModelLoadFailed else
  match llm env prompt with
  | None => inl GenerationFailed
  | Some text =>
  match extract_fragment (PyStr.strip text) with
  | inl e => inl e
  | inr generated =>
  let clean_html := sanitize_html generated in
  let deduped_html := deduplicate_sections clean_html in
  let full_html := PyStr.replace "{{content}}" deduped_html layout_tpl in
  let pdf_bytes :=
    match write_pdf env full_html with
    | Some bytes => bytes
    | None => ""
    end in
  inr (full_html, pdf_bytes)
  end end end end end.

(** ** app.py *)

Definition UPLOADS_DIR : string := "uploads".

(** A file name that [Path("uploads") / name] appends as it is: not empty,
    not [.] or [..], without [/] and without NUL. *)
Definition plain_name (f : string) : bool :=
  negb (String.eqb f "") && negb (String.eqb f ".") && negb (String.eqb f "..")
  && negb (PyStr.contains "/" f) && negb (PyStr.contains (String "000" "") f).

(** [api_transcribe]: the upload is saved under its file name, handed to
    [split_and_transcribe] with the model ["small"] and the language
    ["Russian"], and the text of the file at the returned path is the
    answer; [read_text] raises when there is no such file or when it is not
    UTF-8.  [filename] is a plain file name. *)
Definition api_transcribe (w : oracle) (filename content : string) : M string :=
  fun s =>
    let input_path := UPLOADS_DIR // filename in
    let s1 := write_file input_path content s in
    match split_and_transcribe w input_path "small" "Russian" s1 with
    | (Ok transcript_path, s2) =>
        match fs s2 !! transcript_path with
        | Some bytes =>
            match PyStr.read_text bytes with
            | Some text => (Ok text, s2)
            | None => (Raise DecodeFailure, s2)
            end
        | None => (Raise IOFailure, s2)
        end
    | (Raise e, s2) => (Raise e, s2)
    end.

(** What an endpoint gives back: its answer, or an HTTP error with its
    status and the failure it reports. *)
Inductive response (A : Type) :=
  | Answer (a : A)
  | HttpError (status : nat) (detail : gen_error).
Arguments Answer {A} a.
Arguments HttpError {A} status detail.

(** The two files of [api_generate], below the directory of the
    application. *)
Definition PORTFOLIO_HTML : string := "portfolio.html".
Definition PORTFOLIO_PDF : string := "static/portfolio.pdf".

(** [api_generate]: a failure of [generate_portfolio] becomes an HTTP error
    500 that carries it; otherwise the page and the document are written to
    their files and the answer is the page with the address of the document,
    which [url_for] makes from the name of the document. *)
Definition api_generate (env : gen_env) (url_for : string -> string) (text : string)
    (disk : gmap string string)
  : response (string * string) * gmap string string :=
  match generate_portfolio env text with
  | inl e => (HttpError 500 e, disk)
  | inr (html_content, pdf_bytes) =>
      let disk1 := <[PORTFOLIO_HTML := html_content]> disk in
      let disk2 := <[PORTFOLIO_PDF := pdf_bytes]> disk1 in
      (Answer (html_content, url_for "portfolio.pdf"), disk2)
  end.

(** ** Vocabulary of the statements *)

(** *** Transcription *)

(** What the [finally] of the loop body does for segment [i]. *)
Definition cleanup (base : string) (i : nat) (s : state) : state :=
  unlink (CHUNKS_DIR // part_name base i) (unlink (CHUNKS_DIR // chunk_name base i) s).

(** The state in which the engine returns for segment [i], after a
    successful export. *)
Definition after_engine (w : oracle) (seg_ms : Z) (base model language : string)
    (len : Z) (i : nat) (start : Z) (s : state) : state :=
  let chunk_path := CHUNKS_DIR // chunk_name base i in
  let sl := slice len start (start + seg_ms) in
  let s1 := emit (EvEngine chunk_path model language)
              (write_file chunk_path (mp3 w sl) (emit (EvExport chunk_path sl) s)) in
  match wrote (whisper w chunk_path model language) with
  | Some t => write_file (CHUNKS_DIR // part_name base i) t s1
  | None => s1
  end.

(** Neither file of segment [i] exists. *)
Definition gone (base : string) (i : nat) (s : state) : Prop :=
  fs s !! (CHUNKS_DIR // chunk_name base i) = None
  /\ fs s !! (CHUNKS_DIR // part_name base i) = None.

(** The line a segment transcript adds to the aggregate transcript. *)
Definition line_of (text : string) : string := PyStr.strip text ++ Html.newline.

(** The concatenation of the lines of the segment transcripts, in order. *)
Definition transcript (texts : list string) : string :=
  fold_right (fun t acc => line_of t ++ acc) "" texts.

(** A file that is opened for append and written to, line after line;
    [None] is a file that does not exist. *)
Definition append_lines (c : option string) (lines : list string) : option string :=
  fold_left (fun c l => Some (default "" c ++ l)) lines c.

(** The texts appended to [p], as the log has them. *)
Definition appended (p : path) (l : list event) : list string :=
  omap (fun e => match e with
                 | EvAppend q text => if decide (q = p) then Some text else None
                 | _ => None
                 end) l.

(** The audio files handed to the engine, as the log has them. *)
Definition engine_calls (l : list event) : list path :=
  omap (fun e => match e with EvEngine chunk _ _ => Some chunk | _ => None end) l.

(** The slices exported and their destinations, as the log has them. *)
Definition exported_slices (l : list event) : list (path * (Z * Z)) :=
  omap (fun e => match e with EvExport p sl => Some (p, sl) | _ => None end) l.

(** The runs of the engine with their arguments, as the log has them. *)
Definition engine_args (l : list event) : list (path * string * string) :=
  omap (fun e => match e with
                 | EvEngine chunk model lang => Some (chunk, model, lang)
                 | _ => None
                 end) l.

(** The segment files exported, as the log has them. *)
Definition exports (l : list event) : list path :=
  omap (fun e => match e with EvExport p _ => Some p | _ => None end) l.

(** The text that an invocation reads for segment [i]: the segment
    transcript is what the engine wrote, or else what was at its path before
    the invocation, and it is read as UTF-8 text. *)
Definition segment_text (w : oracle) (model language : string)
    (fs0 : gmap path string) (base : string) (i : nat) : option string :=
  match wrote (whisper w (CHUNKS_DIR // chunk_name base i) model language) with
  | Some bytes => PyStr.read_text bytes
  | None =>
      match fs0 !! (CHUNKS_DIR // part_name base i) with
      | Some bytes => PyStr.read_text bytes
      | None => None
      end
  end.

(** *** Markup *)

(** The text nodes of a tree, in document order. *)
Fixpoint texts_node (n : node) : list string :=
  match n with
  | Text s => [s]
  | Elem _ _ cs => flat_map texts_node cs
  end.
Definition texts (l : list node) : list string := flat_map texts_node l.

(** A tree without the content of its text nodes: its elements, their
    attribute text and their nesting, and where the text nodes are. *)
#[local] Unset Elimination Schemes.
Inductive shape :=
  | SText
  | SElem (tag attrs : string) (children : list shape).
#[local] Set Elimination Schemes.

Fixpoint shape_of (n : node) : shape :=
  match n with
  | Text _ => SText
  | Elem tag attrs cs => SElem tag attrs (map shape_of cs)
  end.

(** [soup.find_all("section")]: the sections in document order, outer
    before inner. *)
Fixpoint sections_node (n : node) : list node :=
  match n with
  | Text _ => []
  | Elem tag _ cs =>
      (if String.eqb tag "section" then [n] else []) ++ flat_map sections_node cs
  end.
Definition sections (l : list node) : list node := flat_map sections_node l.

(** The dedup key of a section: the trimmed text of its first heading. *)
Definition title_of (n : node) : option string :=
  match n with
  | Text _ => None
  | Elem _ _ cs =>
      option_map (fun h2 => PyStr.strip (Html.get_text h2)) (Html.find_tag "h2" cs)
  end.

(** The deduplication as the specification words it, on the list of the
    sections: with the set of the keys seen so far, the first section of a
    key is kept, a later one is dropped, and a section without a heading is
    kept. *)
Fixpoint keep_first (seen : gset string) (l : list node) : list node :=
  match l with
  | [] => []
  | n :: r =>
      match title_of n with
      | Some key =>
          if decide (key ∈ seen) then keep_first seen r
          else n :: keep_first ({[ key ]} ∪ seen) r
      | None => n :: keep_first seen r
      end
  end.

(** The keys seen once a section has been met, and once a list of
    sections has been. *)
Definition see (seen : gset string) (n : node) : gset string :=
  match title_of n with
  | Some key => if decide (key ∈ seen) then seen else {[ key ]} ∪ seen
  | None => seen
  end.
Definition seen_after (seen : gset string) (l : list node) : gset string :=
  fold_left see l seen.

(** No section lies inside another section. *)
Fixpoint flat_node (n : node) : bool :=
  match n with
  | Text _ => true
  | Elem tag _ cs =>
      forallb flat_node cs
      && (if String.eqb tag "section"
          then match flat_map sections_node cs with [] => true | _ => false end
          else true)
  end.
Definition flat (l : list node) : bool := forallb flat_node l.

(** A forest without its sections. *)
Fixpoint prune_node (n : node) : list node :=
  match n with
  | Text _ => [n]
  | Elem tag attrs cs =>
      if String.eqb tag "section" then []
      else [Elem tag attrs (flat_map prune_node cs)]
  end.
Definition prune (l : list node) : list node := flat_map prune_node l.

(** A section without the sections that lie inside it. *)
Definition own (n : node) : node :=
  match n with
  | Text _ => n
  | Elem tag attrs cs => Elem tag attrs (prune cs)
  end.

(** [keep_first] drops the section: its key has been seen. *)
Definition dropped (seen : gset string) (n : node) : bool :=
  match title_of n with
  | Some key => bool_decide (key ∈ seen)
  | None => false
  end.

(** Every section that lies inside a section that [keep_first] drops is
    dropped by [keep_first] as well; [seen] holds the keys of the sections
    that precede the node in document order. *)
Fixpoint covered_node (seen : gset string) (n : node) : bool :=
  match n with
  | Text _ => true
  | Elem tag _ cs =>
      let inner :=
        fix inner (seen : gset string) (l : list node) : bool :=
          match l with
          | [] => true
          | c :: r =>
              covered_node seen c && inner (seen_after seen (sections_node c)) r
          end in
      if String.eqb tag "section" then
        if dropped seen n
        then forallb (dropped seen) (flat_map sections_node cs)
        else inner (see seen n) cs
      else inner seen cs
  end.

Fixpoint covered (seen : gset string) (l : list node) : bool :=
  match l with
  | [] => true
  | c :: r => covered_node seen c && covered (seen_after seen (sections_node c)) r
  end.

(** *** The strings of a tree

    The strings of a bs4 tree are text, comments, CDATA sections,
    processing instructions, declarations and document types; all of them
    are [str], and the filter of [sanitize_html] matches them all.  The
    parser model above reads none but text, so the loop of [sanitize_html]
    is stated a second time, on trees with all the strings. *)
Inductive string_kind :=
  | KText | KComment | KCData | KProcessingInstruction | KDeclaration | KDoctype.

#[local] Unset Elimination Schemes.
Inductive soup :=
  | Str (k : string_kind) (s : string)
  | Tag (tag attrs : string) (children : list soup).
#[local] Set Elimination Schemes.

(** [tag.replace_with(tag.replace("```html", "").replace("```", ""))]: the
    replacement is a [str], which bs4 inserts as text. *)
Fixpoint sanitize_soup (n : soup) : soup :=
  match n with
  | Str _ s => if PyStr.contains fence s then Str KText (strip_fences s) else n
  | Tag tag attrs cs => Tag tag attrs (map sanitize_soup cs)
  end.

(** The trees of the parser model among them. *)
Fixpoint soup_of (n : node) : soup :=
  match n with
  | Text s => Str KText s
  | Elem tag attrs cs => Tag tag attrs (map soup_of cs)
  end.

(** The strings of a tree with their kinds, in document order, and the
    tree without them. *)
Fixpoint soup_strings (n : soup) : list (string_kind * string) :=
  match n with
  | Str k s => [(k, s)]
  | Tag _ _ cs => flat_map soup_strings cs
  end.

Fixpoint soup_shape (n : soup) : shape :=
  match n with
  | Str _ _ => SText
  | Tag tag attrs cs => SElem tag attrs (map soup_shape cs)
  end.

(** What the loop makes of one string. *)
Definition sanitize_string (ks : string_kind * string) : string_kind * string :=
  if PyStr.contains fence (snd ks) then (KText, strip_fences (snd ks)) else ks.

(** No backquote in the text. *)
Definition no_backquote (x : string) : bool :=
  Html.all_chars (fun c => negb (Ascii.eqb c "`")) x.

(** The two fence markers. *)
Inductive marker := Opening | Closing.

Definition marker_text (m : marker) : string :=
  match m with
  | Opening => fence_html
  | Closing => fence
  end.

(** A text in which every backquote belongs to a marker: markers, each
    followed by a piece of text without a backquote.  A closing marker whose
    piece starts with [html] would be an opening marker. *)
Fixpoint fenced (l : list (marker * string)) : string :=
  match l with
  | [] => ""
  | (m, x) :: r => marker_text m ++ x ++ fenced r
  end.

Definition piece_ok (mx : marker * string) : bool :=
  no_backquote (snd mx)
  && match fst mx with
     | Opening => true
     | Closing => negb (PyStr.startswith "html" (snd mx))
     end.

(** The pieces of text one after the other. *)
Definition pieces (l : list (marker * string)) : string :=
  fold_right (fun mx acc => snd mx ++ acc) "" l.

(** *** The markup that the parser model reads as bs4 does

    Text in which every [<] and [>] of a tag belongs to a start tag
    [<name key="value" ...>] or an end tag [</name>] written in lower case,
    the name being that of an ordinary element, in which every [&] starts
    [&lt;], [&gt;] or [&amp;], and which holds no NUL. *)
Definition is_lower_alnum (c : ascii) : bool :=
  let n := nat_of_ascii c in
  (((97 <=? n) && (n <=? 122)) || ((48 <=? n) && (n <=? 57)))%nat.

(** The names that bs4's html.parser builder does not treat as ordinary
    elements: void elements, elements in which white space is kept or whose
    content is not parsed, and elements whose strings have a class of their
    own. *)
Definition special_tags : list string :=
  ["area"; "base"; "br"; "col"; "embed"; "hr"; "img"; "input"; "keygen"; "link";
   "menuitem"; "meta"; "param"; "source"; "track"; "wbr"; "basefont"; "bgsound";
   "command"; "frame"; "image"; "isindex"; "nextid"; "spacer";
   "pre"; "textarea"; "script"; "style"; "title"; "plaintext"; "xmp"; "iframe";
   "noembed"; "noframes"; "noscript"; "listing"; "rt"; "rp"; "template"].

Definition plain_tag (n : string) : bool :=
  match n with
  | "" => false
  | String c _ => Html.is_alpha c
  end
  && Html.all_chars is_lower_alnum n
  && negb (existsb (String.eqb n) special_tags).

(** The characters of an attribute value that bs4 writes back as they
    are: the graphic ASCII characters but the double quote, [&], [<] and
    [>]. *)
Definition is_value_char (c : ascii) : bool :=
  let n := nat_of_ascii c in
  ((33 <=? n) && (n <=? 126)
   && negb ((n =? 34) || (n =? 38) || (n =? 60) || (n =? 62)))%nat.

Inductive attr_state :=
  | ABetween                   (* after a tag name or a closing quote *)
  | AKey (key : string)        (* inside a key, or in front of it *)
  | AOpen                      (* after [=] *)
  | AValue (blank : bool).     (* inside a value; the last character was a blank *)

(** The attribute text is a sequence of [ key="value"], with keys that
    differ, values made of value characters and single blanks between
    them. *)
Fixpoint attrs_from (st : attr_state) (keys : list string) (a : string) : bool :=
  match a with
  | "" => match st with ABetween => true | _ => false end
  | String c r =>
      match st with
      | ABetween => Ascii.eqb c " " && attrs_from (AKey "") keys r
      | AKey key =>
          if Ascii.eqb c "=" then
            match key with
            | "" => false
            | String k _ =>
                Html.is_alpha k && negb (existsb (String.eqb key) keys)
                && attrs_from AOpen (key :: keys) r
            end
          else (is_lower_alnum c || Ascii.eqb c "-")
               && attrs_from (AKey (key ++ String c "")) keys r
      | AOpen => Ascii.eqb c "034" && attrs_from (AValue true) keys r
      | AValue blank =>
          if Ascii.eqb c "034" then negb blank && attrs_from ABetween keys r
          else if Ascii.eqb c " " then negb blank && attrs_from (AValue true) keys r
          else is_value_char c && attrs_from (AValue false) keys r
      end
  end.

Definition plain_attrs (a : string) : bool := attrs_from ABetween [] a.

Fixpoint supported_from (skip : nat) (s : string) : bool :=
  match s with
  | "" => true
  | String c r =>
      match skip with
      | S k => supported_from k r
      | O =>
          if Ascii.eqb c "<" then
            match Html.read_tag r with
            | Some (TOpen n a, len) =>
                plain_tag n && PyStr.startswith n r && plain_attrs a
                && supported_from len r
            | Some (TClose n, len) =>
                plain_tag n && PyStr.startswith ("/" ++ n ++ ">") r
                && supported_from len r
            | _ => false
            end
          else if Ascii.eqb c "&" then
            (PyStr.startswith "lt;" r || PyStr.startswith "gt;" r
             || PyStr.startswith "amp;" r)
            && supported_from 0 r
          else negb (Ascii.eqb c "000") && supported_from 0 r
      end
  end.

Definition supported (s : string) : bool := supported_from 0 s.















(** A text without a fence marker. *)
Definition clean (x : string) : Prop := PyStr.contains fence x = false.



(** * Properties *)
(** ** Facts about strings *)

Section StringFacts.

#[local] Arguments String.append : simpl nomatch.

Lemma sapp_assoc (a b c : string) : (a ++ b) ++ c = a ++ (b ++ c).
Proof. induction a as [|x a IH]; simpl; [reflexivity | now rewrite IH]. Qed.

Lemma sapp_nil_r (a : string) : a ++ "" = a.
Proof. induction a as [|x a IH]; simpl; [reflexivity | now rewrite IH]. Qed.

Lemma sapp_length (a b : string) :
  String.length (a ++ b) = String.length a + String.length b.
Proof. induction a as [|x a IH]; simpl; [reflexivity | now rewrite IH]. Qed.

Lemma sapp_inv_head (a b c : string) : a ++ b = a ++ c -> b = c.
Proof. induction a as [|x a IH]; simpl; intros H; [assumption|]. injection H. auto. Qed.

Lemma sapp_inv_tail (a b c : string) : a ++ c = b ++ c -> a = b.
Proof.
  revert b. induction a as [|x a IH]; intros [|y b] H; simpl in H.
  - reflexivity.
  - exfalso. apply (f_equal String.length) in H. simpl in H.
    rewrite sapp_length in H. lia.
  - exfalso. apply (f_equal String.length) in H. simpl in H.
    rewrite sapp_length in H. lia.
  - injection H as -> H. f_equal. auto.
Qed.

Lemma take_app (a b : string) : PyStr.take (String.length a) (a ++ b) = a.
Proof. induction a as [|x a IH]; simpl; [now destruct b | now rewrite IH]. Qed.

Lemma drop_app (a b : string) : PyStr.drop (String.length a) (a ++ b) = b.
Proof. induction a as [|x a IH]; simpl; [now destruct b | assumption]. Qed.

Lemma take_drop (i : nat) (s : string) : PyStr.take i s ++ PyStr.drop i s = s.
Proof.
  revert s. induction i as [|i IH]; intros [|x s]; simpl; try reflexivity.
  now rewrite IH.
Qed.

(** Where [rfind] finds its character, and that none follows. *)
Lemma rfind_Some (c : ascii) (s : string) (i : nat) :
  PyStr.rfind c s = Some i ->
  exists r, s = PyStr.take i s ++ String c r /\ PyStr.rfind c r = None.
Proof.
  revert i. induction s as [|a s IH]; simpl; intros i H; [discriminate|].
  destruct (PyStr.rfind c s) as [j|] eqn:E.
  - injection H as <-. destruct (IH j eq_refl) as (r & Hs & Hr).
    exists r. simpl. split; [now rewrite <- Hs | assumption].
  - destruct (Ascii.eqb a c) eqn:Eac; [|discriminate].
    injection H as <-. apply Ascii.eqb_eq in Eac as ->.
    exists s. simpl. auto.
Qed.

Lemma rfind_app_dot (s ext : string) :
  PyStr.rfind "." ext = None ->
  PyStr.rfind "." (s ++ String "." ext) = Some (String.length s).
Proof.
  intros H. induction s as [|a s IH]; simpl.
  - now rewrite H.
  - now rewrite IH.
Qed.

End StringFacts.
(** ** Facts about paths *)

Section PathFacts.

#[local] Arguments String.append : simpl nomatch.

Lemma stem_ext (d s ext : string) :
  s <> "" -> ext <> "" -> PyStr.rfind "." ext = None ->
  stem (Path d (s ++ String "." ext)) = s.
Proof.
  intros Hs Hext Hdot. unfold stem. simpl name.
  rewrite (rfind_app_dot _ _ Hdot), sapp_length. simpl String.length.
  assert (0 < String.length s) by (destruct s; [congruence | simpl; lia]).
  assert (0 < String.length ext) by (destruct ext; [congruence | simpl; lia]).
  replace (0 <? String.length s)%nat with true by (symmetry; apply Nat.ltb_lt; lia).
  replace (String.length s <? String.length s + S (String.length ext) - 1)%nat
    with true by (symmetry; apply Nat.ltb_lt; lia).
  simpl. apply take_app.
Qed.

(** The stem is the whole name, or the name up to one of its dots. *)
Lemma stem_prefix (p : path) :
  stem p = name p \/ exists r, name p = stem p ++ String "." r.
Proof.
  unfold stem. destruct (PyStr.rfind "." (name p)) as [i|] eqn:E; [|now left].
  destruct ((0 <? i)%nat && (i <? String.length (name p) - 1)%nat); [|now left].
  right. destruct (rfind_Some _ _ _ E) as (r & Hr & _). now exists r.
Qed.

Lemma chunk_name_split (base : string) (i : nat) :
  chunk_name base i = (base ++ "_part" ++ pretty i) ++ String "." "mp3".
Proof. unfold chunk_name. now rewrite !sapp_assoc. Qed.

Lemma part_name_split (base : string) (i : nat) :
  part_name base i = (base ++ "_part" ++ pretty i) ++ ".txt".
Proof. unfold part_name. now rewrite !sapp_assoc. Qed.

(** The engine's output file is the [part_txt] of the loop. *)
Lemma stem_chunk (base : string) (i : nat) :
  CHUNKS_DIR // (stem (CHUNKS_DIR // chunk_name base i) ++ ".txt")
  = CHUNKS_DIR // part_name base i.
Proof.
  unfold join. rewrite chunk_name_split, stem_ext, part_name_split; try easy.
  intros H. apply (f_equal String.length) in H.
  rewrite sapp_length in H. simpl in H. lia.
Qed.

Lemma chunk_name_inj (base : string) (i j : nat) :
  chunk_name base i = chunk_name base j -> i = j.
Proof.
  unfold chunk_name. intros H.
  apply sapp_inv_head, sapp_inv_head, sapp_inv_tail in H.
  now apply (inj pretty).
Qed.

Lemma part_name_inj (base : string) (i j : nat) :
  part_name base i = part_name base j -> i = j.
Proof.
  unfold part_name. intros H.
  apply sapp_inv_head, sapp_inv_head, sapp_inv_tail in H.
  now apply (inj pretty).
Qed.

Lemma last_char_neq (a b : string) (x y : ascii) :
  x <> y -> a ++ String x "" <> b ++ String y "".
Proof.
  intros Hxy. revert b. induction a as [|c a IH]; intros [|d b] H; cbn in H.
  - congruence.
  - injection H as _ H. destruct b; discriminate.
  - injection H as _ H. destruct a; discriminate.
  - injection H as _ H. exact (IH _ H).
Qed.

Lemma chunk_name_ne_part_name (base : string) (i j : nat) :
  chunk_name base i <> part_name base j.
Proof.
  unfold chunk_name, part_name.
  replace (base ++ "_part" ++ pretty i ++ ".mp3")
    with ((base ++ "_part" ++ pretty i ++ ".mp") ++ String "3" "")
    by now rewrite !sapp_assoc.
  replace (base ++ "_part" ++ pretty j ++ ".txt")
    with ((base ++ "_part" ++ pretty j ++ ".tx") ++ String "t" "")
    by now rewrite !sapp_assoc.
  now apply last_char_neq.
Qed.

(** The aggregate transcript is never the source file itself. *)
Lemma full_txt_ne_source (p : path) :
  OUTPUT_DIR // (stem p ++ "_full.txt") <> p.
Proof.
  intros H. apply (f_equal name) in H. simpl in H.
  destruct (stem_prefix p) as [E | [r E]].
  - rewrite E in H. apply (f_equal String.length) in H.
    rewrite sapp_length in H. simpl in H. lia.
  - rewrite E in H. apply sapp_inv_head in H. discriminate.
Qed.

End PathFacts.
(** ** Segments *)

Section Segments.

Open Scope Z_scope.

Lemma range_from_lookup (fuel : nat) (start stop step : Z) (k : nat) (x : Z) :
  range_from fuel start stop step !! k = Some x ->
  x = start + Z.of_nat k * step /\ x < stop.
Proof.
  revert start k. induction fuel as [|f IH]; intros start k; simpl; [easy|].
  destruct (Z.ltb_spec start stop) as [Hlt|Hge]; [|easy].
  destruct k as [|k]; simpl.
  - intros [= <-]. lia.
  - intros H. apply IH in H. lia.
Qed.

Lemma range_from_length (fuel : nat) (start stop step : Z) :
  0 < step -> stop - start <= Z.of_nat fuel ->
  Z.of_nat (length (range_from fuel start stop step))
  = Z.max 0 ((stop - start + step - 1) / step).
Proof.
  intros Hstep. revert start. induction fuel as [|f IH]; intros start Hfuel; simpl.
  - assert ((stop - start + step - 1) / step <= 0); [|lia].
    apply Z.lt_succ_r, Z.div_lt_upper_bound; lia.
  - destruct (Z.ltb_spec start stop) as [Hlt|Hge].
    + cbn [length]. rewrite Nat2Z.inj_succ, IH by lia.
      replace (stop - start + step - 1) with ((stop - start - 1) + 1 * step) by lia.
      replace (stop - (start + step) + step - 1) with (stop - start - 1) by lia.
      rewrite Z.div_add by lia.
      assert (0 <= (stop - start - 1) / step) by (apply Z.div_pos; lia). lia.
    + assert ((stop - start + step - 1) / step <= 0); [|simpl; lia].
      apply Z.lt_succ_r, Z.div_lt_upper_bound; lia.
Qed.

Lemma py_range_length (stop step : Z) :
  0 < step -> 0 <= stop ->
  Z.of_nat (length (py_range 0 stop step)) = (stop + step - 1) / step.
Proof.
  intros Hstep Hstop. unfold py_range. rewrite range_from_length by lia.
  rewrite Z.sub_0_r. apply Z.max_r, Z.div_pos; lia.
Qed.

Lemma enumerate_lookup {A} (l : list A) (n k i : nat) (x : A) :
  enumerate n l !! k = Some (i, x) <-> i = (n + k)%nat /\ l !! k = Some x.
Proof.
  revert n k. induction l as [|y l IH]; intros n k; simpl.
  - split; [easy | intros [_ H]; destruct k; discriminate].
  - destruct k as [|k]; simpl.
    + split; [intros [= <- <-]; split; [lia | easy] | intros [-> [= ->]]; f_equal; f_equal; lia].
    + rewrite IH. split; intros [-> H]; split; (lia || easy).
Qed.

Lemma enumerate_length {A} (l : list A) (n : nat) :
  length (enumerate n l) = length l.
Proof. revert n. induction l as [|y l IH]; intros n; simpl; [easy | now rewrite IH]. Qed.

Lemma segments_length (W D : Z) :
  length (segments W D) = length (py_range 0 D W).
Proof. unfold segments. now rewrite length_map, enumerate_length. Qed.

(** Segment [k+1] starts at [k * W], inside the source, and ends with the
    window or with the source. *)
Lemma segments_lookup (W D : Z) (k i : nat) (lo hi : Z) :
  0 < W ->
  segments W D !! k = Some (i, (lo, hi)) ->
  i = S k /\ lo = Z.of_nat k * W /\ lo < D /\ hi = Z.min (lo + W) D.
Proof.
  intros HW. unfold segments. rewrite list_lookup_fmap.
  destruct (enumerate 1 (py_range 0 D W) !! k) as [[j start]|] eqn:E; [|easy].
  simpl. intros [= <- <- <-].
  apply enumerate_lookup in E as [-> E].
  apply range_from_lookup in E as [-> Hlt].
  repeat split; lia.
Qed.

End Segments.

(** ** One segment *)

Section OneSegment.

Context (w : oracle) (seg_ms : Z) (base model language : string) (len : Z).

Let full_txt : path := OUTPUT_DIR // (base ++ "_full.txt").
Let body := process_segment w seg_ms base full_txt model language len.

Lemma process_segment_export_failed (i : nat) (start : Z) (s : state) (created : bool) :
  export w (CHUNKS_DIR // chunk_name base i) = ExportFailed created ->
  body (i, start) s =
    let chunk_path := CHUNKS_DIR // chunk_name base i in
    let s' := emit (EvExport chunk_path (slice len start (start + seg_ms))) s in
    (Raise IOFailure, if created then write_file chunk_path "" s' else s').
Proof.
  intros H. unfold body, process_segment, bind, export_slice. cbn [fst snd].
  rewrite H. now destruct created.
Qed.

Lemma process_segment_engine_failed (i : nat) (start : Z) (s : state) :
  export w (CHUNKS_DIR // chunk_name base i) = Exported ->
  exit_ok (whisper w (CHUNKS_DIR // chunk_name base i) model language) = false ->
  body (i, start) s =
    (Raise (EngineFailure
              (stderr_of (whisper w (CHUNKS_DIR // chunk_name base i) model language))),
     cleanup base i (after_engine w seg_ms base model language len i start s)).
Proof.
  intros He Hx. unfold body, process_segment, bind, export_slice, try_finally,
    transcribe_chunk. cbn [fst snd].
  rewrite He, Hx, stem_chunk. reflexivity.
Qed.

Lemma process_segment_engine_ok (i : nat) (start : Z) (s : state) :
  export w (CHUNKS_DIR // chunk_name base i) = Exported ->
  exit_ok (whisper w (CHUNKS_DIR // chunk_name base i) model language) = true ->
  body (i, start) s =
    let s2 := after_engine w seg_ms base model language len i start s in
    let old := default "" (fs s2 !! full_txt) in
    let s3 := write_file full_txt old s2 in
    match fs s3 !! (CHUNKS_DIR // part_name base i) with
    | Some bytes =>
        match PyStr.read_text bytes with
        | Some text =>
            let line := PyStr.strip text ++ Html.newline in
            (Ok tt, cleanup base i (emit (EvAppend full_txt line)
                                 (write_file full_txt (old ++ line) s3)))
        | None => (Raise DecodeFailure, cleanup base i s3)
        end
    | None => (Raise IOFailure, cleanup base i s3)
    end.
Proof.
  intros He Hx. unfold body, process_segment, bind, export_slice, try_finally,
    transcribe_chunk, append_part. cbn [fst snd].
  rewrite He, Hx, stem_chunk. fold (after_engine w seg_ms base model language len i start s).
  fold Html.newline. fold (line_of).
  cbv zeta.
  destruct (fs (write_file _ _ (after_engine w seg_ms base model language len i start s)) !! _)
    as [bytes|]; [|reflexivity].
  destruct (PyStr.read_text bytes); reflexivity.
Qed.

End OneSegment.
(** ** The aggregate transcript *)

Section Aggregate.

Context (w : oracle) (seg_ms : Z) (base model language : string) (len : Z).

Let full_txt : path := OUTPUT_DIR // (base ++ "_full.txt").
Let body := process_segment w seg_ms base full_txt model language len.
Let chunk (i : nat) : path := CHUNKS_DIR // chunk_name base i.
Let part (i : nat) : path := CHUNKS_DIR // part_name base i.

Lemma chunks_ne_output (x y : string) : CHUNKS_DIR // x <> OUTPUT_DIR // y.
Proof. discriminate. Qed.

Lemma chunk_ne_part (i j : nat) : chunk i <> part j.
Proof. intros [= H]. now apply chunk_name_ne_part_name in H. Qed.

Lemma after_engine_full (i : nat) (start : Z) (s : state) :
  fs (after_engine w seg_ms base model language len i start s) !! full_txt
  = fs s !! full_txt.
Proof.
  unfold after_engine. cbv zeta.
  destruct (wrote _); simpl; rewrite ?lookup_insert_ne by apply chunks_ne_output;
    reflexivity.
Qed.

Lemma after_engine_part (i : nat) (start : Z) (s : state) (t : string) :
  wrote (whisper w (chunk i) model language) = Some t ->
  fs (after_engine w seg_ms base model language len i start s) !! part i = Some t.
Proof.
  intros H. unfold after_engine. cbv zeta. fold (chunk i). rewrite H. simpl.
  apply lookup_insert_eq.
Qed.

Lemma cleanup_full (i : nat) (s : state) :
  fs (cleanup base i s) !! full_txt = fs s !! full_txt.
Proof.
  unfold cleanup. simpl. now rewrite !lookup_delete_ne by apply chunks_ne_output.
Qed.

(** A segment that goes through adds one line to the aggregate file: the
    line of the text that the engine left in the segment transcript. *)
Lemma segment_ok (i : nat) (start : Z) (s s' : state) :
  body (i, start) s = (Ok tt, s') ->
  exists text,
    (forall bytes, wrote (whisper w (chunk i) model language) = Some bytes ->
       PyStr.read_text bytes = Some text)
    /\ fs s' !! full_txt = Some (default "" (fs s !! full_txt) ++ line_of text)
    /\ appended full_txt (log s') = (appended full_txt (log s) ++ [line_of text])%list.
Proof.
  intros Hrun.
  destruct (export w (chunk i)) as [|created] eqn:He.
  2:{ unfold body in Hrun.
      rewrite (process_segment_export_failed _ _ _ _ _ _ _ _ _ created He) in Hrun.
      discriminate Hrun. }
  destruct (exit_ok (whisper w (chunk i) model language)) eqn:Hx.
  2:{ unfold body in Hrun. rewrite process_segment_engine_failed in Hrun by assumption.
      discriminate Hrun. }
  unfold body in Hrun. rewrite process_segment_engine_ok in Hrun by assumption.
  cbv zeta in Hrun.
  simpl fs in Hrun at 1.
  rewrite lookup_insert_ne in Hrun by (symmetry; apply chunks_ne_output).
  fold (part i) in Hrun.
  destruct (fs (after_engine w seg_ms base model language len i start s) !! part i)
    as [bytes|] eqn:Hpart; [|discriminate].
  destruct (PyStr.read_text bytes) as [text|] eqn:Hread; [|discriminate].
  injection Hrun as <-. exists text. split; [|split].
  - intros t Ht. rewrite (after_engine_part _ _ _ _ Ht) in Hpart. congruence.
  - rewrite cleanup_full. simpl. rewrite lookup_insert_eq, after_engine_full.
    reflexivity.
  - unfold cleanup, after_engine. cbv zeta. destruct (wrote _); simpl;
      unfold appended; rewrite !omap_app; simpl; rewrite decide_True by reflexivity;
      simpl; now rewrite ?app_nil_r.
Qed.

(** A loop that goes through leaves in the aggregate file what it finds
    there, followed by the lines it appends. *)
Lemma loop_appended (l : list (nat * Z)) (s s' : state) :
  for_each body l s = (Ok tt, s') ->
  exists lines,
    length lines = length l
    /\ appended full_txt (log s') = (appended full_txt (log s) ++ lines)%list
    /\ fs s' !! full_txt = append_lines (fs s !! full_txt) lines.
Proof.
  revert s. induction l as [|[i start] l IH]; intros s Hrun.
  - injection Hrun as <-. exists []. simpl. now rewrite app_nil_r.
  - simpl in Hrun. unfold bind in Hrun at 1.
    destruct (body (i, start) s) as [[[]|e] s1] eqn:E; [|discriminate].
    apply segment_ok in E as (text & _ & E1 & E2).
    apply IH in Hrun as (lines & Hlen & H2 & H1).
    exists (line_of text :: lines). split; [simpl; now rewrite Hlen|]. split.
    + rewrite H2, E2. now rewrite <- app_assoc.
    + rewrite H1, E1. reflexivity.
Qed.

(** The lines are those of the segment transcripts, in the order of the
    segments. *)
Lemma loop_content (t : nat -> string) (l : list (nat * Z)) (s s' : state) :
  for_each body l s = (Ok tt, s') ->
  (forall i start, (i, start) ∈ l ->
     exists bytes,
       wrote (whisper w (chunk i) model language) = Some bytes
       /\ PyStr.read_text bytes = Some (t i)) ->
  fs s' !! full_txt
  = append_lines (fs s !! full_txt) (map (fun i_start => line_of (t (fst i_start))) l).
Proof.
  revert s. induction l as [|[i start] l IH]; intros s Hrun Ht.
  - injection Hrun as <-. reflexivity.
  - simpl in Hrun. unfold bind in Hrun at 1.
    destruct (body (i, start) s) as [[[]|e] s1] eqn:E; [|discriminate].
    apply segment_ok in E as (text & Htext & E1 & _).
    destruct (Ht i start) as (bytes & Hw & Hr); [left|].
    assert (text = t i) as -> by (specialize (Htext bytes Hw); congruence).
    apply IH in Hrun; [|intros j st Hj; apply (Ht j st); now right].
    rewrite Hrun, E1. reflexivity.
Qed.

Lemma append_lines_Some (c : string) (lines : list string) :
  append_lines (Some c) lines = Some (c ++ fold_right String.append "" lines).
Proof.
  revert c. induction lines as [|l lines IH]; intros c; unfold append_lines; simpl.
  - now rewrite sapp_nil_r.
  - fold (append_lines (Some (c ++ l)) lines). now rewrite IH, sapp_assoc.
Qed.

Lemma append_lines_None (lines : list string) :
  append_lines None lines
  = match lines with
    | [] => None
    | _ => Some (fold_right String.append "" lines)
    end.
Proof.
  destruct lines as [|l lines]; [reflexivity|].
  change (append_lines None (l :: lines)) with (append_lines (Some l) lines).
  now rewrite append_lines_Some.
Qed.

Lemma transcript_lines (texts : list string) :
  fold_right String.append "" (map line_of texts) = transcript texts.
Proof. induction texts as [|x texts IH]; simpl; [reflexivity | now rewrite IH]. Qed.

(** No pass through the loop body touches a file other than the two files
    of its segment and the aggregate transcript. *)
Lemma segment_frame (i : nat) (start : Z) (s : state) (q : path) :
  q <> chunk i -> q <> part i -> q <> full_txt ->
  fs (snd (body (i, start) s)) !! q = fs s !! q.
Proof.
  intros Hc Hp Hf. unfold body.
  destruct (export w (chunk i)) as [|created] eqn:He.
  - destruct (exit_ok (whisper w (chunk i) model language)) eqn:Hx.
    + rewrite process_segment_engine_ok by assumption. cbv zeta.
      unfold after_engine. cbv zeta. fold (chunk i) (part i) full_txt.
      destruct (wrote _); simpl;
        rewrite ?lookup_insert_ne by (symmetry; apply chunks_ne_output);
        rewrite ?lookup_insert_eq;
        repeat match goal with |- context [match ?o with Some _ => _ | None => _ end] =>
                 destruct o end;
        simpl; fold (chunk i) (part i) full_txt;
        rewrite ?lookup_delete_ne by congruence;
        rewrite ?lookup_insert_ne by congruence; reflexivity.
    + rewrite process_segment_engine_failed by assumption.
      unfold cleanup, after_engine. cbv zeta. fold (chunk i) (part i) full_txt.
      destruct (wrote _); simpl; fold (chunk i) (part i) full_txt;
        rewrite ?lookup_delete_ne by congruence;
        rewrite ?lookup_insert_ne by congruence; reflexivity.
  - rewrite (process_segment_export_failed _ _ _ _ _ _ _ _ _ created He).
    destruct created; simpl; fold (chunk i);
      rewrite ?lookup_insert_ne by congruence; reflexivity.
Qed.

Lemma loop_frame (l : list (nat * Z)) (s : state) (q : path) :
  (forall i start, (i, start) ∈ l -> q <> chunk i /\ q <> part i) -> q <> full_txt ->
  fs (snd (for_each body l s)) !! q = fs s !! q.
Proof.
  intros Hq Hf. revert s. induction l as [|[i start] l IH]; intros s; [reflexivity|].
  simpl. unfold bind.
  destruct (Hq i start) as [Hc Hp]; [left|].
  pose proof (segment_frame i start s q Hc Hp Hf) as E.
  destruct (body (i, start) s) as [[[]|e] s1]; simpl snd in E.
  - rewrite IH; [exact E|]. intros j st Hj. apply (Hq j st). now right.
  - exact E.
Qed.

(** What the loop body finds at the path of the segment transcript. *)
Lemma after_engine_part_lookup (i : nat) (start : Z) (s : state) :
  fs (after_engine w seg_ms base model language len i start s) !! part i
  = match wrote (whisper w (chunk i) model language) with
    | Some bytes => Some bytes
    | None => fs s !! part i
    end.
Proof.
  unfold after_engine. cbv zeta. fold (chunk i) (part i).
  destruct (wrote _); simpl; [apply lookup_insert_eq|].
  apply lookup_insert_ne. apply chunk_ne_part.
Qed.

Lemma segment_text_frame (i j : nat) (start : Z) (s : state) :
  i <> j ->
  segment_text w model language (fs (snd (body (i, start) s))) base j
  = segment_text w model language (fs s) base j.
Proof.
  intros Hij.
  assert (E : fs (snd (body (i, start) s)) !! (CHUNKS_DIR // part_name base j)
              = fs s !! (CHUNKS_DIR // part_name base j)).
  { apply segment_frame.
    - intros H. symmetry in H. revert H. apply chunk_ne_part.
    - intros [= H]. apply part_name_inj in H. congruence.
    - apply chunks_ne_output. }
  unfold segment_text. now rewrite E.
Qed.

(** A segment that goes through adds the line of the text it has read. *)
Lemma segment_ok_text (i : nat) (start : Z) (s s' : state) :
  body (i, start) s = (Ok tt, s') ->
  exists text,
    segment_text w model language (fs s) base i = Some text
    /\ fs s' !! full_txt = Some (default "" (fs s !! full_txt) ++ line_of text).
Proof.
  intros Hrun.
  destruct (export w (chunk i)) as [|created] eqn:He.
  2:{ unfold body in Hrun.
      rewrite (process_segment_export_failed _ _ _ _ _ _ _ _ _ created He) in Hrun.
      discriminate Hrun. }
  destruct (exit_ok (whisper w (chunk i) model language)) eqn:Hx.
  2:{ unfold body in Hrun. rewrite process_segment_engine_failed in Hrun by assumption.
      discriminate Hrun. }
  unfold body in Hrun. rewrite process_segment_engine_ok in Hrun by assumption.
  cbv zeta in Hrun. simpl fs in Hrun at 1.
  rewrite lookup_insert_ne in Hrun by (symmetry; apply chunks_ne_output).
  fold (part i) in Hrun. rewrite after_engine_part_lookup in Hrun.
  destruct (match wrote (whisper w (chunk i) model language) with
            | Some bytes => Some bytes
            | None => fs s !! part i
            end) as [bytes|] eqn:Hb; [|discriminate].
  destruct (PyStr.read_text bytes) as [text|] eqn:Hr; [|discriminate].
  injection Hrun as <-. exists text. split.
  - unfold segment_text. fold (chunk i) (part i).
    destruct (wrote (whisper w (chunk i) model language));
      [injection Hb as ->; exact Hr | rewrite Hb; exact Hr].
  - rewrite cleanup_full. simpl. rewrite lookup_insert_eq, after_engine_full.
    reflexivity.
Qed.

(** The lines are those of the texts read for the segments, in the order
    of the segments. *)
Lemma loop_content_text (t : nat -> string) (l : list (nat * Z)) (s s' : state) :
  NoDup (map fst l) ->
  for_each body l s = (Ok tt, s') ->
  (forall i start, (i, start) ∈ l ->
     segment_text w model language (fs s) base i = Some (t i)) ->
  fs s' !! full_txt
  = append_lines (fs s !! full_txt) (map (fun i_start => line_of (t (fst i_start))) l).
Proof.
  revert s. induction l as [|[i start] l IH]; intros s Hnd Hrun Ht.
  - injection Hrun as <-. reflexivity.
  - apply NoDup_cons in Hnd as [Hi Hnd].
    simpl in Hrun. unfold bind in Hrun at 1.
    assert (Hframe : forall j st, (j, st) ∈ l ->
              segment_text w model language (fs (snd (body (i, start) s))) base j
              = segment_text w model language (fs s) base j).
    { intros j st Hj. apply segment_text_frame. intros ->. apply Hi.
      apply list_elem_of_fmap. now exists (j, st). }
    destruct (body (i, start) s) as [[[]|e] s1] eqn:E; [|discriminate].
    simpl snd in Hframe.
    apply segment_ok_text in E as (text & Htext & E1).
    rewrite (Ht i start) in Htext by left. injection Htext as <-.
    apply IH in Hrun; [|exact Hnd|].
    + rewrite Hrun, E1. reflexivity.
    + intros j st Hj. rewrite (Hframe j st Hj). apply (Ht j st). now right.
Qed.

End Aggregate.
(** ** The whole invocation *)

(** [split_and_transcribe], exit path by exit path. *)
Lemma split_and_transcribe_unfold (seg_ms : Z) (w : oracle) (file_path : path)
    (model language : string) (s : state) :
  split_and_transcribe_with seg_ms w file_path model language s =
    let base := stem file_path in
    let full_txt := OUTPUT_DIR // (base ++ "_full.txt") in
    let s1 := emit (EvDecode file_path) (unlink full_txt s) in
    match decode w file_path with
    | None => (Raise IOFailure, unlink file_path s1)
    | Some len =>
        match for_each (process_segment w seg_ms base full_txt model language len)
                (enumerate 1 (py_range 0 len seg_ms)) s1 with
        | (Ok _, s2) => (Ok full_txt, unlink file_path s2)
        | (Raise e, s2) => (Raise e, unlink file_path s2)
        end
    end.
Proof.
  unfold split_and_transcribe_with, bind, try_finally, from_file, ret. cbv zeta.
  destruct (decode w file_path) as [len|]; [|reflexivity].
  destruct (for_each _ _ _) as [[[]|e] s2]; reflexivity.
Qed.

Lemma enumerate_fst {A} (l : list A) (n : nat) :
  map fst (enumerate n l) = seq n (length l).
Proof. revert n. induction l as [|x l IH]; intros n; simpl; [easy | now rewrite IH]. Qed.

Lemma enumerate_elem_of {A} (l : list A) (n i : nat) (x : A) :
  (i, x) ∈ enumerate n l -> n <= i < n + length l.
Proof.
  intros H. apply list_elem_of_lookup in H as [k H].
  apply enumerate_lookup in H as [-> H]. apply lookup_lt_Some in H. lia.
Qed.

(** C3, as stated, at a source of length zero: the invocation succeeds over
    no segment, and the path it returns names no file, so that there is no
    content to compare with the empty concatenation. *)
Lemma no_transcript_for_empty_source :
  let w := Oracle (fun _ => Some 0%Z) (fun _ => "") (fun _ => Exported)
             (fun _ _ _ => EngineOutcome true "" (Some "")) in
  exists p s',
    split_and_transcribe w (Path "uploads" "talk.wav") "small" "Russian"
      (State {[ Path "uploads" "talk.wav" := "RIFF" ]} []) = (Ok p, s')
    /\ length (segments SEGMENT_MS 0) = 0
    /\ fs s' !! p <> Some (transcript []).
Proof.
  eexists _, _. split; [vm_compute; reflexivity|]. split; [reflexivity|].
  vm_compute. discriminate.
Qed.

(** C3 (amended): when an invocation succeeds over [n >= 1] segments, the
    file at the returned path holds the lines of the segment transcripts in
    the order of the segments: for segment [i], the text [t i] that reading
    its transcript as UTF-8 text gives (CR LF and CR read as LF), without
    the white space around it, followed by one line break; over no segment
    the returned path names no file.  The transcript of a segment is what
    the engine wrote or, when it wrote nothing, the file that was at its
    path. *)
Theorem transcript_in_segment_order (w : oracle) (file_path : path)
    (model language : string) (fs0 : gmap path string) (len : Z)
    (t : nat -> string) (p : path) (s' : state) :
  decode w file_path = Some len ->
  (forall i, 1 <= i <= length (segments SEGMENT_MS len) ->
     segment_text w model language fs0 (stem file_path) i = Some (t i)) ->
  split_and_transcribe w file_path model language (State fs0 []) = (Ok p, s') ->
  fs s' !! p =
    match length (segments SEGMENT_MS len) with
    | 0 => None
    | S _ as n => Some (transcript (map t (seq 1 n)))
    end.
Proof.
  intros Hdec Ht Hrun. unfold split_and_transcribe in Hrun.
  rewrite split_and_transcribe_unfold in Hrun. cbv zeta in Hrun. rewrite Hdec in Hrun.
  destruct (for_each _ _ _) as [[[]|e] s2] eqn:Hloop; [|discriminate].
  injection Hrun as <- <-.
  apply loop_content_text with (t := t) in Hloop.
  2:{ rewrite enumerate_fst. apply NoDup_seq. }
  2:{ intros i start Hi. unfold segment_text. simpl fs.
      rewrite lookup_delete_ne by (symmetry; apply chunks_ne_output).
      apply Ht. apply enumerate_elem_of in Hi. rewrite segments_length. lia. }
  simpl fs. rewrite lookup_delete_ne by (symmetry; apply full_txt_ne_source).
  rewrite Hloop. simpl fs. rewrite lookup_delete_eq, append_lines_None.
  rewrite segments_length.
  generalize (py_range 0 len SEGMENT_MS). intros l.
  assert (E : forall n, transcript (map t (seq n (length l)))
                = fold_right String.append ""
                    (map (fun i_start : nat * Z => line_of (t (fst i_start)))
                       (enumerate n l))).
  { intros n. now rewrite <- transcript_lines, <- (enumerate_fst l n), !map_map. }
  destruct l as [|x l]; [reflexivity|]. cbn [length] in *. now rewrite E.
Qed.

Lemma transcript_in_segment_order_witness :
  let nbsp := String "194" (String "160" "") in
  let crlf := String "013" (String "010" "") in
  let t := fun i => nbsp ++ " heard in " ++ chunk_name "talk" i ++ Html.newline
                    ++ "twice" ++ Html.newline in
  let w := Oracle (fun _ => Some 1500000%Z) (fun _ => "mp3") (fun _ => Exported)
             (fun p _ _ =>
                EngineOutcome true ""
                  (if decide (p = CHUNKS_DIR // "talk_part3.mp3") then None
                   else Some (nbsp ++ " heard in " ++ name p ++ crlf ++ "twice" ++ crlf))) in
  let file_path := Path "uploads" "talk.wav" in
  let fs0 : gmap path string :=
    {[ CHUNKS_DIR // "talk_part3.txt"
       := nbsp ++ " heard in talk_part3.mp3" ++ crlf ++ "twice" ++ crlf ]} in
  fs (snd (split_and_transcribe w file_path "small" "Russian" (State fs0 [])))
    !! (OUTPUT_DIR // "talk_full.txt")
  = Some (transcript (map t (seq 1 3))).
Proof.
  intros nbsp crlf t w file_path fs0.
  apply (transcript_in_segment_order w file_path "small" "Russian" fs0 1500000 t).
  - reflexivity.
  - intros i Hi.
    assert (Hi' : i = 1 \/ i = 2 \/ i = 3).
    { change (length (segments SEGMENT_MS 1500000)) with 3 in Hi. lia. }
    destruct Hi' as [-> | [-> | ->]]; vm_compute; reflexivity.
  - vm_compute. reflexivity.
Defined.

(** ** The partition into segments (C2) *)

(** Every pass through the loop body exports the slice of its segment to
    the file of its segment, first of all. *)
Lemma segment_exported (w : oracle) (seg_ms : Z) (base model language : string)
    (len : Z) (i : nat) (start : Z) (s : state) :
  exported_slices
    (log (snd (process_segment w seg_ms base (OUTPUT_DIR // (base ++ "_full.txt"))
                 model language len (i, start) s)))
  = (exported_slices (log s)
     ++ [(CHUNKS_DIR // chunk_name base i, slice len start (start + seg_ms))])%list.
Proof.
  destruct (export w (CHUNKS_DIR // chunk_name base i)) as [|created] eqn:He.
  - destruct (exit_ok (whisper w (CHUNKS_DIR // chunk_name base i) model language)) eqn:Hx.
    + rewrite process_segment_engine_ok by assumption. cbv zeta.
      unfold after_engine. cbv zeta.
      destruct (wrote _); simpl;
        rewrite ?lookup_insert_ne by (symmetry; apply chunks_ne_output);
        rewrite ?lookup_insert_eq;
        repeat match goal with |- context [match ?o with Some _ => _ | None => _ end] =>
                 destruct o end;
        simpl; unfold exported_slices; rewrite !omap_app; simpl; now rewrite !app_nil_r.
    + rewrite process_segment_engine_failed by assumption.
      unfold after_engine. cbv zeta.
      destruct (wrote _); simpl; unfold exported_slices; rewrite !omap_app; simpl;
        now rewrite !app_nil_r.
  - rewrite (process_segment_export_failed _ _ _ _ _ _ _ _ _ created He).
    destruct created; simpl; unfold exported_slices; now rewrite omap_app.
Qed.

Lemma loop_exported (w : oracle) (seg_ms : Z) (base model language : string)
    (len : Z) (l : list (nat * Z)) (s s' : state) :
  for_each (process_segment w seg_ms base (OUTPUT_DIR // (base ++ "_full.txt"))
              model language len) l s = (Ok tt, s') ->
  exported_slices (log s')
  = (exported_slices (log s)
     ++ map (fun i_start =>
               (CHUNKS_DIR // chunk_name base (fst i_start),
                slice len (snd i_start) (snd i_start + seg_ms))) l)%list.
Proof.
  revert s. induction l as [|[i start] l IH]; intros s Hrun.
  - injection Hrun as <-. now rewrite app_nil_r.
  - simpl in Hrun. unfold bind in Hrun at 1.
    pose proof (segment_exported w seg_ms base model language len i start s) as E.
    destruct (process_segment _ _ _ _ _ _ _ _ s) as [[[]|e] s1]; [|discriminate].
    simpl snd in E. rewrite (IH _ Hrun), E. simpl. now rewrite <- app_assoc.
Qed.

(** C2, as stated, at a source of length zero: it is shorter than one
    window, and it has no segment at all. *)
Lemma segments_empty_source :
  ~ ((0 <= 0 < SEGMENT_MS)%Z -> length (segments SEGMENT_MS 0) = 1).
Proof.
  intros H.
  assert (E : length (segments SEGMENT_MS 0) = 1) by (apply H; unfold SEGMENT_MS; lia).
  vm_compute in E. discriminate E.
Qed.

(** C2 (amended): a source of length [D] is cut into [ceil(D/W)] segments,
    numbered from 1 in temporal order, each starting where the one before
    ends; every segment but the last has length [W], and the last has length
    [D mod W], or [W] when [W] divides [D]; a non-empty source shorter than
    one window gives exactly one segment.  These segments are what an
    invocation that goes through exports, one file for each, in this
    order. *)
Theorem segments_partition (W D : Z) :
  (0 < W)%Z -> (0 <= D)%Z ->
  let n := length (segments W D) in
  Z.of_nat n = ((D + W - 1) / W)%Z
  /\ ((Z.of_nat n - 1) * W < D <= Z.of_nat n * W)%Z
  /\ (forall k i lo hi,
        segments W D !! k = Some (i, (lo, hi)) ->
        i = S k /\ lo = (Z.of_nat k * W)%Z
        /\ (S k < n -> slice_len (lo, hi) = W)
        /\ (S k = n ->
            hi = D /\
            slice_len (lo, hi) = if (D mod W =? 0)%Z then W else (D mod W)%Z))
  /\ ((0 < D < W)%Z -> n = 1)
  /\ (forall w file_path model language fs0 p s',
        decode w file_path = Some D ->
        split_and_transcribe_with W w file_path model language (State fs0 []) = (Ok p, s') ->
        exported_slices (log s')
        = map (fun seg => (CHUNKS_DIR // chunk_name (stem file_path) (fst seg), snd seg))
            (segments W D)).
Proof.
  intros HW HD n.
  assert (Hn : Z.of_nat n = ((D + W - 1) / W)%Z).
  { unfold n. rewrite segments_length. now apply py_range_length. }
  assert (Hbr : ((Z.of_nat n - 1) * W < D <= Z.of_nat n * W)%Z).
  { rewrite Hn. pose proof (Z.div_mod (D + W - 1) W ltac:(lia)).
    pose proof (Z.mod_pos_bound (D + W - 1) W HW). nia. }
  split; [exact Hn|]. split; [exact Hbr|]. split; [|split].
  - intros k i lo hi Hk.
    apply segments_lookup in Hk as (-> & -> & Hlo & ->); [|exact HW].
    unfold slice_len. cbn [fst snd].
    split; [reflexivity|]. split; [reflexivity|]. split.
    + intros Hlt. assert (Z.of_nat k * W + W <= D)%Z by nia. lia.
    + intros Hlast. assert (Hnk : (Z.of_nat n = Z.of_nat k + 1)%Z) by lia.
      rewrite Z.min_r by nia. split; [reflexivity|].
      destruct (Z.eq_dec (D - Z.of_nat k * W)%Z W) as [E|E].
      * replace (D mod W)%Z with 0%Z; [simpl; lia|].
        apply (Z.mod_unique D W (Z.of_nat n)); lia.
      * replace (D mod W)%Z with (D - Z.of_nat k * W)%Z.
        -- destruct (Z.eqb_spec (D - Z.of_nat k * W)%Z 0%Z); [nia | reflexivity].
        -- apply (Z.mod_unique D W (Z.of_nat k)); nia.
  - intros [HD0 HDW]. nia.
  - intros w file_path model language fs0 p s' Hdec Hrun.
    rewrite split_and_transcribe_unfold in Hrun. cbv zeta in Hrun. rewrite Hdec in Hrun.
    destruct (for_each _ _ _) as [[[]|e] s2] eqn:Hloop; [|discriminate].
    injection Hrun as _ <-. apply loop_exported in Hloop.
    unfold exported_slices in *. simpl log. rewrite omap_app, Hloop. simpl.
    rewrite app_nil_r. unfold segments. now rewrite map_map.
Qed.

Lemma segments_partition_witness :
  let n := length (segments SEGMENT_MS 1500000) in
  Z.of_nat n = ((1500000 + SEGMENT_MS - 1) / SEGMENT_MS)%Z
  /\ ((Z.of_nat n - 1) * SEGMENT_MS < 1500000 <= Z.of_nat n * SEGMENT_MS)%Z
  /\ (forall k i lo hi,
        segments SEGMENT_MS 1500000 !! k = Some (i, (lo, hi)) ->
        i = S k /\ lo = (Z.of_nat k * SEGMENT_MS)%Z
        /\ (S k < n -> slice_len (lo, hi) = SEGMENT_MS)
        /\ (S k = n ->
            hi = 1500000%Z /\
            slice_len (lo, hi) =
              if (1500000 mod SEGMENT_MS =? 0)%Z then SEGMENT_MS
              else (1500000 mod SEGMENT_MS)%Z))
  /\ ((0 < 1500000 < SEGMENT_MS)%Z -> n = 1)
  /\ (forall w file_path model language fs0 p s',
        decode w file_path = Some 1500000%Z ->
        split_and_transcribe_with SEGMENT_MS w file_path model language (State fs0 [])
        = (Ok p, s') ->
        exported_slices (log s')
        = map (fun seg => (CHUNKS_DIR // chunk_name (stem file_path) (fst seg), snd seg))
            (segments SEGMENT_MS 1500000)).
Proof. apply (segments_partition SEGMENT_MS 1500000); [reflexivity | discriminate]. Defined.

(** ** Sources without audio (C7) *)

(** C7, as stated, at a source of length zero: the invocation does not fail,
    it returns the path of the aggregate transcript. *)
Lemma empty_source_does_not_fail :
  let w := Oracle (fun _ => Some 0%Z) (fun _ => "") (fun _ => Exported)
             (fun _ _ _ => EngineOutcome true "" (Some "")) in
  fst (split_and_transcribe w (Path "uploads" "talk.wav") "small" "Russian"
         (State {[ Path "uploads" "talk.wav" := "RIFF" ]} []))
  <> Raise IOFailure.
Proof. vm_compute. discriminate. Qed.

(** C7 (amended): when the source cannot be read the invocation fails with
    an [IOFailure], and when it has length zero the invocation returns; in
    both cases it has only deleted a stale aggregate transcript, tried to
    decode the source and deleted the source: no segment was exported, the
    engine was not run, and no file was created. *)
Theorem no_segment_without_audio (w : oracle) (file_path : path)
    (model language : string) (fs0 : gmap path string) :
  decode w file_path = None \/ decode w file_path = Some 0%Z ->
  let full_txt := OUTPUT_DIR // (stem file_path ++ "_full.txt") in
  let run := split_and_transcribe w file_path model language (State fs0 []) in
  (decode w file_path = None -> fst run = Raise IOFailure)
  /\ (decode w file_path = Some 0%Z -> fst run = Ok full_txt)
  /\ log (snd run) = [EvUnlink full_txt; EvDecode file_path; EvUnlink file_path]
  /\ exports (log (snd run)) = []
  /\ engine_calls (log (snd run)) = []
  /\ fs (snd run) = delete file_path (delete full_txt fs0).
Proof.
  intros H full_txt run. unfold run, split_and_transcribe.
  rewrite split_and_transcribe_unfold. cbv zeta.
  destruct H as [H|H]; rewrite H; simpl; repeat split; congruence.
Qed.

Lemma no_segment_without_audio_witness :
  let w := Oracle (fun _ => None) (fun _ => "") (fun _ => Exported)
             (fun _ _ _ => EngineOutcome true "" (Some "")) in
  let file_path := Path "uploads" "noise.bin" in
  let full_txt := OUTPUT_DIR // (stem file_path ++ "_full.txt") in
  let run := split_and_transcribe w file_path "small" "Russian" (State ∅ []) in
  (decode w file_path = None -> fst run = Raise IOFailure)
  /\ (decode w file_path = Some 0%Z -> fst run = Ok full_txt)
  /\ log (snd run) = [EvUnlink full_txt; EvDecode file_path; EvUnlink file_path]
  /\ exports (log (snd run)) = []
  /\ engine_calls (log (snd run)) = []
  /\ fs (snd run) = delete file_path (delete full_txt ∅).
Proof.
  intros w file_path.
  apply (no_segment_without_audio w file_path "small" "Russian" ∅).
  left. reflexivity.
Defined.

(** ** A stale aggregate transcript (C10) *)

(** The log only grows. *)
Lemma process_segment_log (w : oracle) (seg_ms : Z) (base model language : string)
    (len : Z) (x : nat * Z) (s : state) :
  exists more,
    log (snd (process_segment w seg_ms base (OUTPUT_DIR // (base ++ "_full.txt"))
                model language len x s)) = (log s ++ more)%list.
Proof.
  destruct x as [i start].
  destruct (export w (CHUNKS_DIR // chunk_name base i)) as [|created] eqn:He.
  - destruct (exit_ok (whisper w (CHUNKS_DIR // chunk_name base i) model language)) eqn:Hx.
    + rewrite process_segment_engine_ok by assumption. cbv zeta.
      unfold after_engine. cbv zeta.
      destruct (wrote _); simpl; rewrite ?lookup_insert_ne by (symmetry; apply chunks_ne_output);
        rewrite ?lookup_insert_eq;
        repeat match goal with |- context [match ?o with Some _ => _ | None => _ end] =>
                 destruct o end;
        simpl; rewrite <- ?app_assoc; eexists; reflexivity.
    + rewrite process_segment_engine_failed by assumption.
      unfold after_engine. cbv zeta.
      destruct (wrote _); simpl; rewrite <- ?app_assoc; eexists; reflexivity.
  - rewrite (process_segment_export_failed _ _ _ _ _ _ _ _ _ created He).
    destruct created; simpl; eexists; reflexivity.
Qed.

Lemma for_each_log (w : oracle) (seg_ms : Z) (base model language : string)
    (len : Z) (l : list (nat * Z)) (s : state) :
  exists more,
    log (snd (for_each (process_segment w seg_ms base (OUTPUT_DIR // (base ++ "_full.txt"))
                          model language len) l s)) = (log s ++ more)%list.
Proof.
  revert s. induction l as [|x l IH]; intros s; simpl.
  - exists []. now rewrite app_nil_r.
  - unfold bind.
    destruct (process_segment_log w seg_ms base model language len x s) as [m1 H1].
    destruct (process_segment _ _ _ _ _ _ _ _ _) as [[[]|e] s1]; simpl in H1.
    + destruct (IH s1) as [m2 H2]. exists (m1 ++ m2)%list.
      now rewrite H2, H1, app_assoc.
    + now exists m1.
Qed.

(** C10: the first thing an invocation does is to delete the aggregate
    transcript of the source's stem, so that the invocation runs as if the
    file had not been there; when the invocation succeeds, the file at the
    returned path holds the lines appended during the invocation and no
    others. *)
Theorem stale_transcript_is_deleted_first (w : oracle) (file_path : path)
    (model language : string) (fs0 : gmap path string) :
  let full_txt := OUTPUT_DIR // (stem file_path ++ "_full.txt") in
  let run := split_and_transcribe w file_path model language in
  (exists rest, log (snd (run (State fs0 []))) = EvUnlink full_txt :: rest)
  /\ run (State fs0 []) = run (State (delete full_txt fs0) [])
  /\ (forall p s', run (State fs0 []) = (Ok p, s') ->
        p = full_txt /\ fs s' !! p = append_lines None (appended p (log s'))).
Proof.
  intros full_txt run. subst full_txt run. unfold split_and_transcribe.
  rewrite !split_and_transcribe_unfold. cbv zeta.
  split; [|split].
  - destruct (decode w file_path) as [len|]; [|eexists; reflexivity].
    match goal with |- context [for_each ?b ?l ?s] =>
      destruct (for_each_log w SEGMENT_MS (stem file_path) model language len l s)
        as [more Hmore]
    end.
    destruct (for_each _ _ _) as [[[]|e] s2]; simpl in *; rewrite Hmore;
      eexists; reflexivity.
  - unfold unlink. simpl. now rewrite delete_delete_eq.
  - intros p s' Hrun.
    destruct (decode w file_path) as [len|]; [|discriminate].
    destruct (for_each _ _ _) as [[[]|e] s2] eqn:Hloop; [|discriminate].
    injection Hrun as <- <-. split; [reflexivity|].
    apply loop_appended in Hloop as (lines & _ & Hlog & Hfs).
    simpl fs. rewrite lookup_delete_ne by (symmetry; apply full_txt_ne_source).
    rewrite Hfs. simpl fs. rewrite lookup_delete_eq.
    f_equal. simpl log. unfold appended in *. rewrite omap_app, Hlog. simpl.
    now rewrite app_nil_r.
Qed.
Lemma stale_transcript_is_deleted_first_witness :
  let w := Oracle (fun _ => Some 700000%Z) (fun _ => "mp3") (fun _ => Exported)
             (fun p _ _ => EngineOutcome true "" (Some "new words")) in
  let file_path := Path "uploads" "talk.wav" in
  let fs0 : gmap path string := {[ OUTPUT_DIR // "talk_full.txt" := "old words" ]} in
  let full_txt := OUTPUT_DIR // (stem file_path ++ "_full.txt") in
  let run := split_and_transcribe w file_path "small" "Russian" in
  (exists rest, log (snd (run (State fs0 []))) = EvUnlink full_txt :: rest)
  /\ run (State fs0 []) = run (State (delete full_txt fs0) [])
  /\ (forall p s', run (State fs0 []) = (Ok p, s') ->
        p = full_txt /\ fs s' !! p = append_lines None (appended p (log s'))).
Proof.
  intros w file_path fs0.
  exact (stale_transcript_is_deleted_first w file_path "small" "Russian" fs0).
Defined.

(** ** Cleanup (C1, C4) *)

Section Cleanup.

Context (w : oracle) (seg_ms : Z) (base model language : string) (len : Z).

Let full_txt : path := OUTPUT_DIR // (base ++ "_full.txt").
Let body := process_segment w seg_ms base full_txt model language len.
Let chunk (i : nat) : path := CHUNKS_DIR // chunk_name base i.
Let part (i : nat) : path := CHUNKS_DIR // part_name base i.

Lemma cleanup_gone (i : nat) (s : state) : gone base i (cleanup base i s).
Proof.
  unfold gone, cleanup. simpl. split.
  - rewrite lookup_delete_ne by (symmetry; apply (chunk_ne_part base)).
    apply lookup_delete_eq.
  - apply lookup_delete_eq.
Qed.

Lemma cleanup_other (i j : nat) (s : state) :
  gone base j s -> gone base j (cleanup base i s).
Proof.
  unfold gone, cleanup. simpl. intros [H1 H2].
  split; rewrite !lookup_delete; repeat case_decide; auto.
Qed.

Lemma after_engine_other (i j : nat) (start : Z) (s : state) :
  i <> j -> gone base j s ->
  gone base j (after_engine w seg_ms base model language len i start s).
Proof.
  intros Hij [H1 H2]. unfold gone, after_engine. cbv zeta.
  assert (chunk i <> chunk j) by (intros [= E]; now apply chunk_name_inj in E).
  assert (part i <> part j) by (intros [= E]; now apply part_name_inj in E).
  pose proof (chunk_ne_part base i j). pose proof (chunk_ne_part base j i).
  destruct (wrote _); simpl; split; rewrite ?lookup_insert_ne; auto.
Qed.

Lemma write_full_other (j : nat) (c : string) (s : state) :
  gone base j s -> gone base j (write_file full_txt c s).
Proof.
  intros [H1 H2]. unfold gone. simpl.
  split; rewrite lookup_insert_ne; auto; symmetry; apply chunks_ne_output.
Qed.

Lemma emit_other (j : nat) (e : event) (s : state) :
  gone base j s -> gone base j (emit e s).
Proof. exact (fun H => H). Qed.

(** When its export succeeds, a segment leaves neither of its files
    behind, whatever the engine does, and it creates no file of another
    segment. *)
Lemma segment_cleanup (i : nat) (start : Z) (s : state) :
  export w (chunk i) = Exported ->
  gone base i (snd (body (i, start) s))
  /\ (forall j, gone base j s -> gone base j (snd (body (i, start) s))).
Proof.
  intros He.
  assert (Hother : forall j s', i <> j -> gone base j s ->
            s' = after_engine w seg_ms base model language len i start s ->
            gone base j s') by (intros j s' ? ? ->; now apply after_engine_other).
  destruct (exit_ok (whisper w (chunk i) model language)) eqn:Hx; unfold body.
  - rewrite process_segment_engine_ok by assumption. cbv zeta.
    destruct (fs _ !! _) as [bytes|]; [destruct (PyStr.read_text bytes)|]; simpl snd.
    + split; [apply cleanup_gone|]. intros j Hj.
      destruct (decide (i = j)) as [<-|Hij]; [apply cleanup_gone|].
      apply cleanup_other, emit_other, write_full_other, write_full_other; eauto.
    + split; [apply cleanup_gone|]. intros j Hj.
      destruct (decide (i = j)) as [<-|Hij]; [apply cleanup_gone|].
      apply cleanup_other, write_full_other; eauto.
    + split; [apply cleanup_gone|]. intros j Hj.
      destruct (decide (i = j)) as [<-|Hij]; [apply cleanup_gone|].
      apply cleanup_other, write_full_other; eauto.
  - rewrite process_segment_engine_failed by assumption. simpl snd.
    split; [apply cleanup_gone|]. intros j Hj.
    destruct (decide (i = j)) as [<-|Hij]; [apply cleanup_gone|].
    apply cleanup_other; eauto.
Qed.

Lemma segment_exports (i : nat) (start : Z) (s : state) :
  exports (log (snd (body (i, start) s))) = (exports (log s) ++ [chunk i])%list.
Proof.
  unfold body.
  destruct (export w (chunk i)) as [|created] eqn:He.
  - destruct (exit_ok (whisper w (chunk i) model language)) eqn:Hx.
    + rewrite process_segment_engine_ok by assumption. cbv zeta.
      unfold after_engine. cbv zeta.
      destruct (wrote _); simpl;
        rewrite ?lookup_insert_ne by (symmetry; apply chunks_ne_output);
        rewrite ?lookup_insert_eq;
        repeat match goal with |- context [match ?o with Some _ => _ | None => _ end] =>
                 destruct o end;
        simpl; unfold exports; rewrite !omap_app; simpl; now rewrite !app_nil_r.
    + rewrite process_segment_engine_failed by assumption.
      unfold after_engine. cbv zeta.
      destruct (wrote _); simpl; unfold exports; rewrite !omap_app; simpl;
        now rewrite !app_nil_r.
  - rewrite (process_segment_export_failed _ _ _ _ _ _ _ _ _ created He).
    destruct created; simpl; unfold exports; now rewrite omap_app.
Qed.

(** When every export succeeds, the loop leaves no file of a segment it
    has started, however it ends. *)
Lemma loop_cleanup (l : list (nat * Z)) (s : state) :
  (forall i start, (i, start) ∈ l -> export w (chunk i) = Exported) ->
  exists started,
    exports (log (snd (for_each body l s))) = (exports (log s) ++ map chunk started)%list
    /\ (forall j, j ∈ started -> gone base j (snd (for_each body l s)))
    /\ (forall j, gone base j s -> gone base j (snd (for_each body l s))).
Proof.
  revert s. induction l as [|[i start] l IH]; intros s Hexp.
  - exists []. simpl. rewrite app_nil_r. split; [reflexivity|]. split; [|auto].
    intros j Hj. inversion Hj.
  - simpl. unfold bind.
    pose proof (segment_exports i start s) as Hlog.
    destruct (segment_cleanup i start s) as [Hi Hothers]; [apply (Hexp i start); left|].
    destruct (body (i, start) s) as [[[]|e] s1]; simpl snd in *.
    + destruct (IH s1) as (started & H1 & H2 & H3);
        [intros j st Hj; apply (Hexp j st); now right|].
      exists (i :: started). split; [|split].
      * rewrite H1, Hlog. simpl. now rewrite <- app_assoc.
      * intros j Hj. apply elem_of_cons in Hj as [->|Hj]; auto.
      * auto.
    + exists [i]. split; [exact Hlog|]. split; [|exact Hothers].
      intros j Hj. apply list_elem_of_singleton in Hj as ->. exact Hi.
Qed.

End Cleanup.

(** Cleanup when the exports succeed (X1): whatever the engine does, and
    whether the invocation returns or raises, no file of a segment that was
    started is left, and the source file is deleted. *)
Lemma cleanup_when_exports_succeed (w : oracle) (file_path : path)
    (model language : string) (fs0 : gmap path string) :
  (forall p, export w p = Exported) ->
  let s' := snd (split_and_transcribe w file_path model language (State fs0 [])) in
  fs s' !! file_path = None
  /\ exists started,
       exports (log s') = map (fun i => CHUNKS_DIR // chunk_name (stem file_path) i) started
       /\ forall i, i ∈ started -> gone (stem file_path) i s'.
Proof.
  intros Hexp. unfold split_and_transcribe.
  rewrite split_and_transcribe_unfold. cbv zeta.
  destruct (decode w file_path) as [len|].
  - match goal with |- context [for_each ?b ?l ?s] =>
      destruct (loop_cleanup w SEGMENT_MS (stem file_path) model language len l s)
        as (started & Hlog & Hgone & _); [intros; apply Hexp|]
    end.
    destruct (for_each _ _ _) as [[[]|e] s2]; simpl snd in *;
      (split; [apply lookup_delete_eq|]); exists started;
      (split; [unfold exports in *; simpl log; rewrite omap_app, Hlog; simpl;
               now rewrite app_nil_r|]);
      intros i Hi; destruct (Hgone i Hi) as [H1 H2]; unfold gone; simpl fs;
      rewrite !lookup_delete; split; case_decide; auto.
  - simpl. split; [apply lookup_delete_eq|]. exists []. split; [reflexivity|].
    intros i Hi. inversion Hi.
Qed.

(** C1 at a failing input: a source of one second whose only segment cannot
    be encoded, the encoder having opened its destination before it fails
    (pydub's [export] opens the destination before it runs the encoder).
    [export] stands before the [try] of the loop body, so the [finally] does
    not run: the invocation raises and the segment file stays. *)
Theorem chunk_left_when_export_fails :
  let w := Oracle (fun _ => Some 1000%Z) (fun _ => "mp3") (fun _ => ExportFailed true)
             (fun _ _ _ => EngineOutcome true "" (Some "words")) in
  let file_path := Path "uploads" "talk.wav" in
  let run := split_and_transcribe w file_path "small" "Russian"
               (State {[ file_path := "RIFF" ]} []) in
  fst run = Raise IOFailure
  /\ fs (snd run) !! (CHUNKS_DIR // "talk_part1.mp3") = Some ""
  /\ fs (snd run) !! file_path = None
  /\ log (snd run)
     = [EvUnlink (OUTPUT_DIR // "talk_full.txt"); EvDecode file_path;
        EvExport (CHUNKS_DIR // "talk_part1.mp3") (0%Z, 1000%Z);
        EvUnlink file_path].
Proof. vm_compute. repeat split. Qed.
(** ** The 25-minute scenario (C4) *)

Lemma unlink_other (base : string) (j : nat) (p : path) (s : state) :
  gone base j s -> gone base j (unlink p s).
Proof.
  intros [H1 H2]. unfold gone, unlink. simpl.
  rewrite !lookup_delete. split; case_decide; auto.
Qed.

Lemma unlink_lookup_ne (p q : path) (s : state) :
  q <> p -> fs (unlink p s) !! q = fs s !! q.
Proof. intros H. simpl. now rewrite lookup_delete_ne by congruence. Qed.

(** C4, as stated, at the scenario: the invocation raises, but the line
    of segment 1 is not discarded: it stays in the aggregate transcript,
    the file that [split_and_transcribe] calls its final file. *)
Lemma first_line_is_left_on_disk :
  let w := Oracle (fun _ => Some (25 * 60 * 1000)%Z) (fun _ => "mp3") (fun _ => Exported)
             (fun p _ _ =>
                if decide (p = CHUNKS_DIR // "talk_part1.mp3")
                then EngineOutcome true "" (Some "first ten minutes")
                else EngineOutcome false "out of memory" None) in
  let file_path := Path "uploads" "talk.wav" in
  let run := split_and_transcribe w file_path "small" "Russian"
               (State {[ file_path := "RIFF" ]} []) in
  fst run = Raise (EngineFailure "out of memory")
  /\ fs (snd run) !! (OUTPUT_DIR // "talk_full.txt")
     = Some ("first ten minutes" ++ Html.newline)
  /\ fs (snd run) !! (OUTPUT_DIR // "talk_full.txt") <> None.
Proof. vm_compute. repeat split. discriminate. Qed.

(** C4 (amended): a source of 25 minutes has three segments, of 10, 10 and
    5 minutes.  When the exports of the first two succeed, the engine
    succeeds on the first, whose transcript is read as the text [t1], and
    fails on the second, then the invocation
    raises the engine's failure and returns no path; the first two segments,
    of 10 minutes each, have been exported, the engine has been run once on
    each of them, and segment 3 has not been started; neither the files of
    segments 1 and 2 nor the source file exist; the aggregate transcript is
    left on disk with the line of segment 1. *)
Theorem abort_at_second_segment (w : oracle) (file_path : path)
    (model language : string) (fs0 : gmap path string) (t1 : string) :
  let base := stem file_path in
  let chunk := fun i => CHUNKS_DIR // chunk_name base i in
  let part := fun i => CHUNKS_DIR // part_name base i in
  let run := split_and_transcribe w file_path model language (State fs0 []) in
  decode w file_path = Some (25 * 60 * 1000)%Z ->
  export w (chunk 1) = Exported ->
  export w (chunk 2) = Exported ->
  exit_ok (whisper w (chunk 1) model language) = true ->
  segment_text w model language fs0 base 1 = Some t1 ->
  exit_ok (whisper w (chunk 2) model language) = false ->
  map (fun seg => (fst seg, slice_len (snd seg))) (segments SEGMENT_MS (25 * 60 * 1000))
    = [(1, (10 * 60 * 1000)%Z); (2, (10 * 60 * 1000)%Z); (3, (5 * 60 * 1000)%Z)]
  /\ fst run = Raise (EngineFailure (stderr_of (whisper w (chunk 2) model language)))
  /\ engine_calls (log (snd run)) = [chunk 1; chunk 2]
  /\ exports (log (snd run)) = [chunk 1; chunk 2]
  /\ exported_slices (log (snd run))
     = [(chunk 1, (0, 10 * 60 * 1000)%Z); (chunk 2, (10 * 60 * 1000, 20 * 60 * 1000)%Z)]
  /\ gone base 1 (snd run)
  /\ gone base 2 (snd run)
  /\ fs (snd run) !! file_path = None
  /\ fs (snd run) !! (OUTPUT_DIR // (base ++ "_full.txt")) = Some (line_of t1).
Proof.
  intros base chunk part run Hdec He1 He2 Hx1 Ht1 Hx2.
  split; [vm_compute; reflexivity|].
  set (full_txt := OUTPUT_DIR // (base ++ "_full.txt")).
  assert (Hrun : exists s1,
            exports (log s1) = [chunk 1] /\ engine_calls (log s1) = [chunk 1]
            /\ exported_slices (log s1) = [(chunk 1, (0, 10 * 60 * 1000)%Z)]
            /\ fs s1 !! full_txt = Some (line_of t1)
            /\ run = (Raise (EngineFailure (stderr_of (whisper w (chunk 2) model language))),
                      unlink file_path
                        (cleanup base 2
                           (after_engine w SEGMENT_MS base model language
                              (25 * 60 * 1000) 2 600000 (cleanup base 1 s1))))).
  { unfold run, split_and_transcribe. rewrite split_and_transcribe_unfold. cbv zeta.
    rewrite Hdec.
    replace (py_range 0 (25 * 60 * 1000) SEGMENT_MS) with [0; 600000; 1200000]%Z
      by (vm_compute; reflexivity).
    cbn [enumerate for_each]. unfold bind.
    rewrite process_segment_engine_ok by assumption. cbv zeta.
    fold base. fold (chunk 1) (part 1) full_txt.
    set (s0 := emit (EvDecode file_path) (unlink full_txt (State fs0 []))).
    set (s1 := after_engine w SEGMENT_MS base model language (25 * 60 * 1000) 1 0 s0).
    assert (Hold : fs s1 !! full_txt = None).
    { unfold s1. rewrite (after_engine_full w SEGMENT_MS base). unfold s0. simpl fs.
      apply lookup_delete_eq. }
    assert (Hpart : exists b1,
              fs (write_file full_txt (default "" (fs s1 !! full_txt)) s1) !! part 1
              = Some b1 /\ PyStr.read_text b1 = Some t1).
    { simpl fs. rewrite lookup_insert_ne by (symmetry; apply chunks_ne_output).
      unfold s1, part. rewrite after_engine_part_lookup. unfold s0. simpl fs.
      rewrite lookup_delete_ne by (symmetry; apply chunks_ne_output).
      unfold segment_text in Ht1. fold (chunk 1) in *.
      destruct (wrote (whisper w (chunk 1) model language)) as [b1|]; [now exists b1|].
      destruct (fs0 !! (CHUNKS_DIR // part_name base 1)) as [b1|]; [now exists b1|].
      discriminate Ht1. }
    destruct Hpart as (b1 & Hpart & Hr1).
    rewrite Hpart, Hr1. rewrite Hold. cbn [default].
    rewrite process_segment_engine_failed by assumption.
    eexists. split; [|split; [|split; [|split; [|reflexivity]]]].
    - unfold s1, after_engine, s0. cbv zeta. fold (chunk 1).
      now destruct (wrote (whisper w (chunk 1) model language)).
    - unfold s1, after_engine, s0. cbv zeta. fold (chunk 1).
      now destruct (wrote (whisper w (chunk 1) model language)).
    - unfold s1, after_engine, s0. cbv zeta. fold (chunk 1).
      now destruct (wrote (whisper w (chunk 1) model language)).
    - simpl fs. apply lookup_insert_eq. }
  destruct Hrun as (s1 & Hexp & Hcalls & Hsl & Hfull & ->). cbn [fst snd].
  split; [reflexivity|].
  assert (G1 : gone base 1 (cleanup base 1 s1)) by apply cleanup_gone.
  split; [|split; [|split; [|split; [|split; [|split]]]]].
  - unfold cleanup, after_engine. cbv zeta. fold (chunk 1) (chunk 2).
    destruct (wrote (whisper w (chunk 2) model language)); simpl;
      unfold engine_calls in *; rewrite !omap_app, Hcalls; try reflexivity.
  - unfold cleanup, after_engine. cbv zeta. fold (chunk 1) (chunk 2).
    destruct (wrote (whisper w (chunk 2) model language)); simpl;
      unfold exports in *; rewrite !omap_app, Hexp; try reflexivity.
  - unfold cleanup, after_engine. cbv zeta. fold (chunk 1) (chunk 2).
    destruct (wrote (whisper w (chunk 2) model language)); simpl;
      unfold exported_slices in *; rewrite !omap_app, Hsl; try reflexivity.
  - apply unlink_other, cleanup_other, after_engine_other; [lia | exact G1].
  - apply unlink_other, cleanup_gone.
  - simpl fs. apply lookup_delete_eq.
  - rewrite unlink_lookup_ne by apply full_txt_ne_source.
    rewrite (cleanup_full base 2), (after_engine_full w SEGMENT_MS base),
      (cleanup_full base 1).
    exact Hfull.
Qed.

Lemma abort_at_second_segment_witness :
  let w := Oracle (fun _ => Some (25 * 60 * 1000)%Z) (fun _ => "mp3") (fun _ => Exported)
             (fun p _ _ =>
                if decide (p = CHUNKS_DIR // "talk_part1.mp3")
                then EngineOutcome true ""
                       (Some (" first ten minutes" ++ String "013" (String "010" "")))
                else EngineOutcome false "out of memory" None) in
  let file_path := Path "uploads" "talk.wav" in
  let run := split_and_transcribe w file_path "small" "Russian"
               (State {[ file_path := "RIFF" ]} []) in
  map (fun seg => (fst seg, slice_len (snd seg))) (segments SEGMENT_MS (25 * 60 * 1000))
    = [(1, (10 * 60 * 1000)%Z); (2, (10 * 60 * 1000)%Z); (3, (5 * 60 * 1000)%Z)]
  /\ fst run = Raise (EngineFailure "out of memory")
  /\ engine_calls (log (snd run))
     = [CHUNKS_DIR // "talk_part1.mp3"; CHUNKS_DIR // "talk_part2.mp3"]
  /\ exports (log (snd run))
     = [CHUNKS_DIR // "talk_part1.mp3"; CHUNKS_DIR // "talk_part2.mp3"]
  /\ exported_slices (log (snd run))
     = [(CHUNKS_DIR // "talk_part1.mp3", (0, 10 * 60 * 1000)%Z);
        (CHUNKS_DIR // "talk_part2.mp3", (10 * 60 * 1000, 20 * 60 * 1000)%Z)]
  /\ gone "talk" 1 (snd run)
  /\ gone "talk" 2 (snd run)
  /\ fs (snd run) !! file_path = None
  /\ fs (snd run) !! (OUTPUT_DIR // "talk_full.txt")
     = Some (line_of (" first ten minutes" ++ Html.newline)).
Proof.
  intros w file_path.
  apply (abort_at_second_segment w file_path "small" "Russian"
           {[ file_path := "RIFF" ]}
           (" first ten minutes" ++ Html.newline)); reflexivity.
Defined.
(** ** Failures and results (C8) *)

(** A loop that goes through has met no failure. *)
Lemma loop_ok_stages (w : oracle) (seg_ms : Z) (base model language : string)
    (len : Z) (l : list (nat * Z)) (s s' : state) :
  for_each (process_segment w seg_ms base (OUTPUT_DIR // (base ++ "_full.txt"))
              model language len) l s = (Ok tt, s') ->
  forall i start, (i, start) ∈ l ->
    export w (CHUNKS_DIR // chunk_name base i) = Exported
    /\ exit_ok (whisper w (CHUNKS_DIR // chunk_name base i) model language) = true.
Proof.
  revert s. induction l as [|[j st] l IH]; intros s Hrun i start Hi.
  - inversion Hi.
  - simpl in Hrun. unfold bind in Hrun at 1.
    destruct (process_segment _ _ _ _ _ _ _ (j, st) s) as [[[]|e] s1] eqn:E;
      [|discriminate].
    apply elem_of_cons in Hi as [[= -> ->]|Hi]; [|now apply (IH s1 Hrun i start)].
    destruct (export w (CHUNKS_DIR // chunk_name base j)) as [|created] eqn:He.
    + split; [reflexivity|].
      destruct (exit_ok (whisper w (CHUNKS_DIR // chunk_name base j) model language))
        eqn:Hx; [reflexivity|].
      rewrite process_segment_engine_failed in E by assumption. discriminate E.
    + rewrite (process_segment_export_failed _ _ _ _ _ _ _ _ _ created He) in E.
      discriminate E.
Qed.

Section Stages.

Context (w : oracle) (seg_ms : Z) (base model language : string) (len : Z).

Let full_txt : path := OUTPUT_DIR // (base ++ "_full.txt").
Let body := process_segment w seg_ms base full_txt model language len.
Let chunk (i : nat) : path := CHUNKS_DIR // chunk_name base i.
Let part (i : nat) : path := CHUNKS_DIR // part_name base i.



End Stages.



(** ** Facts about substrings and replacement *)

Section Substrings.

#[local] Arguments String.append : simpl nomatch.
#[local] Arguments Ascii.eqb : simpl never.

Lemma startswith_iff (p s : string) :
  PyStr.startswith p s = true <-> exists v, s = p ++ v.
Proof.
  revert s. induction p as [|a p IH]; intros s; simpl.
  - split; [intros _; now exists s | reflexivity].
  - destruct s as [|b s].
    + split; [discriminate | intros [v H]; discriminate].
    + rewrite andb_true_iff, IH. split.
      * intros [Hab [v ->]]. apply Ascii.eqb_eq in Hab as ->. now exists v.
      * intros [v [= -> ->]]. split; [apply Ascii.eqb_refl | now exists v].
Qed.

Lemma contains_iff (p s : string) :
  PyStr.contains p s = true <-> exists u v, s = u ++ p ++ v.
Proof.
  induction s as [|c s IH]; simpl.
  - rewrite orb_false_r, startswith_iff. split.
    + intros [v H]. now exists "", v.
    + intros (u & v & H). destruct u; [now exists v|discriminate].
  - rewrite orb_true_iff, startswith_iff, IH. split.
    + intros [[v H] | (u & v & ->)]; [now exists "", v | now exists (String c u), v].
    + intros (u & v & H). destruct u as [|d u].
      * left. now exists v.
      * injection H as -> ->. right. now exists u, v.
Qed.


(** A string without [old] is left as it is. *)
Lemma replace_absent (old new s : string) :
  PyStr.contains old s = false -> PyStr.replace old new s = s.
Proof.
  unfold PyStr.replace. induction s as [|c s IH]; [reflexivity|].
  simpl. intros H. apply orb_false_iff in H as [H1 H2].
  rewrite H1. now rewrite IH.
Qed.

Lemma strip_fences_absent (t : string) :
  PyStr.contains fence t = false -> strip_fences t = t.
Proof.
  intros H. unfold strip_fences. rewrite (replace_absent fence_html).
  - now apply replace_absent.
  - destruct (PyStr.contains fence_html t) eqn:E; [|reflexivity].
    apply contains_iff in E as (u & v & ->). rewrite <- H. symmetry.
    apply contains_iff. now exists u, ("html" ++ v).
Qed.

Lemma replace_fence_cons (c : ascii) (r : string) :
  PyStr.replace fence "" (String c r)
  = if PyStr.startswith fence (String c r)
    then PyStr.replace_go fence "" 2 r
    else String c (PyStr.replace fence "" r).
Proof. reflexivity. Qed.

(** Where no two backquotes stand at the head, none do afterwards. *)
Lemma replace_fence_head (s : string) :
  PyStr.startswith "``" s = false ->
  PyStr.startswith "``" (PyStr.replace fence "" s) = false.
Proof.
  destruct s as [|c r]; [reflexivity|]. rewrite replace_fence_cons.
  destruct r as [|x r]; [|rewrite replace_fence_cons]; intros H; simpl in *;
    repeat (match goal with
            | H : context [Ascii.eqb ?a ?b] |- _ =>
                destruct (Ascii.eqb_spec a b); try contradiction; try discriminate
            | |- context [Ascii.eqb ?a ?b] =>
                destruct (Ascii.eqb_spec a b); try contradiction; try discriminate
            end; simpl in *); try reflexivity; try discriminate.
Qed.

(** After the closing marker has been replaced, none is left. *)
Lemma replace_fence_clean (s : string) :
  PyStr.contains fence (PyStr.replace fence "" s) = false.
Proof.
  remember (String.length s) as n eqn:Hn.
  assert (Hle : String.length s <= n) by lia. clear Hn.
  revert s Hle. induction n as [|n IH]; intros s Hle.
  - destruct s; [reflexivity | simpl in Hle; lia].
  - destruct s as [|c r]; [reflexivity|]. simpl in Hle.
    rewrite replace_fence_cons.
    destruct (PyStr.startswith fence (String c r)) eqn:E.
    + apply startswith_iff in E as [v E]. injection E as -> ->.
      change (PyStr.replace_go fence "" 2 ("``" ++ v)) with (PyStr.replace fence "" v).
      apply IH. simpl in Hle. lia.
    + change (PyStr.contains fence (String c (PyStr.replace fence "" r)))
        with (PyStr.startswith fence (String c (PyStr.replace fence "" r))
              || PyStr.contains fence (PyStr.replace fence "" r)).
      rewrite IH by lia. rewrite orb_false_r.
      simpl in *. destruct (Ascii.eqb_spec "`" c) as [<-|Hc]; [|reflexivity].
      simpl in *. now apply replace_fence_head.
Qed.

Lemma strip_fences_clean (t : string) :
  PyStr.contains fence (strip_fences t) = false.
Proof. apply replace_fence_clean. Qed.

Lemma replace_go_skip (old new o b : string) :
  PyStr.replace_go old new (String.length o) (o ++ b) = PyStr.replace_go old new 0 b.
Proof.
  induction o as [|c o IH]; [now destruct b|]. exact IH.
Qed.

(** The text before the first occurrence is kept, the occurrence is
    replaced, and the search goes on behind it. *)
Lemma replace_first (old new u v : string) :
  old <> "" ->
  (forall j, j < String.length u ->
     PyStr.startswith old (PyStr.drop j (u ++ old ++ v)) = false) ->
  PyStr.replace old new (u ++ old ++ v) = u ++ new ++ PyStr.replace old new v.
Proof.
  intros Hold. unfold PyStr.replace. induction u as [|c u IH]; intros H.
  - destruct old as [|a o]; [contradiction|].
    change ("" ++ String a o ++ v) with (String a (o ++ v)).
    cbn [PyStr.replace_go].
    assert (E : PyStr.startswith (String a o) (String a (o ++ v)) = true)
      by (apply startswith_iff; now exists v).
    rewrite E. simpl String.length. rewrite ?Nat.sub_0_r.
    change (S (String.length o) - 1) with (String.length o - 0).
    rewrite ?Nat.sub_0_r, replace_go_skip. reflexivity.
  - change (String c u ++ old ++ v) with (String c (u ++ old ++ v)).
    assert (H0 : PyStr.startswith old (String c (u ++ old ++ v)) = false)
      by (apply (H 0); simpl; lia).
    cbn [PyStr.replace_go]. rewrite H0.
    rewrite IH; [reflexivity|]. intros j Hj. apply (H (S j)). simpl. lia.
Qed.

End Substrings.

(** ** Trees *)

Lemma node_ind (P : node -> Prop) :
  (forall s, P (Text s)) ->
  (forall tag attrs cs, Forall P cs -> P (Elem tag attrs cs)) ->
  forall n, P n.
Proof.
  intros HT HE. fix IH 1. intros [s|tag attrs cs]; [apply HT|].
  apply HE. induction cs as [|c cs IHcs]; constructor; [apply IH | exact IHcs].
Qed.

(** ** Fence stripping (C6) *)

Lemma soup_ind (P : soup -> Prop) :
  (forall k s, P (Str k s)) ->
  (forall tag attrs cs, Forall P cs -> P (Tag tag attrs cs)) ->
  forall n, P n.
Proof.
  intros HT HE. fix IH 1. intros [k s|tag attrs cs]; [apply HT|].
  apply HE. induction cs as [|c cs IHcs]; constructor; [apply IH | exact IHcs].
Qed.

Lemma sanitize_shape (l : list node) :
  map shape_of (map sanitize_node l) = map shape_of l.
Proof.
  induction l as [|n l IHl]; [reflexivity|]. simpl. f_equal; [|exact IHl]. clear IHl.
  induction n as [s|tag attrs cs IH] using node_ind; simpl.
  - now destruct (PyStr.contains fence s).
  - f_equal. induction IH as [|c cs Hc _ IHcs]; [reflexivity|].
    simpl. now rewrite Hc, IHcs.
Qed.

Lemma sanitize_texts (l : list node) :
  texts (map sanitize_node l) = map strip_fences (texts l).
Proof.
  unfold texts. induction l as [|n l IHl]; [reflexivity|].
  simpl. rewrite map_app, <- IHl. f_equal. clear IHl.
  induction n as [s|tag attrs cs IH] using node_ind; simpl.
  - destruct (PyStr.contains fence s) eqn:E; [reflexivity|].
    simpl. now rewrite strip_fences_absent.
  - induction IH as [|c cs Hc _ IHcs]; [reflexivity|].
    simpl. now rewrite map_app, Hc, IHcs.
Qed.

(** The loop leaves the elements, their attributes and their nesting. *)
Lemma sanitize_soup_shape (l : list soup) :
  map soup_shape (map sanitize_soup l) = map soup_shape l.
Proof.
  induction l as [|n l IHl]; [reflexivity|]. simpl. f_equal; [|exact IHl]. clear IHl.
  induction n as [k s|tag attrs cs IH] using soup_ind; simpl.
  - now destruct (PyStr.contains fence s).
  - f_equal. induction IH as [|c cs Hc _ IHcs]; [reflexivity|].
    simpl. now rewrite Hc, IHcs.
Qed.

(** The loop works on the strings one by one. *)
Lemma sanitize_soup_strings (l : list soup) :
  flat_map soup_strings (map sanitize_soup l)
  = map sanitize_string (flat_map soup_strings l).
Proof.
  induction l as [|n l IHl]; [reflexivity|].
  simpl. rewrite map_app, <- IHl. f_equal. clear IHl.
  induction n as [k s|tag attrs cs IH] using soup_ind; simpl.
  - unfold sanitize_string. simpl. now destruct (PyStr.contains fence s).
  - induction IH as [|c cs Hc _ IHcs]; [reflexivity|].
    simpl. now rewrite map_app, Hc, IHcs.
Qed.

(** On the trees of the parser model, the loop is [sanitize_node]. *)
Lemma sanitize_soup_of (l : list node) :
  map soup_of (map sanitize_node l) = map sanitize_soup (map soup_of l).
Proof.
  induction l as [|n l IHl]; [reflexivity|]. simpl. f_equal; [|exact IHl]. clear IHl.
  induction n as [s|tag attrs cs IH] using node_ind; simpl.
  - now destruct (PyStr.contains fence s).
  - f_equal. induction IH as [|c cs Hc _ IHcs]; [reflexivity|].
    simpl. now rewrite Hc, IHcs.
Qed.

Section Markers.

#[local] Arguments String.append : simpl nomatch.
#[local] Arguments Ascii.eqb : simpl never.

(** No occurrence of a text that starts with a backquote starts inside a
    text without a backquote. *)
Lemma replace_plain_prefix (old new x r : string) :
  PyStr.startswith "`" old = true -> no_backquote x = true ->
  PyStr.replace old new (x ++ r) = x ++ PyStr.replace old new r.
Proof.
  intros Hold Hx. unfold PyStr.replace. induction x as [|c x IH]; [reflexivity|].
  unfold no_backquote in Hx. simpl in Hx. apply andb_true_iff in Hx as [Hc Hx].
  change (String c x ++ r) with (String c (x ++ r)).
  change (String c x ++ PyStr.replace_go old new 0 r)
    with (String c (x ++ PyStr.replace_go old new 0 r)).
  cbn [PyStr.replace_go].
  assert (E : PyStr.startswith old (String c (x ++ r)) = false).
  { destruct old as [|a old]; [discriminate|]. simpl in Hold. simpl.
    rewrite andb_true_r in Hold. apply Ascii.eqb_eq in Hold. subst a.
    apply negb_true_iff in Hc. rewrite Ascii.eqb_sym, Hc. reflexivity. }
  rewrite E. f_equal. now apply IH.
Qed.

Lemma strip_fences_plain_prefix (x r : string) :
  no_backquote x = true -> strip_fences (x ++ r) = x ++ strip_fences r.
Proof.
  intros Hx. unfold strip_fences.
  now rewrite !replace_plain_prefix.
Qed.

Lemma strip_fences_opening (r : string) :
  strip_fences (fence_html ++ r) = strip_fences r.
Proof. reflexivity. Qed.

Lemma strip_fences_closing (r : string) :
  PyStr.startswith "html" r = false ->
  PyStr.startswith "`html" r = false ->
  PyStr.startswith "``html" r = false ->
  strip_fences (fence ++ r) = strip_fences r.
Proof.
  intros H1 H2 H3. unfold strip_fences.
  assert (E : PyStr.replace fence_html "" (fence ++ r)
              = fence ++ PyStr.replace fence_html "" r).
  { unfold PyStr.replace, fence.
    change ("```" ++ r) with (String "`" (String "`" (String "`" r))).
    cbn [PyStr.replace_go].
    replace (PyStr.startswith fence_html (String "`" (String "`" (String "`" r))))
      with (PyStr.startswith "html" r) by reflexivity.
    rewrite H1.
    replace (PyStr.startswith fence_html (String "`" (String "`" r)))
      with (PyStr.startswith "`html" r) by (now destruct r).
    rewrite H2.
    replace (PyStr.startswith fence_html (String "`" r))
      with (PyStr.startswith "``html" r) by (now destruct r as [|a [|b r]]).
    now rewrite H3. }
  rewrite E. reflexivity.
Qed.

Lemma fenced_head (l : list (marker * string)) :
  fenced l = "" \/ exists v, fenced l = fence ++ v.
Proof.
  destruct l as [|[[] x] l]; [now left| |]; right; simpl.
  - now exists ("html" ++ x ++ fenced l).
  - now exists (x ++ fenced l).
Qed.

(** What follows a closing marker starts none of the forms of [html] that
    would make an opening marker of it, or of its last backquotes. *)
Lemma after_closing (x : string) (l : list (marker * string)) :
  no_backquote x = true -> PyStr.startswith "html" x = false ->
  PyStr.startswith "html" (x ++ fenced l) = false
  /\ PyStr.startswith "`html" (x ++ fenced l) = false
  /\ PyStr.startswith "``html" (x ++ fenced l) = false.
Proof.
  intros Hx Hh. destruct x as [|c x].
  - destruct (fenced_head l) as [->|[v ->]]; now repeat split.
  - unfold no_backquote in Hx. simpl in Hx. apply andb_true_iff in Hx as [Hc Hx].
    apply negb_true_iff in Hc.
    change (String c x ++ fenced l) with (String c (x ++ fenced l)).
    split; [|split].
    + revert Hh Hx. generalize (fenced_head l). generalize (fenced l). intros f Hf.
      simpl. destruct (Ascii.eqb "h" c); [|reflexivity]. simpl.
      destruct x as [|c2 x]; simpl.
      { intros _ _. destruct Hf as [->|[v ->]]; reflexivity. }
      destruct (Ascii.eqb "t" c2); [|reflexivity]. simpl.
      intros Hh Hx. apply andb_true_iff in Hx as [_ Hx].
      destruct x as [|c3 x]; simpl.
      { destruct Hf as [->|[v ->]]; reflexivity. }
      simpl in Hh. destruct (Ascii.eqb "m" c3); [|reflexivity]. simpl in *.
      apply andb_true_iff in Hx as [_ Hx].
      destruct x as [|c4 x]; simpl.
      { destruct Hf as [->|[v ->]]; reflexivity. }
      simpl in Hh. destruct (Ascii.eqb "l" c4); [discriminate|reflexivity].
    + simpl. rewrite Ascii.eqb_sym, Hc. reflexivity.
    + simpl. rewrite Ascii.eqb_sym, Hc. reflexivity.
Qed.

(** Where every backquote belongs to a marker, the markers go and the
    text around them stays, in its order. *)
Lemma strip_fences_fenced (x0 : string) (l : list (marker * string)) :
  no_backquote x0 = true -> forallb piece_ok l = true ->
  strip_fences (x0 ++ fenced l) = x0 ++ pieces l.
Proof.
  intros H0 Hl. rewrite strip_fences_plain_prefix by exact H0. f_equal. clear x0 H0.
  induction l as [|[m x] l IH]; [reflexivity|].
  simpl in Hl. apply andb_true_iff in Hl as [Hp Hl].
  unfold piece_ok in Hp. simpl in Hp. apply andb_true_iff in Hp as [Hx Hm].
  cbn [fenced pieces fold_right snd]. fold (pieces l).
  destruct m; cbn [marker_text].
  - rewrite strip_fences_opening, strip_fences_plain_prefix by exact Hx.
    now rewrite IH.
  - apply negb_true_iff in Hm.
    destruct (after_closing x l Hx Hm) as (H1 & H2 & H3).
    rewrite strip_fences_closing by assumption.
    rewrite strip_fences_plain_prefix by exact Hx. now rewrite IH.
Qed.

End Markers.

(** C6, as stated: the line break that follows the opening marker is text
    of the same text node and stays. *)
Lemma fenced_fragment_keeps_line_break :
  let raw := "```html" ++ Html.newline ++ "<section><h2>Skills</h2>X</section>```" in
  supported raw = true
  /\ sanitize_html raw = Html.newline ++ "<section><h2>Skills</h2>X</section>"
  /\ sanitize_html raw <> "<section><h2>Skills</h2>X</section>".
Proof. vm_compute. repeat split. discriminate. Qed.

(** A comment that holds a marker is a string of the tree like any other:
    the loop replaces it by text, which is then part of the page. *)
Lemma fenced_comment_becomes_text :
  sanitize_soup (Tag "p" "" [Str KComment "```html draft"; Str KText "x"])
  = Tag "p" "" [Str KText " draft"; Str KText "x"].
Proof. reflexivity. Qed.

(** C6 (amended): fence stripping leaves the elements, their attributes and
    their nesting as they are, and replaces every string of the tree that
    holds a marker (a text, and also a comment, a CDATA section, a
    processing instruction, a declaration or a document type, which becomes
    text) by that string without the markers; the strings without a marker
    stay as they are.  No marker is left in a string, a string without a
    marker is unchanged, and where every backquote of a string belongs to a
    marker the result is the text around the markers, whole and in its
    order.  In general the result is what the two replacements make of the
    string, the opening marker first: each keeps the text before the first
    occurrence of its marker, drops the occurrence and goes on behind it,
    and keeps a text without its marker.  On the trees of the parser model
    the loop is [sanitize_node].
    The fenced fragment of the scenario becomes the section preceded by the
    line break that followed the opening marker. *)
Theorem fence_stripping_touches_text_only :
  (forall l, map soup_shape (map sanitize_soup l) = map soup_shape l)
  /\ (forall l, flat_map soup_strings (map sanitize_soup l)
                = map sanitize_string (flat_map soup_strings l))
  /\ (forall l, map soup_of (map sanitize_node l) = map sanitize_soup (map soup_of l))
  /\ (forall t, PyStr.contains fence (strip_fences t) = false)
  /\ (forall t, PyStr.contains fence t = false -> strip_fences t = t)
  /\ (forall x0 l, no_backquote x0 = true -> forallb piece_ok l = true ->
        strip_fences (x0 ++ fenced l) = x0 ++ pieces l)
  /\ (forall t, strip_fences t = PyStr.replace fence "" (PyStr.replace fence_html "" t))
  /\ (forall m u v,
        (forall j, j < String.length u ->
           PyStr.startswith (marker_text m) (PyStr.drop j (u ++ marker_text m ++ v)) = false) ->
        PyStr.replace (marker_text m) "" (u ++ marker_text m ++ v)
        = u ++ PyStr.replace (marker_text m) "" v)
  /\ (forall m t, PyStr.contains (marker_text m) t = false ->
        PyStr.replace (marker_text m) "" t = t)
  /\ supported ("```html" ++ Html.newline ++ "<section><h2>Skills</h2>X</section>```")
     = true
  /\ sanitize_html
       ("```html" ++ Html.newline ++ "<section><h2>Skills</h2>X</section>```")
     = Html.newline ++ "<section><h2>Skills</h2>X</section>".
Proof.
  split; [exact sanitize_soup_shape|]. split; [exact sanitize_soup_strings|].
  split; [exact sanitize_soup_of|].
  split; [exact strip_fences_clean|]. split; [exact strip_fences_absent|].
  split; [exact strip_fences_fenced|].
  split; [reflexivity|].
  split; [intros m u v H; apply (replace_first (marker_text m) "" u v);
          [now destruct m | exact H]|].
  split; [intros m t; apply replace_absent|].
  split; vm_compute; reflexivity.
Qed.

(** ** Deduplication of sections (C5) *)

(** The keys seen after the sections of [l] have been met. *)
Lemma dedup_node_elem (seen : gset string) (tag attrs : string) (cs : list node) :
  dedup_node seen (Elem tag attrs cs) =
    let keep seen :=
      (Some (Elem tag attrs (fst (dedup_nodes seen cs))), snd (dedup_nodes seen cs)) in
    if String.eqb tag "section" then
      match Html.find_tag "h2" cs with
      | Some h2 =>
          let title := PyStr.strip (Html.get_text h2) in
          if decide (title ∈ seen) then (None, seen) else keep ({[ title ]} ∪ seen)
      | None => keep seen
      end
    else keep seen.
Proof.
  assert (E : forall seen,
    (fix walk (seen : gset string) (l : list node) : list node * gset string :=
       match l with
       | [] => ([], seen)
       | c :: r =>
           match dedup_node seen c with
           | (c', seen1) =>
               match walk seen1 r with
               | (r', seen2) =>
                   (match c' with Some c'' => c'' :: r' | None => r' end, seen2)
               end
           end
       end) seen cs = dedup_nodes seen cs) by reflexivity.
  cbn [dedup_node]. cbv zeta.
  destruct (String.eqb tag "section"); [destruct (Html.find_tag "h2" cs);
    [destruct (decide _); [reflexivity|]|]|];
    rewrite E; now destruct (dedup_nodes _ cs).
Qed.

Lemma dedup_nodes_cons (seen : gset string) (c : node) (r : list node) :
  dedup_nodes seen (c :: r) =
    (match fst (dedup_node seen c) with
     | Some c' => c' :: fst (dedup_nodes (snd (dedup_node seen c)) r)
     | None => fst (dedup_nodes (snd (dedup_node seen c)) r)
     end,
     snd (dedup_nodes (snd (dedup_node seen c)) r)).
Proof.
  simpl. destruct (dedup_node seen c) as [[c'|] seen1]; cbn [fst snd];
    now destruct (dedup_nodes seen1 r).
Qed.

(** A forest without sections is left as it is. *)
Lemma dedup_without_sections (l : list node) (seen : gset string) :
  sections l = [] -> dedup_nodes seen l = (l, seen).
Proof.
  unfold sections. revert seen. induction l as [|n l IHl]; intros seen H; [reflexivity|].
  simpl in H. apply app_eq_nil in H as [Hn Hl].
  rewrite dedup_nodes_cons.
  assert (En : dedup_node seen n = (Some n, seen)).
  { clear IHl Hl. revert seen Hn.
    induction n as [s|tag attrs cs IH] using node_ind; intros seen Hn; [reflexivity|].
    rewrite dedup_node_elem. cbv zeta. simpl in Hn.
    destruct (String.eqb tag "section"); [discriminate|]. simpl in Hn.
    assert (E : dedup_nodes seen cs = (cs, seen)).
    { clear tag attrs. revert seen.
      induction IH as [|c cs Hc _ IHcs]; intros seen; [reflexivity|].
      simpl in Hn. apply app_eq_nil in Hn as [Hc' Hcs].
      rewrite dedup_nodes_cons, (Hc seen Hc'). cbn [fst snd].
      now rewrite (IHcs Hcs seen). }
    now rewrite E. }
  rewrite En. cbn [fst snd]. now rewrite (IHl seen Hl).
Qed.

Lemma keep_first_app (seen : gset string) (l1 l2 : list node) :
  keep_first seen (l1 ++ l2)
  = (keep_first seen l1 ++ keep_first (seen_after seen l1) l2)%list.
Proof.
  revert seen. induction l1 as [|n l1 IH]; intros seen; [reflexivity|].
  simpl. unfold see. destruct (title_of n) as [key|]; [destruct (decide _)|];
    simpl; now rewrite IH.
Qed.

Lemma seen_after_app (seen : gset string) (l1 l2 : list node) :
  seen_after seen (l1 ++ l2) = seen_after (seen_after seen l1) l2.
Proof. apply fold_left_app. Qed.

Section Dedup.

Let kept (r : option node * gset string) : list node := option_list (fst r).

Lemma sections_cons (n : node) (l : list node) :
  sections (n :: l) = (sections_node n ++ sections l)%list.
Proof. reflexivity. Qed.

Lemma dedup_nodes_split (seen : gset string) (c : node) (r : list node) :
  fst (dedup_nodes seen (c :: r))
  = (kept (dedup_node seen c) ++ fst (dedup_nodes (snd (dedup_node seen c)) r))%list
  /\ snd (dedup_nodes seen (c :: r)) = snd (dedup_nodes (snd (dedup_node seen c)) r).
Proof.
  rewrite dedup_nodes_cons. unfold kept. cbn [fst snd].
  now destruct (fst (dedup_node seen c)).
Qed.

(** From the nodes to the forest. *)
Lemma dedup_forest (l : list node) :
  Forall (fun n => forall seen,
            sections (kept (dedup_node seen n)) = keep_first seen (sections_node n)
            /\ snd (dedup_node seen n) = seen_after seen (sections_node n)) l ->
  forall seen,
    sections (fst (dedup_nodes seen l)) = keep_first seen (sections l)
    /\ snd (dedup_nodes seen l) = seen_after seen (sections l).
Proof.
  induction 1 as [|n l Hn _ IH]; intros seen; [now split|].
  destruct (dedup_nodes_split seen n l) as [-> ->].
  destruct (Hn seen) as [H1 H2]. destruct (IH (snd (dedup_node seen n))) as [H3 H4].
  rewrite sections_cons, keep_first_app, seen_after_app. unfold sections in *.
  rewrite flat_map_app. rewrite H1, H3, H4, H2. now split.
Qed.

Lemma dedup_flat_node (n : node) :
  flat_node n = true ->
  forall seen,
    sections (kept (dedup_node seen n)) = keep_first seen (sections_node n)
    /\ snd (dedup_node seen n) = seen_after seen (sections_node n).
Proof.
  induction n as [s|tag attrs cs IH] using node_ind; intros Hflat seen; [now split|].
  simpl in Hflat. apply andb_true_iff in Hflat as [Hcs Hsec].
  assert (Hforest : forall seen,
            sections (fst (dedup_nodes seen cs)) = keep_first seen (sections cs)
            /\ snd (dedup_nodes seen cs) = seen_after seen (sections cs)).
  { apply dedup_forest.
    apply Forall_forall. intros c Hc. rewrite Forall_forall in IH.
    apply (IH c Hc). rewrite forallb_forall in Hcs. apply Hcs.
    now apply list_elem_of_In. }
  rewrite dedup_node_elem. cbv zeta. unfold kept.
  simpl sections_node. unfold seen_after, see.
  destruct (String.eqb tag "section") eqn:Etag.
  - assert (Hnone : sections cs = []).
    { unfold sections. now destruct (flat_map sections_node cs). }
    fold (sections cs). rewrite Hnone. simpl. unfold title_of.
    destruct (Html.find_tag "h2" cs) as [h2|]; simpl.
    + destruct (decide _); [now split|].
      rewrite dedup_without_sections by assumption. simpl.
      unfold sections. simpl. rewrite Etag, app_nil_r.
      fold (sections cs). now rewrite Hnone.
    + rewrite dedup_without_sections by assumption. simpl.
      unfold sections. simpl. rewrite Etag, app_nil_r.
      fold (sections cs). now rewrite Hnone.
  - simpl. destruct (Hforest seen) as [H1 H2]. split; [|exact H2].
    rewrite Etag, app_nil_r. exact H1.
Qed.

(** In a forest where no section lies inside another, the sections that are
    left are those the specification keeps. *)
Lemma dedup_flat (l : list node) (seen : gset string) :
  flat l = true ->
  sections (fst (dedup_nodes seen l)) = keep_first seen (sections l).
Proof.
  intros Hflat.
  apply dedup_forest.
  apply Forall_forall. intros n Hn. apply dedup_flat_node.
  unfold flat in Hflat. rewrite forallb_forall in Hflat. apply Hflat.
  now apply list_elem_of_In.
Qed.

(** Nothing but sections is removed. *)
Lemma dedup_prune_node (n : node) (seen : gset string) :
  prune (kept (dedup_node seen n)) = prune_node n.
Proof.
  revert seen. induction n as [s|tag attrs cs IH] using node_ind; intros seen;
    [reflexivity|].
  assert (Hforest : forall seen, prune (fst (dedup_nodes seen cs)) = prune cs).
  { clear tag attrs. induction IH as [|c cs Hc _ IHcs]; intros seen'; [reflexivity|].
    destruct (dedup_nodes_split seen' c cs) as [-> _].
    unfold prune in *. rewrite flat_map_app. simpl.
    now rewrite Hc, IHcs. }
  rewrite dedup_node_elem. cbv zeta. unfold kept, prune. simpl prune_node.
  destruct (String.eqb tag "section") eqn:Etag.
  - destruct (Html.find_tag "h2" cs); [destruct (decide _)|]; simpl;
      now rewrite ?Etag.
  - simpl. rewrite Etag, app_nil_r. fold (prune (fst (dedup_nodes seen cs))).
    now rewrite Hforest.
Qed.

Lemma dedup_prune (l : list node) (seen : gset string) :
  prune (fst (dedup_nodes seen l)) = prune l.
Proof.
  revert seen. induction l as [|n l IH]; intros seen; [reflexivity|].
  destruct (dedup_nodes_split seen n l) as [-> _].
  unfold prune in *. rewrite flat_map_app. simpl.
  now rewrite dedup_prune_node, IH.
Qed.

End Dedup.

(** What [keep_first] keeps: a key has been seen when it is the title of a
    section met so far. *)
Lemma elem_of_see (key : string) (seen : gset string) (n : node) :
  key ∈ see seen n <-> key ∈ seen \/ title_of n = Some key.
Proof.
  unfold see. destruct (title_of n) as [k|]; [destruct (decide (k ∈ seen))|].
  - split; [auto | intros [H|[= ->]]; auto].
  - rewrite elem_of_union, elem_of_singleton.
    split; [intros [->|H]; auto | intros [H|[= ->]]; auto].
  - split; [auto | intros [H|H]; [auto | discriminate]].
Qed.

Lemma elem_of_seen_after (key : string) (seen : gset string) (l : list node) :
  key ∈ seen_after seen l <-> key ∈ seen \/ Some key ∈ map title_of l.
Proof.
  revert seen. induction l as [|n l IH]; intros seen.
  - simpl. split; [now left | intros [H|H]; [exact H | inversion H]].
  - change (seen_after seen (n :: l)) with (seen_after (see seen n) l).
    rewrite IH, elem_of_see. simpl. rewrite elem_of_cons.
    split; [intros [[H|H]|H] | intros [H|[H|H]]]; auto.
Qed.

(** The first section of a title stays, behind what stays of the sections
    before it. *)
Lemma keep_first_keeps_first (l1 l2 : list node) (n : node) (key : string) :
  title_of n = Some key -> Some key ∉ map title_of l1 ->
  keep_first ∅ (l1 ++ n :: l2)
  = (keep_first ∅ l1 ++ n :: keep_first (seen_after ∅ (l1 ++ [n])) l2)%list.
Proof.
  intros Hn Hl1. rewrite keep_first_app, seen_after_app. simpl. unfold see.
  rewrite Hn.
  destruct (decide (key ∈ seen_after ∅ l1)) as [Hin|_]; [|reflexivity].
  apply elem_of_seen_after in Hin as [Hin|Hin]; [|contradiction].
  now apply not_elem_of_empty in Hin.
Qed.

(** A later section of the same title goes. *)
Lemma keep_first_drops_later (l1 l2 : list node) (n : node) (key : string) :
  title_of n = Some key -> Some key ∈ map title_of l1 ->
  keep_first ∅ (l1 ++ n :: l2)
  = (keep_first ∅ l1 ++ keep_first (seen_after ∅ l1) l2)%list.
Proof.
  intros Hn Hl1. rewrite keep_first_app. simpl. rewrite Hn.
  destruct (decide (key ∈ seen_after ∅ l1)) as [_|Hout]; [reflexivity|].
  exfalso. apply Hout, elem_of_seen_after. now right.
Qed.

(** A section without a heading stays. *)
Lemma keep_first_keeps_untitled (l1 l2 : list node) (n : node) :
  title_of n = None ->
  keep_first ∅ (l1 ++ n :: l2)
  = (keep_first ∅ l1 ++ n :: keep_first (seen_after ∅ l1) l2)%list.
Proof. intros Hn. rewrite keep_first_app. simpl. now rewrite Hn. Qed.

Section Nested.

Let kept (r : option node * gset string) : list node := option_list (fst r).

Lemma covered_node_elem (seen : gset string) (tag attrs : string) (cs : list node) :
  covered_node seen (Elem tag attrs cs)
  = if String.eqb tag "section" then
      if dropped seen (Elem tag attrs cs)
      then forallb (dropped seen) (flat_map sections_node cs)
      else covered (see seen (Elem tag attrs cs)) cs
    else covered seen cs.
Proof.
  assert (E : forall seen,
    (fix inner (seen : gset string) (l : list node) : bool :=
       match l with
       | [] => true
       | c :: r => covered_node seen c && inner (seen_after seen (sections_node c)) r
       end) seen cs = covered seen cs).
  { reflexivity. }
  cbn [covered_node]. cbv zeta. now rewrite !E.
Qed.

(** Sections whose keys have all been seen: none is kept, and nothing
    new is seen. *)
Lemma keep_first_all_dropped (seen : gset string) (l : list node) :
  forallb (dropped seen) l = true ->
  keep_first seen l = [] /\ seen_after seen l = seen.
Proof.
  induction l as [|n l IH]; [now split|]. simpl. intros H.
  apply andb_true_iff in H as [Hn Hl]. unfold dropped in Hn. unfold see.
  destruct (title_of n) as [key|]; [|discriminate].
  apply bool_decide_eq_true in Hn.
  destruct (decide (key ∈ seen)); [|contradiction]. now apply IH.
Qed.

(** From the nodes to the forest. *)
Lemma dedup_covered_forest (l : list node) :
  Forall (fun n => forall seen, covered_node seen n = true ->
            map own (sections (kept (dedup_node seen n)))
            = map own (keep_first seen (sections_node n))
            /\ snd (dedup_node seen n) = seen_after seen (sections_node n)) l ->
  forall seen, covered seen l = true ->
    map own (sections (fst (dedup_nodes seen l))) = map own (keep_first seen (sections l))
    /\ snd (dedup_nodes seen l) = seen_after seen (sections l).
Proof.
  induction 1 as [|n l Hn _ IH]; intros seen Hcov; [now split|].
  cbn [covered] in Hcov. apply andb_true_iff in Hcov as [Hc Hr].
  destruct (dedup_nodes_split seen n l) as [E1 E2]. fold (kept (dedup_node seen n)) in E1.
  rewrite E1, E2.
  destruct (Hn seen Hc) as [H1 H2]. rewrite <- H2 in Hr.
  destruct (IH (snd (dedup_node seen n)) Hr) as [H3 H4].
  rewrite sections_cons, keep_first_app, seen_after_app. unfold sections in *.
  rewrite flat_map_app, !map_app. rewrite H1, H3, H4, H2. now split.
Qed.

Lemma dedup_covered_node (n : node) (seen : gset string) :
  covered_node seen n = true ->
  map own (sections (kept (dedup_node seen n))) = map own (keep_first seen (sections_node n))
  /\ snd (dedup_node seen n) = seen_after seen (sections_node n).
Proof.
  revert seen. induction n as [s|tag attrs cs IH] using node_ind; intros seen Hcov;
    [now split|].
  pose proof (dedup_covered_forest cs IH) as Hforest.
  rewrite covered_node_elem in Hcov.
  rewrite dedup_node_elem. cbv zeta. unfold kept.
  cbn [sections_node].
  destruct (String.eqb tag "section") eqn:Etag.
  - change (seen_after seen ([Elem tag attrs cs] ++ flat_map sections_node cs))
      with (seen_after (see seen (Elem tag attrs cs)) (sections cs)).
    change (keep_first seen ([Elem tag attrs cs] ++ flat_map sections_node cs))
      with (match title_of (Elem tag attrs cs) with
            | Some key =>
                if decide (key ∈ seen) then keep_first seen (sections cs)
                else Elem tag attrs cs :: keep_first ({[ key ]} ∪ seen) (sections cs)
            | None => Elem tag attrs cs :: keep_first seen (sections cs)
            end).
    unfold dropped, see in *.
    change (title_of (Elem tag attrs cs))
      with (option_map (fun h2 => PyStr.strip (Html.get_text h2)) (Html.find_tag "h2" cs))
      in *.
    destruct (Html.find_tag "h2" cs) as [h2|]; cbn [option_map] in *.
    + destruct (decide (PyStr.strip (Html.get_text h2) ∈ seen)) as [Hin|Hout].
      * rewrite bool_decide_eq_true_2 in Hcov by exact Hin.
        unfold sections.
        destruct (keep_first_all_dropped seen _ Hcov) as [-> ->]. now split.
      * rewrite bool_decide_eq_false_2 in Hcov by exact Hout.
        destruct (Hforest _ Hcov) as [H1 H2]. cbn [fst snd].
        split; [|exact H2].
        unfold sections at 1, option_list, option_rect. cbn [flat_map sections_node].
        rewrite Etag, app_nil_r.
        cbn [app map]. fold (sections (fst (dedup_nodes ({[PyStr.strip (Html.get_text h2)]} ∪ seen) cs))).
        rewrite H1. f_equal. cbn [own]. now rewrite dedup_prune.
    + destruct (Hforest _ Hcov) as [H1 H2]. cbn [fst snd].
      split; [|exact H2].
      unfold sections at 1, option_list, option_rect. cbn [flat_map sections_node]. rewrite Etag, app_nil_r.
      cbn [app map]. fold (sections (fst (dedup_nodes seen cs))).
      rewrite H1. f_equal. cbn [own]. now rewrite dedup_prune.
  - destruct (Hforest _ Hcov) as [H1 H2]. cbn [fst snd].
    split; [|exact H2].
    unfold sections at 1, option_list, option_rect. cbn [flat_map sections_node]. rewrite Etag, app_nil_r.
    cbn [app]. exact H1.
Qed.

(** In a forest where nothing that the specification keeps lies inside a
    section that goes, the sections that are left are those the
    specification keeps. *)
Lemma dedup_covered (l : list node) (seen : gset string) :
  covered seen l = true ->
  map own (sections (fst (dedup_nodes seen l))) = map own (keep_first seen (sections l)).
Proof.
  intros Hcov. apply dedup_covered_forest; [|exact Hcov].
  apply Forall_forall. intros n _ seen'. apply dedup_covered_node.
Qed.

End Nested.

(** C5, as stated, at a section that lies inside a duplicate: the section
    titled B is the first of its title, and it goes with the second section
    titled A, which contains it. *)
Lemma nested_first_section_is_removed :
  let html :=
    "<section><h2>A</h2>1</section><section><h2>A</h2>2<section><h2>B</h2>3</section></section>" in
  supported html = true
  /\ map title_of (sections (Html.parse html)) = [Some "A"; Some "A"; Some "B"]
  /\ deduplicate_sections html = "<section><h2>A</h2>1</section>"
  /\ map title_of (sections (Html.parse (deduplicate_sections html))) = [Some "A"].
Proof. vm_compute. repeat split. Qed.

(** C5 (amended): the key of a section that contains an [h2] is the
    trimmed text of its first [h2].  In a fragment where every section that
    lies inside a repeated section is itself a repetition (so in every
    fragment where no section lies inside another), the sections that
    deduplication leaves are, in document order, those that [keep_first]
    keeps: the first section of every key and every section without a
    heading, each with all of its content but the repeated sections inside
    it; nothing but sections is removed.  Where no section lies inside
    another, each section that is left is left as it was.  A fragment with
    sections keyed A, B, A, C, B is left with the first A, the first B and
    C, in this order. *)
Theorem first_section_of_each_title_is_kept (l : list node) :
  covered ∅ l = true ->
  let out := fst (dedup_nodes ∅ l) in
  map own (sections out) = map own (keep_first ∅ (sections l))
  /\ (flat l = true -> sections out = keep_first ∅ (sections l))
  /\ prune out = prune l
  /\ deduplicate_sections
       "<section><h2>A</h2>1</section><section><h2>B</h2>2</section><section><h2>A</h2>3</section><section><h2>C</h2>4</section><section><h2>B</h2>5</section>"
     = "<section><h2>A</h2>1</section><section><h2>B</h2>2</section><section><h2>C</h2>4</section>".
Proof.
  intros Hcov out. split; [now apply dedup_covered|].
  split; [intros Hflat; now apply dedup_flat|]. split; [apply dedup_prune|].
  vm_compute. reflexivity.
Qed.

Lemma first_section_of_each_title_is_kept_witness :
  let l := Html.parse
    "<p>intro</p><section><h2>A</h2>1<section><h2>B</h2>2</section><section><h2> A </h2>3</section></section><section>plain<section><h2>B</h2>4<section><h2>A</h2>5" in
  let out := fst (dedup_nodes ∅ l) in
  map title_of (sections l)
  = [Some "A"; Some "B"; Some "A"; Some "B"; Some "B"; Some "A"]
  /\ Html.render out
     = "<p>intro</p><section><h2>A</h2>1<section><h2>B</h2>2</section></section>"
  /\ map own (sections out) = map own (keep_first ∅ (sections l))
  /\ (flat l = true -> sections out = keep_first ∅ (sections l))
  /\ prune out = prune l
  /\ deduplicate_sections
       "<section><h2>A</h2>1</section><section><h2>B</h2>2</section><section><h2>A</h2>3</section><section><h2>C</h2>4</section><section><h2>B</h2>5</section>"
     = "<section><h2>A</h2>1</section><section><h2>B</h2>2</section><section><h2>C</h2>4</section>".
Proof.
  intros l. split; [vm_compute; reflexivity|]. split; [vm_compute; reflexivity|].
  apply (first_section_of_each_title_is_kept l). vm_compute. reflexivity.
Defined.

(** ** Characters and character references *)

Section Characters.

#[local] Arguments String.append : simpl nomatch.
#[local] Arguments Ascii.eqb : simpl never.








Lemma all_chars_app (p : ascii -> bool) (a b : string) :
  Html.all_chars p (a ++ b) = Html.all_chars p a && Html.all_chars p b.
Proof. induction a as [|c a IH]; [reflexivity|]. simpl. now rewrite IH, andb_assoc. Qed.

End Characters.

(** ** Reading back what was written *)

Section Relex.

#[local] Arguments String.append : simpl nomatch.
#[local] Arguments Ascii.eqb : simpl never.

















End Relex.

(** ** Building the tree of a serialised forest *)

Section Rebuild.

#[local] Arguments String.append : simpl nomatch.








End Rebuild.

(** ** What the parser produces is well formed *)

Section ParseWf.

#[local] Arguments String.append : simpl nomatch.
#[local] Arguments Ascii.eqb : simpl never.













End ParseWf.

(** ** A second pass of fence stripping (C9) *)

Section SecondPass.

#[local] Arguments String.append : simpl nomatch.







(** Fence stripping leaves a forest of clean texts as it is. *)
Lemma sanitize_clean (l : list node) :
  Forall clean (texts l) -> map sanitize_node l = l.
Proof.
  unfold texts. induction l as [|n l IHl]; intros H; [reflexivity|].
  simpl in H. apply Forall_app in H as [Hn Hl]. simpl. f_equal; [|now apply IHl].
  clear IHl Hl. induction n as [x|tag attrs cs IH] using node_ind; simpl in *.
  - inversion Hn as [|? ? Hx _]. unfold clean in Hx. now rewrite Hx.
  - f_equal. induction IH as [|c cs Hc _ IHcs]; [reflexivity|].
    simpl in Hn. apply Forall_app in Hn as [H1 H2]. simpl. f_equal; auto.
Qed.







End SecondPass.




(** ** Further facts *)

Lemma cleanup_when_exports_succeed_witness :
  let w := Oracle (fun _ => Some 700000%Z) (fun _ => "mp3") (fun _ => Exported)
             (fun p _ _ =>
                if decide (p = CHUNKS_DIR // "talk_part1.mp3")
                then EngineOutcome true "" (Some "first ten minutes")
                else EngineOutcome false "out of memory" (Some "half a line")) in
  let file_path := Path "uploads" "talk.wav" in
  let s' := snd (split_and_transcribe w file_path "small" "Russian"
                   (State {[ file_path := "RIFF" ]} [])) in
  fs s' !! file_path = None
  /\ exists started,
       exports (log s') = map (fun i => CHUNKS_DIR // chunk_name (stem file_path) i) started
       /\ forall i, i ∈ started -> gone (stem file_path) i s'.
Proof.
  intros w file_path.
  apply (cleanup_when_exports_succeed w file_path "small" "Russian"
           {[ file_path := "RIFF" ]}).
  intros p. reflexivity.
Defined.

(** Only [h2] counts as the heading of a section: two sections with the same
    [h3] are both kept. *)
Lemma other_headings_are_no_keys :
  deduplicate_sections "<section><h3>A</h3>1</section><section><h3>A</h3>2</section>"
  = "<section><h3>A</h3>1</section><section><h3>A</h3>2</section>".
Proof. vm_compute. reflexivity. Qed.

(** * Further properties of the code *)

(** ** Every run of the loop *)

Section Runs.

Context (w : oracle) (seg_ms : Z) (base model language : string) (len : Z).

Let full_txt : path := OUTPUT_DIR // (base ++ "_full.txt").
Let body := process_segment w seg_ms base full_txt model language len.
Let chunk (i : nat) : path := CHUNKS_DIR // chunk_name base i.
Let part (i : nat) : path := CHUNKS_DIR // part_name base i.
Let call (i : nat) : path * string * string := (chunk i, model, language).

Lemma for_each_app {A} (f : A -> M unit) (l1 l2 : list A) (s : state) :
  for_each f (l1 ++ l2)%list s =
    match for_each f l1 s with
    | (Ok _, s1) => for_each f l2 s1
    | (Raise e, s1) => (Raise e, s1)
    end.
Proof.
  revert s. induction l1 as [|x l1 IH]; intros s; simpl; [reflexivity|].
  unfold bind. destruct (f x s) as [[[]|e] s1]; [apply IH | reflexivity].
Qed.

(** The engine is run on a segment exactly when its export succeeded, and
    then with the model and the language of the invocation. *)
Lemma segment_engine_args (i : nat) (start : Z) (s : state) :
  engine_args (log (snd (body (i, start) s)))
  = (engine_args (log s)
     ++ match export w (chunk i) with Exported => [call i] | ExportFailed _ => [] end)%list.
Proof.
  unfold body.
  destruct (export w (chunk i)) as [|created] eqn:He.
  - destruct (exit_ok (whisper w (chunk i) model language)) eqn:Hx.
    + rewrite process_segment_engine_ok by assumption. cbv zeta.
      unfold after_engine. cbv zeta.
      destruct (wrote _); simpl;
        rewrite ?lookup_insert_ne by (symmetry; apply chunks_ne_output);
        rewrite ?lookup_insert_eq;
        repeat match goal with |- context [match ?o with Some _ => _ | None => _ end] =>
                 destruct o end;
        simpl; unfold engine_args; rewrite !omap_app; simpl; now rewrite !app_nil_r.
    + rewrite process_segment_engine_failed by assumption.
      unfold after_engine. cbv zeta.
      destruct (wrote _); simpl; unfold engine_args; rewrite !omap_app; simpl;
        now rewrite !app_nil_r.
  - rewrite (process_segment_export_failed _ _ _ _ _ _ _ _ _ created He).
    destruct created; simpl; unfold engine_args; rewrite omap_app; simpl;
      now rewrite !app_nil_r.
Qed.

(** A segment raises when its export fails. *)
Lemma segment_export_raises (i : nat) (start : Z) (s : state) (created : bool) :
  export w (chunk i) = ExportFailed created ->
  fst (body (i, start) s) = Raise IOFailure.
Proof.
  intros He. unfold body.
  now rewrite (process_segment_export_failed _ _ _ _ _ _ _ _ _ created He).
Qed.

(** The loop starts the segments in order and stops at the first that
    raises: the segments exported are the first [k] of the list, and the
    engine has been run on each of them, but possibly the last. *)
Lemma loop_trace (l : list (nat * Z)) (s : state) :
  exists k k',
    k <= length l
    /\ (k' = k
        \/ (S k' = k /\ exists x, l !! k' = Some x /\ export w (chunk (fst x)) <> Exported))
    /\ exports (log (snd (for_each body l s)))
       = (exports (log s) ++ map chunk (map fst (take k l)))%list
    /\ engine_args (log (snd (for_each body l s)))
       = (engine_args (log s) ++ map call (map fst (take k' l)))%list
    /\ (fst (for_each body l s) = Ok tt -> k = length l /\ k' = k).
Proof.
  revert s. induction l as [|[i start] l IH]; intros s.
  - exists 0, 0. simpl. rewrite !app_nil_r. repeat split; auto.
  - simpl for_each. unfold bind.
    assert (Hexp : exports (log (snd (body (i, start) s)))
                   = (exports (log s) ++ [chunk i])%list) by apply segment_exports.
    pose proof (segment_engine_args i start s) as Harg.
    pose proof (segment_export_raises i start s) as Hraise.
    destruct (body (i, start) s) as [[[]|e] s1]; simpl fst in *; simpl snd in *.
    + destruct (export w (chunk i)) as [|created];
        [|now specialize (Hraise created eq_refl)].
      destruct (IH s1) as (k & k' & Hk & Hkk & H1 & H2 & H3).
      exists (S k), (S k'). split; [simpl; lia|]. split; [|split; [|split]].
      * destruct Hkk as [->|(<- & x & Hx & Hne)]; [now left|].
        right. split; [reflexivity|]. now exists x.
      * rewrite H1, Hexp. simpl. now rewrite <- app_assoc.
      * rewrite H2, Harg. simpl. now rewrite <- app_assoc.
      * intros Hok. destruct (H3 Hok). simpl. lia.
    + destruct (export w (chunk i)) as [|created] eqn:He.
      * exists 1, 1. split; [simpl; lia|]. split; [now left|].
        simpl. repeat split; try assumption; try discriminate.
      * exists 1, 0. split; [simpl; lia|]. split.
        { right. split; [reflexivity|]. exists (i, start). split; [reflexivity|].
          simpl. fold (chunk i). now rewrite He. }
        simpl. repeat split; try assumption; try discriminate;
          try (now rewrite Harg, app_nil_r).
Qed.

(** A segment whose export and whose run of the engine succeed, and whose
    transcript the engine has written, goes through. *)
Lemma segment_succeeds (i : nat) (start : Z) (s : state) (bytes t : string) :
  export w (chunk i) = Exported ->
  exit_ok (whisper w (chunk i) model language) = true ->
  wrote (whisper w (chunk i) model language) = Some bytes ->
  PyStr.read_text bytes = Some t ->
  exists s1, body (i, start) s = (Ok tt, s1).
Proof.
  intros He Hx Ht Hr. unfold body. rewrite process_segment_engine_ok by assumption.
  cbv zeta. simpl fs at 1.
  rewrite lookup_insert_ne by (symmetry; apply chunks_ne_output).
  rewrite (after_engine_part w seg_ms base model language len i start s bytes Ht), Hr.
  eexists. reflexivity.
Qed.

Lemma loop_succeeds (l : list (nat * Z)) (s : state) :
  (forall i start, (i, start) ∈ l ->
     export w (chunk i) = Exported
     /\ exit_ok (whisper w (chunk i) model language) = true
     /\ exists bytes t,
          wrote (whisper w (chunk i) model language) = Some bytes
          /\ PyStr.read_text bytes = Some t) ->
  exists s', for_each body l s = (Ok tt, s').
Proof.
  revert s. induction l as [|[i start] l IH]; intros s H.
  - eexists. reflexivity.
  - destruct (H i start) as (He & Hx & bytes & t & Ht & Hr); [left|].
    destruct (segment_succeeds i start s bytes t He Hx Ht Hr) as [s1 E].
    destruct (IH s1) as [s' E']; [intros j st Hj; apply (H j st); now right|].
    exists s'. simpl. unfold bind. now rewrite E.
Qed.

(** A loop that goes through leaves no file of its segments. *)
Lemma loop_ok_gone (l : list (nat * Z)) (s s' : state) :
  for_each body l s = (Ok tt, s') ->
  forall i start, (i, start) ∈ l -> gone base i s'.
Proof.
  revert s. induction l as [|[j st] l IH]; intros s Hrun i start Hi.
  - inversion Hi.
  - pose proof (loop_ok_stages _ _ _ _ _ _ _ _ _ Hrun) as Hst.
    simpl in Hrun. unfold bind in Hrun at 1.
    assert (Hj : gone base j (snd (body (j, st) s))).
    { assert (He : export w (chunk j) = Exported) by (apply (Hst j st); left).
      exact (proj1 (segment_cleanup w seg_ms base model language len j st s He)). }
    destruct (body (j, st) s) as [[[]|e] s1] eqn:E; [|discriminate].
    apply elem_of_cons in Hi as [[= -> ->]|Hi]; [|now apply (IH s1 Hrun i start)].
    assert (H3 : gone base j (snd (for_each body l s1))).
    { destruct (loop_cleanup w seg_ms base model language len l s1) as (_ & _ & _ & H3).
      - intros k stk Hk. refine (proj1 (Hst k stk _)). now right.
      - apply H3, Hj. }
    now rewrite Hrun in H3.
Qed.

End Runs.

Lemma take_enumerate_fst {A} (l : list A) (n k : nat) :
  k <= length l -> map fst (take k (enumerate n l)) = seq n k.
Proof.
  revert n k. induction l as [|x l IH]; intros n [|k] Hk; simpl in *;
    try reflexivity; try lia.
  f_equal. apply IH. lia.
Qed.

(** The segments are started in order and the loop stops at the first
    failure. *)
Lemma run_trace (w : oracle) (file_path : path)
    (model language : string) (fs0 : gmap path string) :
  let chunk := fun i => CHUNKS_DIR // chunk_name (stem file_path) i in
  let run := split_and_transcribe w file_path model language (State fs0 []) in
  exists k k',
    exports (log (snd run)) = map chunk (seq 1 k)
    /\ engine_args (log (snd run)) = map (fun i => (chunk i, model, language)) (seq 1 k')
    /\ (k' = k \/ (S k' = k /\ export w (chunk k) <> Exported))
    /\ (decode w file_path = None -> k = 0)
    /\ (forall len, decode w file_path = Some len ->
          k <= length (segments SEGMENT_MS len)
          /\ (forall p, fst run = Ok p -> k' = length (segments SEGMENT_MS len))).
Proof.
  intros chunk run. unfold run, split_and_transcribe.
  rewrite split_and_transcribe_unfold. cbv zeta.
  destruct (decode w file_path) as [len|].
  - match goal with |- context [for_each ?b ?l ?s] =>
      destruct (loop_trace w SEGMENT_MS (stem file_path) model language len l s)
        as (k & k' & Hk & Hkk & Hexp & Harg & Hok)
    end.
    rewrite enumerate_length in Hk.
    exists k, k'.
    assert (Hk' : k' <= length (py_range 0 len SEGMENT_MS))
      by (destruct Hkk as [->|[<- _]]; lia).
    rewrite take_enumerate_fst in Hexp by assumption.
    rewrite take_enumerate_fst in Harg by assumption.
    destruct (for_each _ _ _) as [[[]|e] s2]; simpl fst in *; simpl snd in *.
    all: split; [unfold exports in *; simpl log; rewrite omap_app, Hexp; simpl;
                 now rewrite app_nil_r|].
    all: split; [unfold engine_args in *; simpl log; rewrite omap_app, Harg; simpl;
                 now rewrite app_nil_r|].
    all: split; [destruct Hkk as [->|(<- & [i start] & Hx & Hne)]; [now left|];
                 right; split; [reflexivity|];
                 apply enumerate_lookup in Hx as [-> _]; exact Hne|].
    all: split; [discriminate|].
    all: intros len' [= <-]; rewrite segments_length; split; [assumption|].
    + intros p _. destruct (Hok eq_refl) as [-> ->]. apply enumerate_length.
    + discriminate.
  - exists 0, 0. simpl. repeat split; auto; discriminate.
Qed.

(** Sequencing (X2): whatever the collaborators do, the segments are
    exported in order, from the first on and without a gap; the engine is
    run on each exported segment, in the same order, with the model and the
    language of the invocation, except that it is not run on a segment whose
    export failed, which is then the last; no segment is exported twice and
    the engine is not run twice on a segment; nothing is exported when the
    source cannot be decoded, and every segment is exported and transcribed
    when the invocation returns. *)
Theorem segments_run_once_in_order (w : oracle) (file_path : path)
    (model language : string) (fs0 : gmap path string) :
  let chunk := fun i => CHUNKS_DIR // chunk_name (stem file_path) i in
  let run := split_and_transcribe w file_path model language (State fs0 []) in
  NoDup (exports (log (snd run)))
  /\ NoDup (engine_args (log (snd run)))
  /\ exists k k',
       exports (log (snd run)) = map chunk (seq 1 k)
       /\ engine_args (log (snd run)) = map (fun i => (chunk i, model, language)) (seq 1 k')
       /\ (k' = k \/ (S k' = k /\ export w (chunk k) <> Exported))
       /\ (decode w file_path = None -> k = 0)
       /\ (forall len, decode w file_path = Some len ->
             k <= length (segments SEGMENT_MS len)
             /\ (forall p, fst run = Ok p -> k' = length (segments SEGMENT_MS len))).
Proof.
  intros chunk run.
  destruct (run_trace w file_path model language fs0) as (k & k' & Hexp & Harg & H).
  fold chunk run in Hexp, Harg, H.
  assert (Hinj : forall i j, chunk i = chunk j -> i = j)
    by (intros i j [= E]; now apply chunk_name_inj in E).
  split; [|split].
  - rewrite Hexp. apply NoDup_fmap_2; [exact Hinj | apply NoDup_seq].
  - rewrite Harg. apply NoDup_fmap_2; [|apply NoDup_seq].
    intros i j [= E]. now apply chunk_name_inj in E.
  - exists k, k'. split; [exact Hexp|]. split; [exact Harg|]. exact H.
Qed.

Lemma exports_unlink (p : path) (s : state) :
  exports (log (unlink p s)) = exports (log s).
Proof. unfold exports. simpl. rewrite omap_app. simpl. now rewrite app_nil_r. Qed.

Lemma engine_args_unlink (p : path) (s : state) :
  engine_args (log (unlink p s)) = engine_args (log s).
Proof. unfold engine_args. simpl. rewrite omap_app. simpl. now rewrite app_nil_r. Qed.

Lemma seq_lines (t : nat -> string) {A} (l : list A) (n : nat) :
  map (fun i_start : nat * A => line_of (t (fst i_start))) (enumerate n l)
  = map line_of (map t (seq n (length l))).
Proof. now rewrite <- (enumerate_fst l n), !map_map. Qed.

(** When the source is decoded and every segment is exported and
    transcribed, the loop goes through and leaves the lines of the segments
    in the aggregate transcript. *)
Lemma loop_goes_through (w : oracle) (file_path : path)
    (model language : string) (fs0 : gmap path string) (len : Z) (b t : nat -> string) :
  let base := stem file_path in
  let chunk := fun i => CHUNKS_DIR // chunk_name base i in
  let full_txt := OUTPUT_DIR // (base ++ "_full.txt") in
  let n := length (segments SEGMENT_MS len) in
  (forall i, 1 <= i <= n ->
     export w (chunk i) = Exported
     /\ exit_ok (whisper w (chunk i) model language) = true
     /\ wrote (whisper w (chunk i) model language) = Some (b i)
     /\ PyStr.read_text (b i) = Some (t i)) ->
  exists s1,
    for_each (process_segment w SEGMENT_MS base full_txt model language len)
      (enumerate 1 (py_range 0 len SEGMENT_MS))
      (emit (EvDecode file_path) (unlink full_txt (State fs0 []))) = (Ok tt, s1)
    /\ fs s1 !! full_txt
       = match n with 0 => None | S _ => Some (transcript (map t (seq 1 n))) end.
Proof.
  intros base chunk full_txt n Hall.
  set (s0 := emit (EvDecode file_path) (unlink full_txt (State fs0 []))).
  set (l := enumerate 1 (py_range 0 len SEGMENT_MS)).
  assert (Hl : forall i start, (i, start) ∈ l -> 1 <= i <= n).
  { intros i start Hi. apply enumerate_elem_of in Hi.
    unfold n. rewrite segments_length. lia. }
  destruct (loop_succeeds w SEGMENT_MS base model language len l s0) as [s' Hloop].
  { intros i start Hi. destruct (Hall i (Hl i start Hi)) as (He & Hx & Ht & Hr).
    split; [exact He|]. split; [exact Hx|]. now exists (b i), (t i). }
  exists s'. split; [exact Hloop|]. unfold full_txt.
  rewrite (loop_content w SEGMENT_MS base model language len t l s0 s' Hloop).
  2:{ intros i start Hi. exists (b i). apply (Hall i (Hl i start Hi)). }
  unfold s0. simpl fs. rewrite lookup_delete_eq, append_lines_None.
  unfold l. rewrite seq_lines, transcript_lines.
  unfold n. rewrite segments_length.
  now destruct (py_range 0 len SEGMENT_MS).
Qed.

(** Success (X3): when the source is decoded and every segment is
    exported and transcribed, the engine writing for segment [i] the bytes
    [b i], which read as UTF-8 text are [t i], the invocation returns the
    path of the aggregate transcript, the file at this path holds the lines
    of the texts [t i] in order (it does not exist when there is no
    segment), and neither the source nor a file of a segment is left. *)
Theorem split_and_transcribe_succeeds (w : oracle) (file_path : path)
    (model language : string) (fs0 : gmap path string) (len : Z) (b t : nat -> string) :
  let base := stem file_path in
  let chunk := fun i => CHUNKS_DIR // chunk_name base i in
  let full_txt := OUTPUT_DIR // (base ++ "_full.txt") in
  let n := length (segments SEGMENT_MS len) in
  let run := split_and_transcribe w file_path model language (State fs0 []) in
  decode w file_path = Some len ->
  (forall i, 1 <= i <= n ->
     export w (chunk i) = Exported
     /\ exit_ok (whisper w (chunk i) model language) = true
     /\ wrote (whisper w (chunk i) model language) = Some (b i)
     /\ PyStr.read_text (b i) = Some (t i)) ->
  fst run = Ok full_txt
  /\ fs (snd run) !! full_txt
     = match n with 0 => None | S _ => Some (transcript (map t (seq 1 n))) end
  /\ fs (snd run) !! file_path = None
  /\ (forall i, 1 <= i <= n -> gone base i (snd run)).
Proof.
  intros base chunk full_txt n run Hdec Hall.
  destruct (loop_goes_through w file_path model language fs0 len b t Hall)
    as (s' & Hloop & Hfull).
  unfold run, split_and_transcribe. rewrite split_and_transcribe_unfold. cbv zeta.
  rewrite Hdec, Hloop. cbn [fst snd].
  split; [reflexivity|]. split; [|split].
  - simpl fs. rewrite lookup_delete_ne by (symmetry; apply full_txt_ne_source).
    exact Hfull.
  - simpl fs. apply lookup_delete_eq.
  - intros i Hi. apply unlink_other.
    assert (Hin : exists start, (i, start) ∈ enumerate 1 (py_range 0 len SEGMENT_MS)).
    { unfold n in Hi. rewrite segments_length in Hi.
      destruct (lookup_lt_is_Some_2 (py_range 0 len SEGMENT_MS) (i - 1)) as [start Hs];
        [lia|].
      exists start. apply list_elem_of_lookup. exists (i - 1).
      apply enumerate_lookup. split; [lia | exact Hs]. }
    destruct Hin as [start Hin].
    exact (loop_ok_gone w SEGMENT_MS base model language len _ _ s' Hloop i start Hin).
Qed.

Lemma split_and_transcribe_succeeds_witness :
  let crlf := String "013" (String "010" "") in
  let w := Oracle (fun _ => Some 1500000%Z) (fun _ => "mp3") (fun _ => Exported)
             (fun p _ _ =>
                EngineOutcome true "" (Some (" heard in " ++ name p ++ crlf))) in
  let file_path := Path "uploads" "talk.wav" in
  let b := fun i => " heard in " ++ chunk_name "talk" i ++ crlf in
  let t := fun i => " heard in " ++ chunk_name "talk" i ++ Html.newline in
  let run := split_and_transcribe w file_path "small" "Russian" (State ∅ []) in
  fst run = Ok (OUTPUT_DIR // "talk_full.txt")
  /\ fs (snd run) !! (OUTPUT_DIR // "talk_full.txt") = Some (transcript (map t (seq 1 3)))
  /\ fs (snd run) !! file_path = None
  /\ (forall i, 1 <= i <= 3 -> gone "talk" i (snd run)).
Proof.
  intros crlf w file_path b t.
  apply (split_and_transcribe_succeeds w file_path "small" "Russian" ∅ 1500000 b t).
  - reflexivity.
  - intros i Hi.
    assert (Hi' : i = 1 \/ i = 2 \/ i = 3).
    { change (length (segments SEGMENT_MS 1500000)) with 3 in Hi. lia. }
    destruct Hi' as [-> | [-> | ->]]; repeat split; vm_compute; reflexivity.
Defined.

(** The loop up to segment [k], when the segments before it are exported
    and transcribed. *)
Lemma loop_prefix (w : oracle) (file_path : path)
    (model language : string) (fs0 : gmap path string) (len : Z) (k : nat)
    (b t : nat -> string) :
  let base := stem file_path in
  let chunk := fun i => CHUNKS_DIR // chunk_name base i in
  let full_txt := OUTPUT_DIR // (base ++ "_full.txt") in
  let body := process_segment w SEGMENT_MS base full_txt model language len in
  let s0 := emit (EvDecode file_path) (unlink full_txt (State fs0 [])) in
  1 <= k <= length (segments SEGMENT_MS len) ->
  (forall i, 1 <= i < k ->
     export w (chunk i) = Exported
     /\ exit_ok (whisper w (chunk i) model language) = true
     /\ wrote (whisper w (chunk i) model language) = Some (b i)
     /\ PyStr.read_text (b i) = Some (t i)) ->
  exists start s1 rest,
    for_each body (enumerate 1 (py_range 0 len SEGMENT_MS)) s0
    = match body (k, start) s1 with
      | (Ok _, s2) => for_each body rest s2
      | (Raise e, s2) => (Raise e, s2)
      end
    /\ exports (log s1) = map chunk (seq 1 (k - 1))
    /\ engine_args (log s1) = map (fun i => (chunk i, model, language)) (seq 1 (k - 1))
    /\ fs s1 !! full_txt
       = match k - 1 with
         | 0 => None
         | S _ => Some (transcript (map t (seq 1 (k - 1))))
         end
    /\ (forall i, 1 <= i < k -> gone base i s1)
    /\ (forall q, (forall i, q <> chunk i /\ q <> CHUNKS_DIR // part_name base i) ->
          q <> full_txt -> fs s1 !! q = fs0 !! q)
    /\ (fs s1 !! chunk k = fs0 !! chunk k).
Proof.
  intros base chunk full_txt body s0 Hk Hok.
  set (R := py_range 0 len SEGMENT_MS).
  rewrite segments_length in Hk. fold R in Hk.
  destruct (lookup_lt_is_Some_2 R (k - 1)) as [start Hstart]; [lia|].
  assert (Hlk : enumerate 1 R !! (k - 1) = Some (k, start))
    by (apply enumerate_lookup; split; [lia | exact Hstart]).
  rewrite <- (take_drop_middle _ _ _ Hlk).
  set (l1 := take (k - 1) (enumerate 1 R)).
  assert (Hl1 : forall i st, (i, st) ∈ l1 -> 1 <= i < k).
  { intros i st Hi. apply list_elem_of_lookup in Hi as [j Hj].
    apply lookup_take_Some in Hj as [Hj Hlt].
    apply enumerate_lookup in Hj as [-> _]. lia. }
  assert (Hfst : map fst l1 = seq 1 (k - 1))
    by (apply take_enumerate_fst; lia).
  destruct (loop_succeeds w SEGMENT_MS base model language len l1 s0) as [s1 Hloop].
  { intros i st Hi. specialize (Hl1 i st Hi). destruct (Hok i Hl1) as (He & Hx & Ht & Hr).
    split; [exact He|]. split; [exact Hx|]. now exists (b i), (t i). }
  fold full_txt body in Hloop.
  exists start, s1, (drop (S (k - 1)) (enumerate 1 R)).
  split; [now rewrite for_each_app, Hloop|].
  destruct (loop_trace w SEGMENT_MS base model language len l1 s0)
    as (k1 & k1' & _ & _ & Hlog1 & Harg1 & Hall).
  fold full_txt body in Hlog1, Harg1, Hall. rewrite Hloop in Hlog1, Harg1, Hall.
  destruct (Hall eq_refl) as [-> ->]. cbn [fst snd] in Hlog1, Harg1.
  rewrite firstn_all, Hfst in Hlog1, Harg1.
  split; [exact Hlog1|]. split; [exact Harg1|]. split; [|split; [|split]].
  - unfold full_txt.
    rewrite (loop_content w SEGMENT_MS base model language len t l1 s0 s1 Hloop).
    2:{ intros i st Hi. exists (b i). apply Hok. exact (Hl1 i st Hi). }
    unfold s0. simpl fs. rewrite lookup_delete_eq, append_lines_None.
    rewrite <- (map_map fst (fun i => line_of (t i))), Hfst.
    rewrite <- (map_map t line_of), transcript_lines.
    now destruct (k - 1).
  - intros i Hi.
    assert (Hin : (i, default 0%Z (R !! (i - 1))) ∈ l1).
    { apply list_elem_of_lookup. exists (i - 1). apply lookup_take_Some.
      split; [|lia]. apply enumerate_lookup. split; [lia|].
      destruct (lookup_lt_is_Some_2 R (i - 1)) as [x Hx]; [lia|]. now rewrite Hx. }
    exact (loop_ok_gone w SEGMENT_MS base model language len l1 s0 s1 Hloop _ _ Hin).
  - intros q Hq Hfull.
    pose proof (loop_frame w SEGMENT_MS base model language len l1 s0 q
                  (fun i _ _ => Hq i) Hfull) as E.
    fold full_txt body in E. rewrite Hloop in E. cbn [snd] in E. rewrite E.
    unfold s0. simpl fs. now rewrite lookup_delete_ne by congruence.
  - assert (E : fs (snd (for_each body l1 s0)) !! chunk k = fs s0 !! chunk k).
    { apply loop_frame; [|apply chunks_ne_output].
      intros i st Hi. specialize (Hl1 i st Hi). split.
      - intros [= E]. apply chunk_name_inj in E. lia.
      - apply chunk_ne_part. }
    rewrite Hloop in E. cbn [snd] in E. rewrite E. unfold s0. simpl fs.
    rewrite lookup_delete_ne; [reflexivity|]. symmetry. apply chunks_ne_output.
Qed.

(** Abort on the engine (X4): when the engine fails for the first time on
    segment [k], the segments before it having been exported and
    transcribed (the bytes [b i] that the engine wrote are read as the text
    [t i]), the invocation raises the failure of the engine with its
    error stream; the segments [1..k] have been exported and handed to the
    engine, once each and in order, and no later segment has been started;
    the aggregate transcript holds the lines of the segments [1..k-1] (it
    does not exist when [k = 1]); no file of a segment and no source file is
    left. *)
Theorem abort_at_first_engine_failure (w : oracle) (file_path : path)
    (model language : string) (fs0 : gmap path string) (len : Z) (k : nat)
    (b t : nat -> string) :
  let base := stem file_path in
  let chunk := fun i => CHUNKS_DIR // chunk_name base i in
  let full_txt := OUTPUT_DIR // (base ++ "_full.txt") in
  let run := split_and_transcribe w file_path model language (State fs0 []) in
  decode w file_path = Some len ->
  1 <= k <= length (segments SEGMENT_MS len) ->
  (forall i, 1 <= i < k ->
     export w (chunk i) = Exported
     /\ exit_ok (whisper w (chunk i) model language) = true
     /\ wrote (whisper w (chunk i) model language) = Some (b i)
     /\ PyStr.read_text (b i) = Some (t i)) ->
  export w (chunk k) = Exported ->
  exit_ok (whisper w (chunk k) model language) = false ->
  fst run = Raise (EngineFailure (stderr_of (whisper w (chunk k) model language)))
  /\ exports (log (snd run)) = map chunk (seq 1 k)
  /\ engine_args (log (snd run)) = map (fun i => (chunk i, model, language)) (seq 1 k)
  /\ fs (snd run) !! full_txt
     = match k - 1 with
       | 0 => None
       | S _ => Some (transcript (map t (seq 1 (k - 1))))
       end
  /\ fs (snd run) !! file_path = None
  /\ (forall i, 1 <= i <= k -> gone base i (snd run)).
Proof.
  intros base chunk full_txt run Hdec Hk Hok Hexp Hfail.
  destruct (loop_prefix w file_path model language fs0 len k b t Hk Hok)
    as (start & s1 & rest & Hloop & Hlog1 & Harg1 & Hfull & Hgone & _).
  fold base full_txt in Hloop, Hfull.
  set (body := process_segment w SEGMENT_MS base full_txt model language len) in *.
  unfold run, split_and_transcribe. rewrite split_and_transcribe_unfold. cbv zeta.
  rewrite Hdec. fold base full_txt body. rewrite Hloop.
  assert (E : body (k, start) s1
              = (Raise (EngineFailure (stderr_of (whisper w (chunk k) model language))),
                 cleanup base k
                   (after_engine w SEGMENT_MS base model language len k start s1))).
  { apply process_segment_engine_failed; [exact Hexp | exact Hfail]. }
  assert (Hlogk : exports (log (snd (body (k, start) s1)))
                  = (exports (log s1) ++ [chunk k])%list) by apply segment_exports.
  assert (Hargk : engine_args (log (snd (body (k, start) s1)))
                  = (engine_args (log s1) ++ [(chunk k, model, language)])%list).
  { unfold body. rewrite segment_engine_args. fold (chunk k). now rewrite Hexp. }
  assert (Hgk : gone base k (snd (body (k, start) s1))
                /\ forall j, gone base j s1 -> gone base j (snd (body (k, start) s1))).
  { apply segment_cleanup. exact Hexp. }
  rewrite E in Hlogk, Hargk, Hgk |- *. cbn [fst snd] in *.
  assert (Hseq : seq 1 k = (seq 1 (k - 1) ++ [k])%list).
  { replace k with (S (k - 1)) at 1 by lia. rewrite seq_S. do 2 f_equal. lia. }
  split; [reflexivity|]. split; [|split; [|split; [|split]]].
  - rewrite exports_unlink, Hlogk, Hlog1. now rewrite Hseq, map_app.
  - rewrite engine_args_unlink, Hargk, Harg1. now rewrite Hseq, map_app.
  - simpl fs. rewrite lookup_delete_ne by (symmetry; apply full_txt_ne_source).
    rewrite <- Hfull. unfold full_txt.
    now rewrite <- (after_engine_full w SEGMENT_MS base model language len k start s1),
      <- (cleanup_full base k).
  - simpl fs. apply lookup_delete_eq.
  - intros i Hi. apply unlink_other.
    destruct Hgk as [Hgk Hothers].
    destruct (decide (i = k)) as [->|Hne]; [exact Hgk|].
    apply Hothers, Hgone. lia.
Qed.

Lemma abort_at_first_engine_failure_witness :
  let w := Oracle (fun _ => Some (45 * 60 * 1000)%Z) (fun _ => "mp3") (fun _ => Exported)
             (fun p _ _ =>
                if decide (p = CHUNKS_DIR // "talk_part3.mp3")
                then EngineOutcome false "out of memory" None
                else EngineOutcome true "" (Some (" heard in " ++ name p ++ String "013" (String "010" "")))) in
  let file_path := Path "uploads" "talk.wav" in
  let b := fun i => " heard in " ++ chunk_name "talk" i ++ String "013" (String "010" "") in
  let t := fun i => " heard in " ++ chunk_name "talk" i ++ Html.newline in
  let chunk := fun i => CHUNKS_DIR // chunk_name "talk" i in
  let run := split_and_transcribe w file_path "small" "Russian" (State ∅ []) in
  fst run = Raise (EngineFailure "out of memory")
  /\ exports (log (snd run)) = map chunk (seq 1 3)
  /\ engine_args (log (snd run)) = map (fun i => (chunk i, "small", "Russian")) (seq 1 3)
  /\ fs (snd run) !! (OUTPUT_DIR // "talk_full.txt") = Some (transcript (map t (seq 1 2)))
  /\ fs (snd run) !! file_path = None
  /\ (forall i, 1 <= i <= 3 -> gone "talk" i (snd run)).
Proof.
  intros w file_path b t.
  apply (abort_at_first_engine_failure w file_path "small" "Russian" ∅
           (45 * 60 * 1000) 3 b t).
  - reflexivity.
  - vm_compute. lia.
  - intros i Hi. assert (i = 1 \/ i = 2) as [->| ->] by lia; repeat split; vm_compute; reflexivity.
  - reflexivity.
  - reflexivity.
Defined.

(** The source is no file of a segment of its own stem. *)
Lemma source_ne_chunk (file_path : path) (i : nat) :
  file_path <> CHUNKS_DIR // chunk_name (stem file_path) i.
Proof.
  intros H. apply (f_equal name) in H. simpl in H. unfold chunk_name in H.
  destruct (stem_prefix file_path) as [E | [r E]].
  - rewrite <- E in H at 1. apply (f_equal String.length) in H.
    rewrite !sapp_length in H. simpl in H. lia.
  - rewrite E in H at 1. apply sapp_inv_head in H. discriminate.
Qed.

(** Abort on an export (X5): when the export fails for the first time on
    segment [k], the segments before it having been exported and
    transcribed (the bytes [b i] that the engine wrote are read as the text
    [t i]), the invocation raises an [IOFailure]; the engine has been
    run on the segments [1..k-1] only, and no later segment has been
    started; the aggregate transcript holds the lines of the segments
    [1..k-1]; the source file and the files of the segments before [k] are
    gone, but the file of segment [k] is left, empty, when the encoder had
    created it before it failed: the [finally] of the loop body does not
    cover the export. *)
Theorem abort_at_first_export_failure (w : oracle) (file_path : path)
    (model language : string) (fs0 : gmap path string) (len : Z) (k : nat)
    (b t : nat -> string) (created : bool) :
  let base := stem file_path in
  let chunk := fun i => CHUNKS_DIR // chunk_name base i in
  let full_txt := OUTPUT_DIR // (base ++ "_full.txt") in
  let run := split_and_transcribe w file_path model language (State fs0 []) in
  decode w file_path = Some len ->
  1 <= k <= length (segments SEGMENT_MS len) ->
  (forall i, 1 <= i < k ->
     export w (chunk i) = Exported
     /\ exit_ok (whisper w (chunk i) model language) = true
     /\ wrote (whisper w (chunk i) model language) = Some (b i)
     /\ PyStr.read_text (b i) = Some (t i)) ->
  export w (chunk k) = ExportFailed created ->
  fst run = Raise IOFailure
  /\ exports (log (snd run)) = map chunk (seq 1 k)
  /\ engine_args (log (snd run)) = map (fun i => (chunk i, model, language)) (seq 1 (k - 1))
  /\ fs (snd run) !! full_txt
     = match k - 1 with
       | 0 => None
       | S _ => Some (transcript (map t (seq 1 (k - 1))))
       end
  /\ fs (snd run) !! file_path = None
  /\ (forall i, 1 <= i < k -> gone base i (snd run))
  /\ fs (snd run) !! chunk k = (if created then Some "" else fs0 !! chunk k).
Proof.
  intros base chunk full_txt run Hdec Hk Hok Hexp.
  destruct (loop_prefix w file_path model language fs0 len k b t Hk Hok)
    as (start & s1 & rest & Hloop & Hlog1 & Harg1 & Hfull & Hgone & _ & Hchunk).
  fold base full_txt chunk in Hloop, Hfull, Hchunk.
  set (body := process_segment w SEGMENT_MS base full_txt model language len) in *.
  unfold run, split_and_transcribe. rewrite split_and_transcribe_unfold. cbv zeta.
  rewrite Hdec. fold base full_txt body. rewrite Hloop.
  assert (E : body (k, start) s1
              = (Raise IOFailure,
                 let s' := emit (EvExport (chunk k)
                                   (slice len start (start + SEGMENT_MS))) s1 in
                 if created then write_file (chunk k) "" s' else s')).
  { exact (process_segment_export_failed w SEGMENT_MS base model language len
             k start s1 created Hexp). }
  assert (Hlogk : exports (log (snd (body (k, start) s1)))
                  = (exports (log s1) ++ [chunk k])%list) by apply segment_exports.
  assert (Hargk : engine_args (log (snd (body (k, start) s1)))
                  = (engine_args (log s1))%list).
  { unfold body. rewrite segment_engine_args. fold (chunk k).
    now rewrite Hexp, app_nil_r. }
  rewrite E in Hlogk, Hargk |- *. cbv zeta in *. cbn [fst snd] in *.
  assert (Hseq : seq 1 k = (seq 1 (k - 1) ++ [k])%list).
  { replace k with (S (k - 1)) at 1 by lia. rewrite seq_S. do 2 f_equal. lia. }
  split; [reflexivity|]. split; [|split; [|split; [|split; [|split]]]].
  - rewrite exports_unlink, Hlogk, Hlog1. now rewrite Hseq, map_app.
  - now rewrite engine_args_unlink, Hargk, Harg1.
  - simpl fs. rewrite lookup_delete_ne by (symmetry; apply full_txt_ne_source).
    rewrite <- Hfull.
    destruct created; simpl fs; [|reflexivity].
    apply lookup_insert_ne. apply chunks_ne_output.
  - simpl fs. apply lookup_delete_eq.
  - intros i Hi. apply unlink_other. specialize (Hgone i Hi).
    destruct created; [|exact Hgone].
    destruct Hgone as [H1 H2]. unfold gone. simpl fs.
    split; (rewrite lookup_insert_ne; [assumption|]).
    + intros [= E']. apply chunk_name_inj in E'. lia.
    + apply chunk_ne_part.
  - simpl fs. rewrite lookup_delete_ne by apply source_ne_chunk.
    destruct created; simpl fs; [apply lookup_insert_eq | exact Hchunk].
Qed.

Lemma abort_at_first_export_failure_witness :
  let w := Oracle (fun _ => Some (45 * 60 * 1000)%Z) (fun _ => "mp3")
             (fun p => if decide (p = CHUNKS_DIR // "talk_part3.mp3")
                       then ExportFailed true else Exported)
             (fun p _ _ => EngineOutcome true "" (Some (" heard in " ++ name p ++ String "013" (String "010" "")))) in
  let file_path := Path "uploads" "talk.wav" in
  let b := fun i => " heard in " ++ chunk_name "talk" i ++ String "013" (String "010" "") in
  let t := fun i => " heard in " ++ chunk_name "talk" i ++ Html.newline in
  let chunk := fun i => CHUNKS_DIR // chunk_name "talk" i in
  let run := split_and_transcribe w file_path "small" "Russian" (State ∅ []) in
  fst run = Raise IOFailure
  /\ exports (log (snd run)) = map chunk (seq 1 3)
  /\ engine_args (log (snd run)) = map (fun i => (chunk i, "small", "Russian")) (seq 1 2)
  /\ fs (snd run) !! (OUTPUT_DIR // "talk_full.txt") = Some (transcript (map t (seq 1 2)))
  /\ fs (snd run) !! file_path = None
  /\ (forall i, 1 <= i < 3 -> gone "talk" i (snd run))
  /\ fs (snd run) !! chunk 3 = Some "".
Proof.
  intros w file_path b t.
  apply (abort_at_first_export_failure w file_path "small" "Russian" ∅
           (45 * 60 * 1000) 3 b t true).
  - reflexivity.
  - vm_compute. lia.
  - intros i Hi. assert (i = 1 \/ i = 2) as [->| ->] by lia; repeat split; vm_compute; reflexivity.
  - reflexivity.
Defined.

Lemma run_frame (w : oracle) (file_path : path)
    (model language : string) (fs0 : gmap path string) (q : path) :
  let base := stem file_path in
  let s' := snd (split_and_transcribe w file_path model language (State fs0 [])) in
  q <> file_path ->
  q <> OUTPUT_DIR // (base ++ "_full.txt") ->
  (forall i, q <> CHUNKS_DIR // chunk_name base i /\ q <> CHUNKS_DIR // part_name base i) ->
  fs s' !! q = fs0 !! q.
Proof.
  intros base s' Hsrc Hfull Hseg. unfold s', split_and_transcribe.
  rewrite split_and_transcribe_unfold. cbv zeta. fold base.
  destruct (decode w file_path) as [len|].
  - match goal with |- context [for_each ?b ?l ?s] =>
      pose proof (loop_frame w SEGMENT_MS base model language len l s q
                    (fun i _ _ => Hseg i) Hfull) as E
    end.
    destruct (for_each _ _ _) as [[[]|e] s2]; simpl snd in *; simpl fs;
      rewrite lookup_delete_ne by congruence; rewrite E; simpl;
      now rewrite lookup_delete_ne by congruence.
  - simpl. now rewrite !lookup_delete_ne by congruence.
Qed.

Lemma run_deletes_source (w : oracle) (file_path : path)
    (model language : string) (s : state) :
  fs (snd (split_and_transcribe w file_path model language s)) !! file_path = None.
Proof.
  unfold split_and_transcribe. rewrite split_and_transcribe_unfold. cbv zeta.
  destruct (decode w file_path) as [len|]; [|apply lookup_delete_eq].
  destruct (for_each _ _ _) as [[[]|e] s2]; apply lookup_delete_eq.
Qed.

(** Frame (X6): whether it returns or raises, and whatever the
    collaborators do, an invocation leaves no source file, and it touches
    no file but the source, the aggregate transcript of its stem and the
    files of its segments: every other file is afterwards as it was before,
    with the content it had, or missing as it was. *)
Theorem other_files_are_untouched (w : oracle) (file_path : path)
    (model language : string) (fs0 : gmap path string) :
  let base := stem file_path in
  let s' := snd (split_and_transcribe w file_path model language (State fs0 [])) in
  fs s' !! file_path = None
  /\ forall q,
       q <> file_path ->
       q <> OUTPUT_DIR // (base ++ "_full.txt") ->
       (forall i, q <> CHUNKS_DIR // chunk_name base i
                  /\ q <> CHUNKS_DIR // part_name base i) ->
       fs s' !! q = fs0 !! q.
Proof.
  intros base s'. split; [apply run_deletes_source|].
  intros q. apply run_frame.
Qed.

Lemma other_files_are_untouched_witness :
  let w := Oracle (fun _ => Some 1500000%Z) (fun _ => "mp3") (fun _ => ExportFailed true)
             (fun p _ _ => EngineOutcome true "" (Some "words")) in
  let fs0 : gmap path string :=
    {[ Path "uploads" "talk.wav" := "RIFF"; Path "uploads" "other.wav" := "RIFF" ]} in
  let s' := snd (split_and_transcribe w (Path "uploads" "talk.wav") "small" "Russian"
                   (State fs0 [])) in
  fs s' !! Path "uploads" "talk.wav" = None
  /\ fs s' !! Path "uploads" "other.wav" = Some "RIFF".
Proof.
  intros w fs0.
  destruct (other_files_are_untouched w (Path "uploads" "talk.wav") "small" "Russian" fs0)
    as [H1 H2].
  split; [exact H1|].
  rewrite (H2 (Path "uploads" "other.wav")).
  - reflexivity.
  - discriminate.
  - discriminate.
  - intros i. split; discriminate.
Defined.

(** The engine's files (X7): for the segment file [<base>_part<i>.mp3],
    whatever the base (it may be empty or contain dots), [transcribe_chunk]
    runs the engine once with the model and the language it was given; it
    returns [chunks/<base>_part<i>.txt], the path that the loop deletes in
    its [finally], when the engine exits with success, and raises the
    engine's failure with its error stream otherwise; the only file it
    changes is that transcript, when the engine wrote it. *)
Theorem transcribe_chunk_returns_part_txt (w : oracle) (base : string) (i : nat)
    (model lang : string) (s : state) :
  let chunk_path := CHUNKS_DIR // chunk_name base i in
  let part_txt := CHUNKS_DIR // part_name base i in
  let o := whisper w chunk_path model lang in
  let r := transcribe_chunk w chunk_path model lang s in
  fst r = (if exit_ok o then Ok part_txt else Raise (EngineFailure (stderr_of o)))
  /\ log (snd r) = (log s ++ [EvEngine chunk_path model lang])%list
  /\ fs (snd r) = match wrote o with
                  | Some t => <[part_txt := t]> (fs s)
                  | None => fs s
                  end.
Proof.
  intros chunk_path part_txt o r.
  assert (E : CHUNKS_DIR // (stem chunk_path ++ ".txt") = part_txt) by apply stem_chunk.
  unfold r, transcribe_chunk. cbv zeta. rewrite !E. fold o.
  destruct (exit_ok o), (wrote o); repeat split.
Qed.

(** Coverage (X8): the segments lie inside the source, none is empty, and
    every instant of the source lies in exactly one of them. *)
Theorem every_instant_in_one_segment (W D : Z) :
  (0 < W)%Z ->
  (forall k i lo hi, segments W D !! k = Some (i, (lo, hi)) -> (0 <= lo < hi)%Z /\ (hi <= D)%Z)
  /\ (forall x, (0 <= x < D)%Z ->
        exists k i lo hi,
          segments W D !! k = Some (i, (lo, hi))
          /\ (lo <= x < hi)%Z
          /\ forall k' i' lo' hi',
               segments W D !! k' = Some (i', (lo', hi')) -> (lo' <= x < hi')%Z -> k' = k).
Proof.
  intros HW. split.
  - intros k i lo hi Hk. apply segments_lookup in Hk as (_ & -> & Hlo & ->); [|exact HW].
    lia.
  - intros x Hx.
    assert (Hq : (0 <= x / W)%Z) by (apply Z.div_pos; lia).
    pose proof (Z.mul_div_le x W HW) as Hle.
    pose proof (Z.mod_pos_bound x W HW) as Hmod.
    pose proof (Z.div_mod x W ltac:(lia)) as Hdm.
    destruct (lookup_lt_is_Some_2 (segments W D) (Z.to_nat (x / W))) as [[i [lo hi]] Hk].
    { apply Nat2Z.inj_lt. rewrite segments_length, py_range_length by lia.
      rewrite Z2Nat.id by exact Hq.
      apply Z.div_lt_upper_bound; [lia|].
      pose proof (Z.div_mod (D + W - 1) W ltac:(lia)).
      pose proof (Z.mod_pos_bound (D + W - 1) W HW). lia. }
    exists (Z.to_nat (x / W)), i, lo, hi. split; [exact Hk|].
    apply segments_lookup in Hk as (_ & -> & Hlo & ->); [|exact HW].
    rewrite Z2Nat.id by exact Hq. split; [lia|].
    intros k' i' lo' hi' Hk' Hin.
    apply segments_lookup in Hk' as (_ & -> & Hlo' & ->); [|exact HW].
    apply Nat2Z.inj. rewrite Z2Nat.id by exact Hq.
    apply (Z.div_unique x W (Z.of_nat k') (x - Z.of_nat k' * W)); lia.
Qed.

Lemma every_instant_in_one_segment_witness :
  (forall k i lo hi, segments SEGMENT_MS 1500000 !! k = Some (i, (lo, hi)) ->
     (0 <= lo < hi)%Z /\ (hi <= 1500000)%Z)
  /\ (forall x, (0 <= x < 1500000)%Z ->
        exists k i lo hi,
          segments SEGMENT_MS 1500000 !! k = Some (i, (lo, hi))
          /\ (lo <= x < hi)%Z
          /\ forall k' i' lo' hi',
               segments SEGMENT_MS 1500000 !! k' = Some (i', (lo', hi')) ->
               (lo' <= x < hi')%Z -> k' = k).
Proof. apply (every_instant_in_one_segment SEGMENT_MS 1500000). reflexivity. Defined.

(** ** Text files *)

Section TextFiles.

#[local] Arguments String.append : simpl nomatch.

Let no_cr (s : string) : bool := Html.all_chars (fun c => negb (Ascii.eqb c "013")) s.

Lemma utf8_lead_range (n k lo hi : nat) :
  PyStr.utf8_lead n = Some (k, lo, hi) -> 128 <= lo /\ hi <= 191.
Proof.
  unfold PyStr.utf8_lead.
  repeat (match goal with |- context [if ?b then _ else _] => destruct b end);
    intros [= <- <- <-]; lia.
Qed.

Lemma utf8_from_0 (lo hi : nat) (s : string) :
  PyStr.utf8_from 0 lo hi s = PyStr.utf8_valid s.
Proof. now destruct s. Qed.

Lemma utf8_from_app (x y : string) (k lo hi : nat) :
  PyStr.utf8_from k lo hi x = true -> PyStr.utf8_valid y = true ->
  PyStr.utf8_from k lo hi (x ++ y) = true.
Proof.
  intros Hx Hy. revert k lo hi Hx. induction x as [|c x IH]; intros k lo hi Hx.
  - simpl in Hx. apply Nat.eqb_eq in Hx as ->. simpl. now rewrite utf8_from_0.
  - change (String c x ++ y) with (String c (x ++ y)).
    simpl in *. destruct k as [|k].
    + destruct (PyStr.utf8_lead _) as [[[k' lo'] hi']|]; [|discriminate]. now apply IH.
    + apply andb_true_iff in Hx as [Hc Hx]. rewrite Hc. now apply IH.
Qed.

Lemma utf8_valid_app (x y : string) :
  PyStr.utf8_valid x = true -> PyStr.utf8_valid y = true ->
  PyStr.utf8_valid (x ++ y) = true.
Proof. apply utf8_from_app. Qed.

(** A byte that is white space on its own, or that begins the encoding of
    a white-space character, is no continuation byte. *)
Lemma is_space_lead (c : ascii) (r : string) :
  PyStr.is_space (String c r) = true -> ~ (128 <= nat_of_ascii c <= 191).
Proof.
  destruct r as [|c2 [|c3 [|c4 r]]]; simpl; [| | |discriminate].
  - unfold PyStr.isspace. intros H [H1 H2].
    apply orb_true_iff in H as [H|H]; apply andb_true_iff in H as [Ha Hb];
      apply Nat.leb_le in Ha, Hb; lia.
  - unfold PyStr.isspace2. intros H [H1 H2].
    apply andb_true_iff in H as [Ha _]. apply Nat.eqb_eq in Ha. lia.
  - unfold PyStr.isspace3. intros H [H1 H2].
    repeat (apply orb_true_iff in H as [H|H]);
      repeat (apply andb_true_iff in H as [H ?]); apply Nat.eqb_eq in H; lia.
Qed.

Lemma rstrip_utf8_from (s : string) (k lo hi : nat) :
  k = 0 \/ (128 <= lo /\ hi <= 191) ->
  PyStr.utf8_from k lo hi s = true ->
  PyStr.utf8_from k lo hi (PyStr.rstrip s) = true.
Proof.
  revert k lo hi. induction s as [|c s IH]; intros k lo hi Hk H; [exact H|].
  cbn [PyStr.rstrip]. cbv zeta.
  destruct (PyStr.is_space (String c (PyStr.rstrip s))) eqn:Hsp.
  - destruct k as [|k]; [reflexivity|]. exfalso.
    destruct Hk as [Hk|[Hlo Hhi]]; [discriminate|].
    simpl in H. apply andb_true_iff in H as [H _]. apply andb_true_iff in H as [H1 H2].
    apply Nat.leb_le in H1, H2. apply (is_space_lead _ _ Hsp). lia.
  - simpl in *. destruct k as [|k].
    + destruct (PyStr.utf8_lead _) as [[[k' lo'] hi']|] eqn:E; [|discriminate].
      apply IH; [|exact H]. right. exact (utf8_lead_range _ _ _ _ E).
    + apply andb_true_iff in H as [Hc H]. rewrite Hc. apply IH; [|exact H].
      right. lia.
Qed.

Lemma rstrip_utf8 (s : string) :
  PyStr.utf8_valid s = true -> PyStr.utf8_valid (PyStr.rstrip s) = true.
Proof. apply rstrip_utf8_from. now left. Qed.

Lemma isspace_ascii (c : ascii) : PyStr.isspace c = true -> nat_of_ascii c <= 32.
Proof.
  unfold PyStr.isspace. intros H.
  apply orb_true_iff in H as [H|H]; apply andb_true_iff in H as [Ha Hb];
    apply Nat.leb_le in Ha, Hb; lia.
Qed.

Lemma utf8_valid_ascii (c : ascii) (r : string) :
  nat_of_ascii c <= 127 ->
  PyStr.utf8_valid (String c r) = PyStr.utf8_valid r.
Proof.
  intros H. unfold PyStr.utf8_valid. simpl. unfold PyStr.utf8_lead.
  apply Nat.leb_le in H. now rewrite H, utf8_from_0.
Qed.

Lemma utf8_valid_space2 (c1 c2 : ascii) (r : string) :
  PyStr.isspace2 c1 c2 = true ->
  PyStr.utf8_valid (String c1 (String c2 r)) = PyStr.utf8_valid r.
Proof.
  unfold PyStr.isspace2. intros H. apply andb_true_iff in H as [H1 H2].
  apply Nat.eqb_eq in H1. unfold PyStr.utf8_valid. simpl. rewrite H1. simpl.
  rewrite utf8_from_0.
  apply orb_true_iff in H2 as [H2|H2]; apply Nat.eqb_eq in H2; now rewrite H2.
Qed.

Lemma utf8_valid_space3 (c1 c2 c3 : ascii) (r : string) :
  PyStr.isspace3 c1 c2 c3 = true ->
  PyStr.utf8_valid (String c1 (String c2 (String c3 r))) = PyStr.utf8_valid r.
Proof.
  unfold PyStr.isspace3. intros H. unfold PyStr.utf8_valid. cbn [PyStr.utf8_from].
  cbv zeta. rewrite utf8_from_0.
  repeat (match goal with
          | H : (_ && _)%bool = true |- _ => apply andb_true_iff in H as [H ?]
          | H : (_ || _)%bool = true |- _ => apply orb_true_iff in H as [H|H]
          end);
    repeat (match goal with
            | H : (_ =? _)%nat = true |- _ => apply Nat.eqb_eq in H; rewrite H
            | H : (_ <=? _)%nat = true |- _ => apply Nat.leb_le in H
            end);
    match goal with |- context [PyStr.utf8_lead ?n] =>
      let v := eval vm_compute in (PyStr.utf8_lead n) in
      change (PyStr.utf8_lead n) with v end;
    rewrite !(proj2 (Nat.leb_le _ _)) by lia; reflexivity.
Qed.

Lemma lstrip_utf8_le (n : nat) (s : string) :
  String.length s <= n ->
  PyStr.utf8_valid s = true -> PyStr.utf8_valid (PyStr.lstrip s) = true.
Proof.
  revert s. induction n as [|n IH]; intros s Hn H.
  - destruct s; [reflexivity|simpl in Hn; lia].
  - destruct s as [|c1 r1]; [reflexivity|]. cbn [PyStr.lstrip]. simpl in Hn.
    destruct (PyStr.isspace c1) eqn:H1.
    { apply IH; [lia|]. rewrite <- (utf8_valid_ascii c1); [exact H|].
      apply isspace_ascii in H1. lia. }
    destruct r1 as [|c2 r2]; [exact H|]. simpl in Hn.
    destruct (PyStr.isspace2 c1 c2) eqn:H2.
    { apply IH; [lia|]. now rewrite <- (utf8_valid_space2 c1 c2). }
    destruct r2 as [|c3 r3]; [exact H|]. simpl in Hn.
    destruct (PyStr.isspace3 c1 c2 c3) eqn:H3; [|exact H].
    apply IH; [lia|]. now rewrite <- (utf8_valid_space3 c1 c2 c3).
Qed.

Lemma strip_utf8 (s : string) :
  PyStr.utf8_valid s = true -> PyStr.utf8_valid (PyStr.strip s) = true.
Proof.
  intros H. unfold PyStr.strip. apply (lstrip_utf8_le (String.length (PyStr.rstrip s)));
    [lia|]. now apply rstrip_utf8.
Qed.

Lemma universal_newlines_utf8_le (n : nat) (s : string) (k lo hi : nat) :
  String.length s <= n ->
  k = 0 \/ 128 <= lo ->
  PyStr.utf8_from k lo hi s = true ->
  PyStr.utf8_from k lo hi (PyStr.universal_newlines s) = true.
Proof.
  revert s k lo hi. induction n as [|n IH]; intros s k lo hi Hn Hk H.
  - destruct s; [exact H|simpl in Hn; lia].
  - destruct s as [|c r]; [exact H|]. simpl in Hn. cbn [PyStr.universal_newlines].
    destruct (Ascii.eqb c "013") eqn:Hc.
    + apply Ascii.eqb_eq in Hc. subst c. destruct k as [|k].
      * change (PyStr.utf8_from 0 lo hi (String "013" r)) with (PyStr.utf8_from 0 128 191 r) in H.
        match goal with |- PyStr.utf8_from 0 lo hi (String "010" ?x) = true =>
          change (PyStr.utf8_from 0 128 191 x = true) end.
        destruct r as [|c2 r2]; [reflexivity|].
        destruct (Ascii.eqb c2 "010") eqn:Hc2.
        -- apply Ascii.eqb_eq in Hc2. subst c2. simpl in Hn.
           apply IH; [lia|now left|exact H].
        -- apply IH; [lia|now left|exact H].
      * exfalso. destruct Hk as [Hk|Hk]; [discriminate|].
        simpl in H. apply andb_true_iff in H as [H _]. apply andb_true_iff in H as [H _].
        apply Nat.leb_le in H. change (nat_of_ascii "013") with 13 in H. lia.
    + simpl in *. destruct k as [|k].
      * destruct (PyStr.utf8_lead _) as [[[k' lo'] hi']|] eqn:E; [|discriminate].
        apply IH; [lia| |exact H]. right. exact (proj1 (utf8_lead_range _ _ _ _ E)).
      * apply andb_true_iff in H as [Hx H]. rewrite Hx. apply IH; [lia| |exact H].
        right. lia.
Qed.

Lemma universal_newlines_utf8 (s : string) :
  PyStr.utf8_valid s = true -> PyStr.utf8_valid (PyStr.universal_newlines s) = true.
Proof. apply (universal_newlines_utf8_le (String.length s)); [lia|now left]. Qed.

Lemma universal_newlines_no_cr_le (n : nat) (s : string) :
  String.length s <= n -> no_cr (PyStr.universal_newlines s) = true.
Proof.
  revert s. induction n as [|n IH]; intros s Hn.
  - destruct s; [reflexivity|simpl in Hn; lia].
  - destruct s as [|c r]; [reflexivity|]. simpl in Hn. cbn [PyStr.universal_newlines].
    destruct (Ascii.eqb c "013") eqn:Hc.
    + match goal with |- no_cr (String "010" ?x) = true =>
        change (no_cr x = true) end.
      destruct r as [|c2 r2]; [reflexivity|]. simpl in Hn.
      destruct (Ascii.eqb c2 "010"); apply IH; simpl; lia.
    + unfold no_cr. simpl. rewrite Hc. simpl. apply IH. lia.
Qed.

Lemma universal_newlines_fixed (s : string) :
  no_cr s = true -> PyStr.universal_newlines s = s.
Proof.
  induction s as [|c r IH]; [reflexivity|]. unfold no_cr. simpl. intros H.
  apply andb_true_iff in H as [Hc Hr]. apply negb_true_iff in Hc. rewrite Hc.
  now rewrite IH.
Qed.

Lemma no_cr_app (x y : string) : no_cr (x ++ y) = no_cr x && no_cr y.
Proof.
  induction x as [|c x IH]; [reflexivity|].
  change (String c x ++ y) with (String c (x ++ y)). unfold no_cr in *. simpl.
  now rewrite IH, andb_assoc.
Qed.

Lemma rstrip_prefix (s : string) : exists b, s = PyStr.rstrip s ++ b.
Proof.
  induction s as [|c s [b IH]]; [now exists ""|]. cbn [PyStr.rstrip]. cbv zeta.
  destruct (PyStr.is_space _).
  - now exists (String c s).
  - exists b. change (String c (PyStr.rstrip s) ++ b) with (String c (PyStr.rstrip s ++ b)).
    now rewrite <- IH.
Qed.

Lemma lstrip_suffix_le (n : nat) (s : string) :
  String.length s <= n -> exists a, s = a ++ PyStr.lstrip s.
Proof.
  revert s. induction n as [|n IH]; intros s Hn.
  - destruct s; [now exists ""|simpl in Hn; lia].
  - destruct s as [|c1 r1]; [now exists ""|]. cbn [PyStr.lstrip]. simpl in Hn.
    destruct (PyStr.isspace c1).
    { destruct (IH r1) as [a E]; [lia|]. exists (String c1 a).
      change (String c1 a ++ PyStr.lstrip r1) with (String c1 (a ++ PyStr.lstrip r1)).
      now rewrite <- E. }
    destruct r1 as [|c2 r2]; [now exists ""|]. simpl in Hn.
    destruct (PyStr.isspace2 c1 c2).
    { destruct (IH r2) as [a E]; [lia|]. exists (String c1 (String c2 a)).
      change (String c1 (String c2 a) ++ PyStr.lstrip r2)
        with (String c1 (String c2 (a ++ PyStr.lstrip r2))).
      now rewrite <- E. }
    destruct r2 as [|c3 r3]; [now exists ""|]. simpl in Hn.
    destruct (PyStr.isspace3 c1 c2 c3); [|now exists ""].
    destruct (IH r3) as [a E]; [lia|]. exists (String c1 (String c2 (String c3 a))).
    change (String c1 (String c2 (String c3 a)) ++ PyStr.lstrip r3)
      with (String c1 (String c2 (String c3 (a ++ PyStr.lstrip r3)))).
    now rewrite <- E.
Qed.

Lemma strip_no_cr (s : string) : no_cr s = true -> no_cr (PyStr.strip s) = true.
Proof.
  intros H. unfold PyStr.strip.
  destruct (rstrip_prefix s) as [b Eb]. rewrite Eb, no_cr_app in H.
  apply andb_true_iff in H as [H _].
  destruct (lstrip_suffix_le _ (PyStr.rstrip s) (le_n _)) as [a Ea].
  rewrite Ea, no_cr_app in H. now apply andb_true_iff in H as [_ H].
Qed.

(** A line of the aggregate transcript is read back as it was written. *)
Lemma read_text_transcript (ts : list string) :
  Forall (fun t => exists b, PyStr.read_text b = Some t) ts ->
  PyStr.read_text (transcript ts) = Some (transcript ts).
Proof.
  intros H.
  assert (Hv : PyStr.utf8_valid (transcript ts) = true /\ no_cr (transcript ts) = true).
  { induction H as [|t ts [b Hb] _ [IH1 IH2]]; [now split|].
    unfold PyStr.read_text in Hb.
    destruct (PyStr.utf8_valid b) eqn:Hvb; [|discriminate]. injection Hb as <-.
    cbn [transcript fold_right]. fold (transcript ts). unfold line_of. split.
    - apply utf8_valid_app; [|exact IH1].
      apply utf8_valid_app; [|reflexivity].
      now apply strip_utf8, universal_newlines_utf8.
    - rewrite !no_cr_app, IH2, andb_true_r. apply andb_true_iff. split; [|reflexivity].
      apply strip_no_cr. apply (universal_newlines_no_cr_le _ _ (le_n _)). }
  destruct Hv as [Hv Hc]. unfold PyStr.read_text. rewrite Hv.
  now rewrite universal_newlines_fixed.
Qed.

End TextFiles.

(** ** The transcription endpoint *)

(** The endpoint on success (X9): when the upload has a plain file name
    and is decoded to a source with at least one segment, and every segment
    is exported and transcribed to bytes [b i] that are read as the text
    [t i], the endpoint answers with the lines of the segments in order:
    the aggregate transcript is read back as it was written. *)
Theorem api_transcribe_returns_transcript (w : oracle) (filename content : string)
    (fs0 : gmap path string) (len : Z) (b t : nat -> string) :
  let input_path := UPLOADS_DIR // filename in
  let chunk := fun i => CHUNKS_DIR // chunk_name (stem input_path) i in
  let n := length (segments SEGMENT_MS len) in
  plain_name filename = true ->
  decode w input_path = Some len ->
  1 <= n ->
  (forall i, 1 <= i <= n ->
     export w (chunk i) = Exported
     /\ exit_ok (whisper w (chunk i) "small" "Russian") = true
     /\ wrote (whisper w (chunk i) "small" "Russian") = Some (b i)
     /\ PyStr.read_text (b i) = Some (t i)) ->
  fst (api_transcribe w filename content (State fs0 []))
  = Ok (transcript (map t (seq 1 n))).
Proof.
  intros input_path chunk n _ Hdec Hn Hall.
  destruct (loop_goes_through w input_path "small" "Russian"
              (<[input_path := content]> fs0) len b t Hall) as (s' & Hloop & Hfull).
  unfold api_transcribe, split_and_transcribe. cbv zeta. fold input_path.
  rewrite split_and_transcribe_unfold. cbv zeta.
  unfold write_file. simpl fs. simpl log.
  rewrite Hdec, Hloop. simpl fs.
  rewrite lookup_delete_ne by (symmetry; apply full_txt_ne_source).
  rewrite Hfull. fold n. destruct n as [|n']; [lia|].
  rewrite read_text_transcript; [reflexivity|].
  apply Forall_forall. intros x Hx. apply list_elem_of_fmap in Hx as (i & -> & Hi).
  exists (b i). apply Hall. apply elem_of_seq in Hi. lia.
Qed.

Lemma api_transcribe_returns_transcript_witness :
  let crlf := String "013" (String "010" "") in
  let nbsp := String "194" (String "160" "") in
  let w := Oracle (fun _ => Some 1500000%Z) (fun _ => "mp3") (fun _ => Exported)
             (fun p _ _ =>
                EngineOutcome true "" (Some (nbsp ++ "heard in " ++ name p ++ crlf))) in
  let b := fun i => nbsp ++ "heard in " ++ chunk_name "talk" i ++ crlf in
  let t := fun i => nbsp ++ "heard in " ++ chunk_name "talk" i ++ Html.newline in
  fst (api_transcribe w "talk.wav" "RIFF" (State ∅ []))
  = Ok (transcript (map t (seq 1 3))).
Proof.
  intros crlf nbsp w b t.
  apply (api_transcribe_returns_transcript w "talk.wav" "RIFF" ∅ 1500000 b t).
  - reflexivity.
  - reflexivity.
  - vm_compute. lia.
  - intros i Hi.
    assert (Hi' : i = 1 \/ i = 2 \/ i = 3).
    { change (length (segments SEGMENT_MS 1500000)) with 3 in Hi. lia. }
    destruct Hi' as [-> | [-> | ->]]; repeat split; vm_compute; reflexivity.
Defined.



(** The endpoint and the upload directory (X11): for an upload with a
    plain file name, whatever the collaborators do, and whether the
    endpoint answers or fails, the upload is not left on disk, every other
    file of the upload directory is as it was, a failure of
    [split_and_transcribe] is the failure of the endpoint, and the engine is
    only ever run with the model ["small"] and the language ["Russian"]. *)
Theorem api_transcribe_leaves_no_upload (w : oracle) (filename content : string)
    (fs0 : gmap path string) :
  let input_path := UPLOADS_DIR // filename in
  let inner := split_and_transcribe w input_path "small" "Russian"
                 (State (<[input_path := content]> fs0) []) in
  let run := api_transcribe w filename content (State fs0 []) in
  plain_name filename = true ->
  fs (snd run) !! input_path = None
  /\ (forall q, parent q = UPLOADS_DIR -> q <> input_path -> fs (snd run) !! q = fs0 !! q)
  /\ (forall e, fst inner = Raise e -> fst run = Raise e)
  /\ (forall c m l, (c, m, l) ∈ engine_args (log (snd run)) -> m = "small" /\ l = "Russian").
Proof.
  intros input_path inner run _.
  assert (Hsnd : snd run = snd inner).
  { unfold run, inner, api_transcribe. cbv zeta. fold input_path. unfold write_file.
    simpl fs. simpl log. destruct (split_and_transcribe _ _ _ _ _) as [[p|e] s2];
      [|reflexivity].
    simpl. destruct (fs s2 !! p) as [bytes|]; [|reflexivity].
    now destruct (PyStr.read_text bytes). }
  rewrite Hsnd. split; [apply run_deletes_source|]. split; [|split].
  - intros q Hq Hne. unfold inner. rewrite run_frame.
    + now rewrite lookup_insert_ne by congruence.
    + exact Hne.
    + intros E. rewrite E in Hq. discriminate Hq.
    + intros i. split; intros E; rewrite E in Hq; discriminate Hq.
  - intros e He. unfold run, api_transcribe. cbv zeta. fold input_path.
    unfold write_file. simpl fs. simpl log. fold inner.
    destruct inner as [[p|e'] s2]; [discriminate|]. simpl in *. congruence.
  - intros c m l Hin.
    destruct (run_trace w input_path "small" "Russian"
                (<[input_path := content]> fs0)) as (k & k' & _ & Harg & _).
    fold inner in Harg. rewrite Harg in Hin.
    apply list_elem_of_fmap in Hin as (i & [= -> -> ->] & _). now split.
Qed.

Lemma api_transcribe_leaves_no_upload_witness :
  let w := Oracle (fun _ => Some 1500000%Z) (fun _ => "mp3") (fun _ => Exported)
             (fun p _ _ =>
                if decide (p = CHUNKS_DIR // "talk_part2.mp3")
                then EngineOutcome false "out of memory" None
                else EngineOutcome true "" (Some "words")) in
  let fs0 : gmap path string := {[ Path "uploads" "other.wav" := "RIFF" ]} in
  let run := api_transcribe w "talk.wav" "RIFF" (State fs0 []) in
  fst run = Raise (EngineFailure "out of memory")
  /\ fs (snd run) !! Path "uploads" "talk.wav" = None
  /\ fs (snd run) !! Path "uploads" "other.wav" = Some "RIFF".
Proof.
  intros w fs0 run.
  destruct (api_transcribe_leaves_no_upload w "talk.wav" "RIFF" fs0 eq_refl)
    as (H1 & H2 & H3 & _).
  split; [|split].
  - apply H3. vm_compute. reflexivity.
  - exact H1.
  - transitivity (fs0 !! Path "uploads" "other.wav"); [|reflexivity].
    apply H2; [reflexivity|discriminate].
Defined.

(** ** Trimming *)

Section Trimming.

#[local] Arguments String.append : simpl nomatch.

Let ws (s : string) : bool := Html.all_chars PyStr.isspace s.

(** An ASCII white-space character begins the encoding of no other
    white-space character. *)
Lemma is_space_after_space (c : ascii) (r : string) :
  PyStr.isspace c = true -> PyStr.is_space (String c r) = (if r is "" then true else false).
Proof.
  intros Hc. assert (Hn : nat_of_ascii c <= 32).
  { unfold PyStr.isspace in Hc.
    apply orb_true_iff in Hc as [H|H]; apply andb_true_iff in H as [Ha Hb];
      apply Nat.leb_le in Ha, Hb; lia. }
  destruct r as [|c2 [|c3 [|c4 r]]]; simpl; [exact Hc| | |reflexivity].
  - unfold PyStr.isspace2. cbv zeta.
    destruct (Nat.eqb_spec (nat_of_ascii c) 194); [lia|reflexivity].
  - unfold PyStr.isspace3. cbv zeta.
    destruct (Nat.eqb_spec (nat_of_ascii c) 225); [lia|].
    destruct (Nat.eqb_spec (nat_of_ascii c) 226); [lia|].
    destruct (Nat.eqb_spec (nat_of_ascii c) 227); [lia|]. reflexivity.
Qed.

Lemma rstrip_space (b : string) : ws b = true -> PyStr.rstrip b = "".
Proof.
  induction b as [|c b IH]; [reflexivity|]. simpl. intros H.
  apply andb_true_iff in H as [Hc Hb]. now rewrite (IH Hb), Hc.
Qed.

Lemma rstrip_app_space (x b : string) :
  ws b = true -> PyStr.rstrip (x ++ b) = PyStr.rstrip x.
Proof.
  intros Hb. induction x as [|c x IH]; simpl; [now apply rstrip_space|].
  now rewrite IH.
Qed.

Lemma rstrip_space_app (a x : string) :
  ws a = true ->
  PyStr.rstrip (a ++ x) = match PyStr.rstrip x with "" => "" | r => a ++ r end.
Proof.
  intros Ha. induction a as [|c a IH].
  - simpl. now destruct (PyStr.rstrip x).
  - simpl in Ha. apply andb_true_iff in Ha as [Hc Ha].
    change (String c a ++ x) with (String c (a ++ x)).
    cbn [PyStr.rstrip]. cbv zeta. rewrite (IH Ha), (is_space_after_space c _ Hc).
    destruct (PyStr.rstrip x) as [|d r]; [reflexivity|].
    now destruct a.
Qed.

Lemma lstrip_space_app (a x : string) :
  ws a = true -> PyStr.lstrip (a ++ x) = PyStr.lstrip x.
Proof.
  induction a as [|c a IH]; [reflexivity|]. simpl. intros H.
  apply andb_true_iff in H as [Hc Ha]. now rewrite Hc, IH.
Qed.

(** White space around a text does not change what [strip] returns. *)
Lemma strip_pad (a x b : string) :
  ws a = true -> ws b = true -> PyStr.strip (a ++ x ++ b) = PyStr.strip x.
Proof.
  intros Ha Hb. unfold PyStr.strip.
  rewrite (rstrip_space_app a _ Ha), (rstrip_app_space x b Hb).
  destruct (PyStr.rstrip x) as [|d r] eqn:E; [reflexivity|].
  now apply lstrip_space_app.
Qed.

Lemma strip_space (p : string) : ws p = true -> PyStr.strip p = "".
Proof. intros H. unfold PyStr.strip. now rewrite rstrip_space. Qed.

Lemma rstrip_rstrip (x : string) : PyStr.rstrip (PyStr.rstrip x) = PyStr.rstrip x.
Proof.
  induction x as [|c x IH]; [reflexivity|]. cbn [PyStr.rstrip]. cbv zeta.
  destruct (PyStr.is_space (String c (PyStr.rstrip x))) eqn:E; [reflexivity|].
  cbn [PyStr.rstrip]. cbv zeta. now rewrite IH, E.
Qed.

Lemma rstrip_fixed_tail (c : ascii) (r : string) :
  PyStr.rstrip (String c r) = String c r -> PyStr.rstrip r = r.
Proof.
  cbn [PyStr.rstrip]. cbv zeta. destruct (PyStr.is_space _); [discriminate|].
  now intros [= E].
Qed.

Lemma rstrip_fixed_suffix (a r : string) :
  PyStr.rstrip (a ++ r) = a ++ r -> PyStr.rstrip r = r.
Proof.
  induction a as [|c a IH]; [easy|]. intros H. apply IH.
  now apply (rstrip_fixed_tail c).
Qed.

(** [lstrip] returns its argument, or what it returns on a shorter rest
    of it. *)
Lemma lstrip_cases (s : string) :
  PyStr.lstrip s = s
  \/ exists a r, s = a ++ r /\ String.length r < String.length s
                 /\ PyStr.lstrip s = PyStr.lstrip r.
Proof.
  destruct s as [|c1 r1]; [now left|]. cbn [PyStr.lstrip].
  destruct (PyStr.isspace c1).
  { right. exists (String c1 ""), r1. repeat split; simpl; lia. }
  destruct r1 as [|c2 r2]; [now left|].
  destruct (PyStr.isspace2 c1 c2).
  { right. exists (String c1 (String c2 "")), r2. repeat split; simpl; lia. }
  destruct r2 as [|c3 r3]; [now left|].
  destruct (PyStr.isspace3 c1 c2 c3); [|now left].
  right. exists (String c1 (String c2 (String c3 ""))), r3. repeat split; simpl; lia.
Qed.

Lemma rstrip_lstrip_fixed (y : string) :
  PyStr.rstrip y = y -> PyStr.rstrip (PyStr.lstrip y) = PyStr.lstrip y.
Proof.
  remember (String.length y) as n eqn:Hn. revert y Hn.
  induction n as [n IH] using lt_wf_ind. intros y Hn H.
  destruct (lstrip_cases y) as [E | (a & r & Ey & Hlt & E)]; rewrite E; [exact H|].
  apply (IH (String.length r)); [lia|reflexivity|].
  apply (rstrip_fixed_suffix a). now rewrite <- Ey.
Qed.

Lemma lstrip_lstrip (y : string) : PyStr.lstrip (PyStr.lstrip y) = PyStr.lstrip y.
Proof.
  remember (String.length y) as n eqn:Hn. revert y Hn.
  induction n as [n IH] using lt_wf_ind. intros y Hn.
  destruct (lstrip_cases y) as [E | (a & r & Ey & Hlt & E)]; rewrite E; [exact E|].
  apply (IH (String.length r)); [lia|reflexivity].
Qed.

Lemma strip_strip (x : string) : PyStr.strip (PyStr.strip x) = PyStr.strip x.
Proof.
  unfold PyStr.strip.
  rewrite (rstrip_lstrip_fixed (PyStr.rstrip x)) by apply rstrip_rstrip.
  apply lstrip_lstrip.
Qed.

End Trimming.

(** Trimming (X12): white space around the text of a segment transcript
    does not change the line it adds to the aggregate transcript, and white
    space around the text of a heading does not change the key of its
    section; a key is its own trimmed text. *)
Theorem surrounding_space_is_ignored (a x b : string) :
  Html.all_chars PyStr.isspace a = true ->
  Html.all_chars PyStr.isspace b = true ->
  line_of (a ++ x ++ b) = line_of x
  /\ (forall tag attrs tag' attrs' h2 h2' cs cs',
        Html.find_tag "h2" cs = Some h2 ->
        Html.find_tag "h2" cs' = Some h2' ->
        Html.get_text h2' = a ++ Html.get_text h2 ++ b ->
        title_of (Elem tag' attrs' cs') = title_of (Elem tag attrs cs))
  /\ (forall n key, title_of n = Some key -> PyStr.strip key = key).
Proof.
  intros Ha Hb. split; [|split].
  - unfold line_of. now rewrite strip_pad.
  - intros tag attrs tag' attrs' h2 h2' cs cs' H1 H2 E. unfold title_of.
    rewrite H1, H2. simpl. now rewrite E, strip_pad.
  - intros [s|tag attrs cs] key; [discriminate|]. unfold title_of.
    destruct (Html.find_tag "h2" cs) as [h2|]; [|discriminate].
    intros [= <-]. apply strip_strip.
Qed.

Lemma surrounding_space_is_ignored_witness :
  line_of ("  " ++ "Skills" ++ Html.newline) = line_of "Skills"
  /\ (forall tag attrs tag' attrs' h2 h2' cs cs',
        Html.find_tag "h2" cs = Some h2 ->
        Html.find_tag "h2" cs' = Some h2' ->
        Html.get_text h2' = "  " ++ Html.get_text h2 ++ Html.newline ->
        title_of (Elem tag' attrs' cs') = title_of (Elem tag attrs cs))
  /\ (forall n key, title_of n = Some key -> PyStr.strip key = key).
Proof.
  apply (surrounding_space_is_ignored "  " "Skills" Html.newline); reflexivity.
Defined.

(** ** Searching and replacing *)

Section Searching.

#[local] Arguments String.append : simpl nomatch.
#[local] Arguments Ascii.eqb : simpl never.

Lemma find_None (p s : string) :
  PyStr.find p s = None <-> PyStr.contains p s = false.
Proof.
  induction s as [|c s IH]; simpl.
  - destruct (PyStr.startswith p ""); simpl; split; congruence.
  - destruct (PyStr.startswith p (String c s)); simpl; [split; congruence|].
    rewrite <- IH. destruct (PyStr.find p s); simpl; split; congruence.
Qed.

(** [find] returns the first place where the pattern starts. *)
Lemma find_Some (p s : string) (i : nat) :
  PyStr.find p s = Some i ->
  PyStr.startswith p (PyStr.drop i s) = true
  /\ i <= String.length s
  /\ forall j, j < i -> PyStr.startswith p (PyStr.drop j s) = false.
Proof.
  revert i. induction s as [|c s IH]; intros i; simpl.
  - destruct (PyStr.startswith p "") eqn:E; [|discriminate].
    intros [= <-]. split; [exact E|]. split; [lia|]. intros j Hj. lia.
  - destruct (PyStr.startswith p (String c s)) eqn:E.
    + intros [= <-]. split; [exact E|]. split; [lia|]. intros j Hj. lia.
    + destruct (PyStr.find p s) as [k|]; [|discriminate]. simpl. intros [= <-].
      destruct (IH k eq_refl) as (H1 & H2 & H3). split; [exact H1|]. split; [lia|].
      intros [|j] Hj; [exact E|]. simpl. apply H3. lia.
Qed.

Lemma find_first (p u v : string) :
  (forall j, j < String.length u -> PyStr.startswith p (PyStr.drop j (u ++ p ++ v)) = false) ->
  PyStr.find p (u ++ p ++ v) = Some (String.length u).
Proof.
  induction u as [|c u IH]; intros H.
  - simpl. assert (E : PyStr.startswith p (p ++ v) = true)
      by (apply startswith_iff; now exists v).
    destruct (p ++ v); simpl in *; now rewrite E.
  - change (String c u ++ p ++ v) with (String c (u ++ p ++ v)).
    assert (H0 : PyStr.startswith p (String c (u ++ p ++ v)) = false)
      by (apply (H 0); simpl; lia).
    cbn [PyStr.find]. rewrite H0.
    rewrite IH; [reflexivity|]. intros j Hj. apply (H (S j)). simpl. lia.
Qed.

(** The first occurrence of a character. *)
Lemma find_char_first (c : ascii) (u v : string) :
  PyStr.contains (String c "") u = false ->
  PyStr.find (String c "") (u ++ String c v) = Some (String.length u).
Proof.
  intros H. apply (find_first (String c "") u v). intros j Hj.
  destruct (PyStr.startswith (String c "") (PyStr.drop j (u ++ String c "" ++ v))) eqn:E;
    [|reflexivity].
  exfalso. apply startswith_iff in E as [r E].
  assert (Hu : exists u1 u2, u = u1 ++ u2 /\ String.length u1 = j).
  { exists (PyStr.take j u), (PyStr.drop j u). split; [now rewrite take_drop|].
    clear -Hj. revert j Hj. induction u as [|x u IH]; intros [|j] Hj; simpl in *;
      try lia. f_equal. apply IH. lia. }
  destruct Hu as (u1 & u2 & -> & <-).
  rewrite sapp_assoc, drop_app in E.
  destruct u2 as [|d u2]; [rewrite sapp_length in Hj; simpl in Hj; lia|].
  injection E as -> _.
  assert (Hc : PyStr.contains (String c "") (u1 ++ String c u2) = true).
  { apply contains_iff. now exists u1, u2. }
  congruence.
Qed.

End Searching.

Lemma contains_char_app (c : ascii) (a b : string) :
  PyStr.contains (String c "") (a ++ b)
  = PyStr.contains (String c "") a || PyStr.contains (String c "") b.
Proof.
  induction a as [|x a IH].
  - reflexivity.
  - change (String x a ++ b) with (String x (a ++ b)).
    cbn [PyStr.contains PyStr.startswith]. rewrite IH.
    now destruct (Ascii.eqb c x).
Qed.

(** ** The answer of the model and the templates *)

(** The fragment (X13): an answer that does not start with a brace, white
    space apart, is taken whole; an answer that starts with a brace is
    rejected as a request for clarification when it has no [<section], and
    is otherwise cut down to what starts at its first [<section], so that
    the fragment starts with [<section] and nothing of the answer behind
    that place is lost. *)
Theorem fragment_starts_at_first_section (generated : string) :
  (PyStr.startswith "{" (PyStr.lstrip generated) = false ->
     extract_fragment generated = inr generated)
  /\ (PyStr.startswith "{" (PyStr.lstrip generated) = true ->
      (PyStr.contains "<section" generated = false ->
         extract_fragment generated = inl ClarificationRequested)
      /\ (PyStr.contains "<section" generated = true ->
          exists junk fragment,
            generated = junk ++ fragment
            /\ extract_fragment generated = inr fragment
            /\ PyStr.startswith "<section" fragment = true
            /\ forall j, j < String.length junk ->
                 PyStr.startswith "<section" (PyStr.drop j generated) = false)).
Proof.
  unfold extract_fragment. split; [now intros ->|]. intros ->. split.
  - intros H. apply find_None in H. now rewrite H.
  - intros H. destruct (PyStr.find "<section" generated) as [i|] eqn:E.
    2:{ apply find_None in E. congruence. }
    destruct (find_Some _ _ _ E) as (H1 & H2 & H3).
    exists (PyStr.take i generated), (PyStr.drop i generated).
    split; [now rewrite take_drop|]. split; [reflexivity|]. split; [exact H1|].
    intros j Hj. apply H3.
    assert (String.length (PyStr.take i generated) <= i); [|lia].
    clear. revert i. induction generated as [|c s IH]; intros [|i]; simpl; try lia.
    specialize (IH i). lia.
Qed.

Lemma fragment_starts_at_first_section_witness :
  let generated := "{questions: none} Here it is: <section><h2>Skills</h2>Rocq</section>" in
  exists junk fragment,
    generated = junk ++ fragment
    /\ extract_fragment generated = inr fragment
    /\ PyStr.startswith "<section" fragment = true
    /\ forall j, j < String.length junk ->
         PyStr.startswith "<section" (PyStr.drop j generated) = false.
Proof.
  intros generated.
  apply (fragment_starts_at_first_section generated); reflexivity.
Defined.

(** The prompt (X14): a template without the marker ["Шаг 2"] is used
    whole; otherwise the template is cut after the line on which the marker
    first stands, and when no line break follows the marker it is cut in
    front of the marker; the presentation then takes the place of the
    placeholder in what is left, and a template left without the
    placeholder gives a prompt that does not depend on the presentation. *)
Theorem prompt_is_cut_after_marker_line (prompt_tpl presentation : string) :
  (PyStr.contains "Шаг 2" prompt_tpl = false ->
     make_prompt prompt_tpl presentation
     = PyStr.replace "{self_presentation}" presentation prompt_tpl)
  /\ (forall before after,
        prompt_tpl = before ++ "Шаг 2" ++ after ->
        PyStr.find "Шаг 2" prompt_tpl = Some (String.length before) ->
        (forall line rest,
           after = line ++ Html.newline ++ rest ->
           PyStr.contains Html.newline line = false ->
           make_prompt prompt_tpl presentation
           = PyStr.replace "{self_presentation}" presentation rest
           /\ (PyStr.contains "{self_presentation}" rest = false ->
               make_prompt prompt_tpl presentation = rest))
        /\ (PyStr.contains Html.newline after = false ->
            make_prompt prompt_tpl presentation
            = PyStr.replace "{self_presentation}" presentation ("Шаг 2" ++ after))).
Proof.
  unfold make_prompt. split.
  - intros H. apply find_None in H. now rewrite H.
  - intros before after -> Hfind. rewrite Hfind, drop_app. split.
    + intros line rest -> Hline.
      assert (E : PyStr.find Html.newline ("Шаг 2" ++ line ++ Html.newline ++ rest)
                  = Some (String.length ("Шаг 2" ++ line))).
      { rewrite <- sapp_assoc. apply find_char_first.
        rewrite contains_char_app. fold Html.newline. now rewrite Hline. }
      rewrite E, <- sapp_assoc.
      replace (String.length ("Шаг 2" ++ line) + 1)
        with (String.length (("Шаг 2" ++ line) ++ Html.newline))
        by (rewrite sapp_length; reflexivity).
      rewrite <- sapp_assoc, drop_app.
      split; [reflexivity|]. intros H. now apply replace_absent.
    + intros H.
      assert (E : PyStr.find Html.newline ("Шаг 2" ++ after) = None).
      { apply find_None. unfold Html.newline in *. rewrite contains_char_app.
        now rewrite H. }
      now rewrite E.
Qed.

Lemma prompt_is_cut_after_marker_line_witness :
  let prompt_tpl :=
    "Шаг 1: разбери текст." ++ Html.newline ++ "Шаг 2: напиши HTML." ++ Html.newline
    ++ "Текст: {self_presentation}" in
  make_prompt prompt_tpl "[Навыки] Rocq" = "Текст: [Навыки] Rocq".
Proof.
  intros prompt_tpl.
  destruct (prompt_is_cut_after_marker_line prompt_tpl "[Навыки] Rocq") as [_ H].
  destruct (H ("Шаг 1: разбери текст." ++ Html.newline)
              (": напиши HTML." ++ Html.newline ++ "Текст: {self_presentation}")
              eq_refl eq_refl) as [H1 _].
  destruct (H1 ": напиши HTML." "Текст: {self_presentation}" eq_refl eq_refl) as [-> _].
  reflexivity.
Defined.

(** Blank input (X15): a presentation made only of white space, or empty,
    is rejected as empty whatever the templates, the model and the renderer
    are: nothing has to be there for this answer. *)
Theorem blank_presentation_is_rejected (env : gen_env) (presentation : string) :
  Html.all_chars PyStr.isspace presentation = true ->
  generate_portfolio env presentation = inl EmptyPresentation.
Proof.
  intros H. unfold generate_portfolio. now rewrite strip_space.
Qed.

Lemma blank_presentation_is_rejected_witness :
  generate_portfolio (GenEnv ∅ None (fun _ => false) (fun _ => None) (fun _ => None))
    ("  " ++ Html.newline)
  = inl EmptyPresentation.
Proof.
  apply (blank_presentation_is_rejected
           (GenEnv ∅ None (fun _ => false) (fun _ => None) (fun _ => None))
           ("  " ++ Html.newline)).
  reflexivity.
Defined.

(** The page (X16): the page returned is the layout with the deduplicated
    fragment in the place of the placeholder: a layout without the
    placeholder is returned as it is, without the fragment, and in a layout
    with one placeholder the fragment stands between what precedes and what
    follows the placeholder, and is not searched for placeholders itself. *)
Theorem page_is_layout_around_fragment (env : gen_env)
    (presentation html pdf layout_tpl : string) :
  generate_portfolio env presentation = inr (html, pdf) ->
  files env !! LAYOUT_TEMPLATE = Some layout_tpl ->
  exists prompt_tpl text generated,
    files env !! PROMPT_TEMPLATE = Some prompt_tpl
    /\ llm env (make_prompt prompt_tpl presentation) = Some text
    /\ extract_fragment (PyStr.strip text) = inr generated
    /\ (PyStr.contains "{{content}}" layout_tpl = false -> html = layout_tpl)
    /\ (forall a b,
          layout_tpl = a ++ "{{content}}" ++ b ->
          PyStr.find "{{content}}" layout_tpl = Some (String.length a) ->
          PyStr.contains "{{content}}" b = false ->
          html = a ++ deduplicate_sections (sanitize_html generated) ++ b).
Proof.
  unfold generate_portfolio, load_text. intros H Hlayout.
  destruct (String.eqb _ ""); [discriminate|].
  destruct (files env !! PROMPT_TEMPLATE) as [prompt_tpl|]; [|discriminate].
  rewrite Hlayout in H.
  destruct (download_model env) as [model_path|]; [|discriminate].
  destruct (negb (llama_load env model_path)); [discriminate|].
  destruct (llm env _) as [text|] eqn:Hllm; [|discriminate].
  destruct (extract_fragment _) as [e|generated] eqn:Hext; [discriminate|].
  injection H as <- _.
  exists prompt_tpl, text, generated.
  split; [reflexivity|]. split; [exact Hllm|]. split; [exact Hext|]. split.
  - intros Habs. now apply replace_absent.
  - intros a b -> Hfind Hb.
    destruct (find_Some _ _ _ Hfind) as (_ & _ & Hfirst).
    rewrite replace_first; [|discriminate|exact Hfirst].
    now rewrite (replace_absent _ _ b Hb).
Qed.

Lemma page_is_layout_around_fragment_witness :
  let env :=
    GenEnv {[ PROMPT_TEMPLATE := "Write sections for: {self_presentation}";
              LAYOUT_TEMPLATE := "<main>{{content}}</main>" ]}
      (Some "models/model.gguf") (fun _ => true)
      (fun _ => Some "<section><h2>Skills</h2>{{content}}</section>")
      (fun _ => None) in
  exists prompt_tpl text generated,
    files env !! PROMPT_TEMPLATE = Some prompt_tpl
    /\ llm env (make_prompt prompt_tpl "[Skills] Rocq") = Some text
    /\ extract_fragment (PyStr.strip text) = inr generated
    /\ (PyStr.contains "{{content}}" "<main>{{content}}</main>" = false ->
        "<main><section><h2>Skills</h2>{{content}}</section></main>"
        = "<main>{{content}}</main>")
    /\ (forall a b,
          "<main>{{content}}</main>" = a ++ "{{content}}" ++ b ->
          PyStr.find "{{content}}" "<main>{{content}}</main>" = Some (String.length a) ->
          PyStr.contains "{{content}}" b = false ->
          "<main><section><h2>Skills</h2>{{content}}</section></main>"
          = a ++ deduplicate_sections (sanitize_html generated) ++ b).
Proof.
  intros env.
  apply (page_is_layout_around_fragment env "[Skills] Rocq"
           "<main><section><h2>Skills</h2>{{content}}</section></main>" ""
           "<main>{{content}}</main>").
  - vm_compute. reflexivity.
  - reflexivity.
Defined.

(** ** The two passes over the fragment *)

(** Fence stripping on a tree (X17): after the loop of [sanitize_html] has
    run over a tree, no text node of the tree contains a fence marker, and
    running the loop again over the same tree changes nothing. *)
Theorem fence_stripping_is_idempotent_on_trees (l : list node) :
  Forall clean (texts (map sanitize_node l))
  /\ map sanitize_node (map sanitize_node l) = map sanitize_node l.
Proof.
  assert (H : Forall clean (texts (map sanitize_node l))).
  { rewrite sanitize_texts. apply Forall_forall. intros x Hx.
    apply list_elem_of_fmap in Hx as (t & -> & _). apply strip_fences_clean. }
  split; [exact H|]. now apply sanitize_clean.
Qed.



(** ** Titles after deduplication *)

Section Titles.

Let keys (l : list node) : list string := omap title_of l.
Let kept (r : option node * gset string) : list node := option_list (fst r).

Lemma keep_first_keys (l : list node) (seen : gset string) :
  NoDup (keys (keep_first seen l))
  /\ forall k, k ∈ keys (keep_first seen l) -> k ∉ seen.
Proof.
  revert seen. induction l as [|n l IH]; intros seen.
  - split; [constructor | intros k Hk; inversion Hk].
  - simpl. destruct (title_of n) as [key|] eqn:E.
    + destruct (decide (key ∈ seen)) as [Hin|Hout]; [apply IH|].
      destruct (IH ({[ key ]} ∪ seen)) as [H1 H2].
      unfold keys. simpl. rewrite E. simpl. split.
      * constructor; [|exact H1]. intros Hk. apply H2 in Hk. apply Hk.
        apply elem_of_union. left. now apply elem_of_singleton.
      * intros k Hk. apply elem_of_cons in Hk as [->|Hk]; [exact Hout|].
        apply H2 in Hk. intros Hin. apply Hk, elem_of_union. now right.
    + destruct (IH seen) as [H1 H2]. unfold keys. simpl. rewrite E. now split.
Qed.

Lemma keys_app (a b : list node) : keys (a ++ b) = (keys a ++ keys b)%list.
Proof. apply omap_app. Qed.

(** A forest in which no key has been seen and no key stands twice is left
    as it is. *)
Lemma dedup_fixed_forest (l : list node) :
  Forall (fun n => flat_node n = true -> forall seen,
            NoDup (keys (sections_node n)) ->
            (forall k, k ∈ keys (sections_node n) -> k ∉ seen) ->
            dedup_node seen n = (Some n, seen_after seen (sections_node n))) l ->
  flat l = true -> forall seen,
  NoDup (keys (sections l)) ->
  (forall k, k ∈ keys (sections l) -> k ∉ seen) ->
  dedup_nodes seen l = (l, seen_after seen (sections l)).
Proof.
  induction 1 as [|n l Hn _ IH]; intros Hflat seen Hnd Hout; [reflexivity|].
  unfold flat in Hflat. simpl in Hflat. apply andb_true_iff in Hflat as [Hfn Hfl].
  rewrite sections_cons, keys_app in Hnd, Hout.
  apply NoDup_app in Hnd as (Hnd1 & Hdis & Hnd2).
  rewrite dedup_nodes_cons, (Hn Hfn seen Hnd1).
  2:{ intros k Hk. apply Hout, elem_of_app. now left. }
  cbn [fst snd]. rewrite (IH Hfl); [|exact Hnd2|].
  - cbn [fst snd]. now rewrite sections_cons, seen_after_app.
  - intros k Hk Hin. apply elem_of_seen_after in Hin as [Hin|Hin].
    + revert Hin. apply Hout, elem_of_app. now right.
    + apply (Hdis k); [|exact Hk]. unfold keys.
      apply list_elem_of_fmap in Hin as (m & Hm & Hin).
      apply list_elem_of_omap. exists m. split; [exact Hin | now symmetry].
Qed.

Lemma dedup_fixed_node (n : node) :
  flat_node n = true -> forall seen,
  NoDup (keys (sections_node n)) ->
  (forall k, k ∈ keys (sections_node n) -> k ∉ seen) ->
  dedup_node seen n = (Some n, seen_after seen (sections_node n)).
Proof.
  induction n as [s|tag attrs cs IH] using node_ind; intros Hflat seen Hnd Hout;
    [reflexivity|].
  simpl in Hflat. apply andb_true_iff in Hflat as [Hcs Hsec].
  rewrite dedup_node_elem. cbv zeta.
  destruct (String.eqb tag "section") eqn:Etag.
  - assert (Hnone : sections cs = []).
    { unfold sections. now destruct (flat_map sections_node cs). }
    assert (Hs : sections_node (Elem tag attrs cs) = [Elem tag attrs cs]).
    { simpl. rewrite Etag. fold (sections cs). now rewrite Hnone. }
    rewrite Hs in Hout |- *. clear Hnd Hs.
    unfold seen_after. cbn [fold_left]. unfold see.
    change (title_of (Elem tag attrs cs))
      with (option_map (fun h2 => PyStr.strip (Html.get_text h2)) (Html.find_tag "h2" cs)).
    destruct (Html.find_tag "h2" cs) as [h2|] eqn:Eh; cbn [option_map].
    + assert (Hk : PyStr.strip (Html.get_text h2) ∉ seen).
      { apply Hout. unfold keys. cbn [omap list_omap]. unfold title_of. rewrite Eh.
        cbn [option_map]. left. }
      rewrite !decide_False by exact Hk.
      now rewrite dedup_without_sections.
    + now rewrite dedup_without_sections.
  - assert (Hs : sections_node (Elem tag attrs cs) = sections cs).
    { simpl. now rewrite Etag. }
    rewrite Hs in Hnd, Hout |- *.
    now rewrite (dedup_fixed_forest cs IH Hcs seen Hnd Hout).
Qed.

Lemma dedup_fixed (l : list node) (seen : gset string) :
  flat l = true ->
  NoDup (keys (sections l)) ->
  (forall k, k ∈ keys (sections l) -> k ∉ seen) ->
  fst (dedup_nodes seen l) = l.
Proof.
  intros Hflat Hnd Hout. rewrite dedup_fixed_forest; try assumption; [reflexivity|].
  apply Forall_forall. intros n _. apply dedup_fixed_node.
Qed.

(** Deduplication keeps a forest free of nested sections. *)
Lemma dedup_keeps_flat_forest (l : list node) :
  Forall (fun n => flat_node n = true -> forall seen,
            flat (kept (dedup_node seen n)) = true) l ->
  flat l = true -> forall seen, flat (fst (dedup_nodes seen l)) = true.
Proof.
  induction 1 as [|n l Hn _ IH]; intros Hflat seen; [reflexivity|].
  unfold flat in Hflat. simpl in Hflat. apply andb_true_iff in Hflat as [Hfn Hfl].
  destruct (dedup_nodes_split seen n l) as [-> _].
  unfold flat. rewrite forallb_app. apply andb_true_iff. split.
  - apply (Hn Hfn).
  - apply (IH Hfl).
Qed.

Lemma dedup_keeps_flat_node (n : node) :
  flat_node n = true -> forall seen, flat (kept (dedup_node seen n)) = true.
Proof.
  induction n as [s|tag attrs cs IH] using node_ind; intros Hflat seen; [reflexivity|].
  pose proof Hflat as Hn.
  simpl in Hflat. apply andb_true_iff in Hflat as [Hcs Hsec].
  rewrite dedup_node_elem. cbv zeta. unfold kept.
  destruct (String.eqb tag "section") eqn:Etag.
  - assert (Hnone : sections cs = []).
    { unfold sections. now destruct (flat_map sections_node cs). }
    destruct (Html.find_tag "h2" cs) as [h2|]; [destruct (decide _); [reflexivity|]|];
      rewrite dedup_without_sections by assumption;
      change (forallb flat_node [Elem tag attrs cs] = true);
      cbn [forallb]; now rewrite Hn.
  - change (forallb flat_node [Elem tag attrs (fst (dedup_nodes seen cs))] = true).
    cbn [forallb flat_node]. rewrite Etag.
    rewrite !andb_true_r. apply (dedup_keeps_flat_forest cs IH Hcs).
Qed.

Lemma dedup_keeps_flat (l : list node) (seen : gset string) :
  flat l = true -> flat (fst (dedup_nodes seen l)) = true.
Proof.
  intros Hflat. apply dedup_keeps_flat_forest; [|exact Hflat].
  apply Forall_forall. intros n _. apply dedup_keeps_flat_node.
Qed.

End Titles.

(** Titles after deduplication (X19): in a fragment where no section lies
    inside another section, deduplication leaves no two sections with the
    same key, it leaves no section inside another, and running it again
    over the tree it has left removes nothing. *)
Theorem no_title_is_left_twice (l : list node) :
  flat l = true ->
  let out := fst (dedup_nodes ∅ l) in
  NoDup (omap title_of (sections out))
  /\ flat out = true
  /\ fst (dedup_nodes ∅ out) = out.
Proof.
  intros Hflat out.
  assert (Hnd : NoDup (omap title_of (sections out))).
  { unfold out. rewrite dedup_flat by exact Hflat. apply keep_first_keys. }
  assert (Hout : flat out = true) by now apply dedup_keeps_flat.
  split; [exact Hnd|]. split; [exact Hout|].
  apply dedup_fixed; [exact Hout | exact Hnd|]. intros k _. apply not_elem_of_empty.
Qed.

Lemma no_title_is_left_twice_witness :
  let l := Html.parse
    "<p>intro</p><div><section><h2>A</h2>1</section></div><section>plain</section><section><h2> A </h2>3</section><section><h2>B</h2>4</section>" in
  let out := fst (dedup_nodes ∅ l) in
  NoDup (omap title_of (sections out))
  /\ flat out = true
  /\ fst (dedup_nodes ∅ out) = out.
Proof.
  intros l. apply (no_title_is_left_twice l). vm_compute. reflexivity.
Defined.

(** ** The generation endpoint *)

(** The document returned is what the renderer made of the page returned,
    or empty. *)
Lemma pdf_of_page (env : gen_env) (presentation html pdf : string) :
  generate_portfolio env presentation = inr (html, pdf) ->
  pdf = default "" (write_pdf env html).
Proof.
  unfold generate_portfolio, load_text. intros H.
  destruct (String.eqb _ ""); [discriminate|].
  destruct (files env !! PROMPT_TEMPLATE) as [prompt_tpl|]; [|discriminate].
  destruct (files env !! LAYOUT_TEMPLATE) as [layout_tpl|]; [|discriminate].
  destruct (download_model env) as [model_path|]; [|discriminate].
  destruct (negb (llama_load env model_path)); [discriminate|].
  destruct (llm env _) as [text|]; [|discriminate].
  destruct (extract_fragment _) as [e|generated]; [discriminate|].
  injection H as <- <-. now destruct (write_pdf env _).
Qed.

(** The generation endpoint (X20): when [generate_portfolio] fails, the
    endpoint answers with the error 500 that carries the failure and writes
    nothing; otherwise it answers with the page, the file of the page holds
    that page and the file of the document holds what the renderer made of
    it, which is an empty document when the renderer failed: the address in
    the answer then names an empty file, and it has replaced the document
    of the request before; no other file is touched. *)
Theorem api_generate_writes_what_it_answers (env : gen_env) (url_for : string -> string)
    (text : string) (disk : gmap string string) :
  let r := api_generate env url_for text disk in
  (forall e, generate_portfolio env text = inl e -> r = (HttpError 500 e, disk))
  /\ (forall status e, fst r = HttpError status e ->
        status = 500 /\ generate_portfolio env text = inl e /\ snd r = disk)
  /\ (forall html pdf_url, fst r = Answer (html, pdf_url) ->
        (exists pdf, generate_portfolio env text = inr (html, pdf))
        /\ pdf_url = url_for "portfolio.pdf"
        /\ snd r !! PORTFOLIO_HTML = Some html
        /\ snd r !! PORTFOLIO_PDF = Some (default "" (write_pdf env html))
        /\ forall q, q <> PORTFOLIO_HTML -> q <> PORTFOLIO_PDF -> snd r !! q = disk !! q).
Proof.
  intros r. unfold r, api_generate. split; [now intros e ->|]. split.
  - intros status e.
    destruct (generate_portfolio env text) as [e'|[html pdf]]; [|discriminate].
    now intros [= <- <-].
  - intros html pdf_url.
    destruct (generate_portfolio env text) as [e'|[html' pdf]] eqn:E; [discriminate|].
    cbn [fst snd]. intros [= <- <-].
    split; [now exists pdf|]. split; [reflexivity|]. split; [|split].
    + rewrite lookup_insert_ne by discriminate. apply lookup_insert_eq.
    + rewrite lookup_insert_eq. f_equal. exact (pdf_of_page env text html' pdf E).
    + intros q H1 H2. now rewrite !lookup_insert_ne by congruence.
Qed.

Lemma api_generate_writes_what_it_answers_witness :
  let env :=
    GenEnv {[ PROMPT_TEMPLATE := "Write sections for: {self_presentation}";
              LAYOUT_TEMPLATE := "<main>{{content}}</main>" ]}
      (Some "models/model.gguf") (fun _ => true)
      (fun _ => Some "<section><h2>Skills</h2>Rocq</section>")
      (fun _ => None) in
  let r := api_generate env (fun n => "/static/" ++ n) "[Skills] Rocq"
             {[ PORTFOLIO_PDF := "%PDF of the request before" ]} in
  fst r = Answer ("<main><section><h2>Skills</h2>Rocq</section></main>",
                  "/static/portfolio.pdf")
  /\ snd r !! PORTFOLIO_HTML = Some "<main><section><h2>Skills</h2>Rocq</section></main>"
  /\ snd r !! PORTFOLIO_PDF = Some "".
Proof.
  intros env r.
  assert (E : fst r = Answer ("<main><section><h2>Skills</h2>Rocq</section></main>",
                              "/static/portfolio.pdf")) by (vm_compute; reflexivity).
  split; [exact E|].
  destruct (api_generate_writes_what_it_answers env (fun n => "/static/" ++ n)
              "[Skills] Rocq" {[ PORTFOLIO_PDF := "%PDF of the request before" ]})
    as (_ & _ & H).
  destruct (H _ _ E) as (_ & _ & H1 & H2 & _).
  split; [exact H1 | exact H2].
Defined.
